(** * zeroconf: mDNS / DNS-SD responder and resolver

    A shallow embedding of [utils.go] and [server.go] (which also holds the
    resolver, [client.go]) and the properties of the specification that
    are settled against it.

    Go strings are byte sequences: a [string] here is a list of 8-bit
    characters, [String.length] is Go's [len].  Machine integers are [Z]
    (a [uint16] or [uint32] value is a [Z] in range; the code never
    overflows one).  A [nil] slice and an empty slice are both [[]]. *)

From stdpp Require Import gmap strings list fin_maps.
From Stdlib Require Import ZArith Ascii String Bool Lia.

Open Scope Z_scope.

(* ===================================================================== *)
(** ** Strings as Go sees them *)
(* ===================================================================== *)

Module GoString.

(** [len(s)] *)
Definition len (s : string) : Z := Z.of_nat (String.length s).

(** The slice expression [s[lo:hi]]. *)
Definition slice (s : string) (lo hi : nat) : string :=
  String.substring lo (hi - lo) s.

(** [s[lo:]] *)
Definition slice_from (s : string) (lo : nat) : string :=
  slice s lo (String.length s).

Definition byte_val (c : ascii) : Z := Z.of_N (N_of_ascii c).

(** A UTF-8 continuation byte, [0x80..0xBF]. *)
Definition is_cont (c : ascii) : bool :=
  (0x80 <=? byte_val c) && (byte_val c <=? 0xBF).

(** Width in bytes of the rune that a [for ... range] over a string
    decodes at the head of [s].  This is Go's UTF-8 decoder: an ASCII
    byte, and any byte that does not start a well-formed sequence
    (decoded as U+FFFD), has width 1; a well-formed sequence has width
    2, 3 or 4.  The second byte's accepted range depends on the first
    (no overlong forms, no surrogates, nothing above U+10FFFF). *)
Definition rune_width (s : string) : nat :=
  match s with
  | EmptyString => 0%nat
  | String c0 r =>
    let p0 := byte_val c0 in
    if (p0 <? 0xC2) || (0xF4 <? p0) then 1%nat
    else
      let sz := if p0 <? 0xE0 then 2%nat else if p0 <? 0xF0 then 3%nat else 4%nat in
      let lo := if p0 =? 0xE0 then 0xA0 else if p0 =? 0xF0 then 0x90 else 0x80 in
      let hi := if p0 =? 0xED then 0x9F else if p0 =? 0xF4 then 0x8F else 0xBF in
      match r with
      | EmptyString => 1%nat
      | String c1 r1 =>
        if (byte_val c1 <? lo) || (hi <? byte_val c1) then 1%nat
        else if (sz <=? 2)%nat then 2%nat
        else match r1 with
             | EmptyString => 1%nat
             | String c2 r2 =>
               if negb (is_cont c2) then 1%nat
               else if (sz <=? 3)%nat then 3%nat
               else match r2 with
                    | EmptyString => 1%nat
                    | String c3 _ => if negb (is_cont c3) then 1%nat else 4%nat
                    end
             end
      end
  end.

(** Byte offsets visited by [for i := range s]: the start of every rune.
    [rest] is [s[i:]]; [skip] counts the bytes of the current rune that
    are still to be stepped over. *)
Fixpoint rune_starts_from (rest : string) (i skip : nat) : list nat :=
  match rest with
  | EmptyString => []
  | String _ rest' =>
    match skip with
    | O => i :: rune_starts_from rest' (S i) (rune_width rest - 1)
    | S k => rune_starts_from rest' (S i) k
    end
  end.

Definition rune_starts (s : string) : list nat := rune_starts_from s 0 0.

(** [strings.Join(l, "")]: the in-order concatenation. *)
Definition concat_all (l : list string) : string :=
  fold_right String.append EmptyString l.

(** [strings.HasSuffix(s, suffix)] *)
Definition HasSuffix (s suffix : string) : bool :=
  let n := String.length s in
  let k := String.length suffix in
  (k <=? n)%nat && String.eqb (String.substring (n - k) k s) suffix.

(** [strings.HasPrefix] is Stdlib's [String.prefix]. *)

Fixpoint trim_left_dots (s : string) : string :=
  match s with
  | String "."%char r => trim_left_dots r
  | _ => s
  end.

(** Drops the dots at the end: a dot is kept only when a byte other
    than a dot follows it. *)
Fixpoint trim_right_dots (s : string) : string :=
  match s with
  | EmptyString => EmptyString
  | String c r =>
    match trim_right_dots r with
    | EmptyString => if Ascii.eqb c "."%char then EmptyString else String c EmptyString
    | r' => String c r'
    end
  end.

(** [strings.Trim(s, ".")] *)
Definition Trim_dot (s : string) : string := trim_right_dots (trim_left_dots s).

(** [strings.Replace(s, old, "", n)] for a non-empty [old]: the first
    [n] non-overlapping occurrences of [old] are removed, all of them
    when [n] is [None] (Go's [-1]).  [fuel] bounds the scan by the
    length of [s].  With an empty [old] and an empty replacement Go
    returns [s]. *)
Fixpoint remove_occ (fuel : nat) (old s : string) (n : option nat) : string :=
  match fuel with
  | O => s
  | S fuel' =>
    match n with
    | Some O => s
    | _ =>
      match s with
      | EmptyString => EmptyString
      | String c r =>
        if String.prefix old s
        then remove_occ fuel' old
               (String.substring (String.length old) (String.length s - String.length old) s)
               (option_map Nat.pred n)
        else String c (remove_occ fuel' old r n)
      end
    end
  end.

Definition Replace_with_empty (s old : string) (n : option nat) : string :=
  if String.eqb old EmptyString then s
  else remove_occ (S (String.length s)) old s n.

End GoString.

(* ===================================================================== *)
(** ** utils.go *)
(* ===================================================================== *)

(** [trimDot] trims the dots from the start and the end of a string. *)
Definition trimDot (s : string) : string := GoString.Trim_dot s.

Module Chunks.
Import GoString.

(** The three loop variables of [chunks]. *)
Record loop_state := mkLoop {
  out : list string;
  currentLen : Z;
  currentStart : nat
}.

(** One pass through the body of [for i := range s]. *)
Definition loop_body (s : string) (chunkSize : Z) (st : loop_state) (i : nat)
  : loop_state :=
  let st' :=
    if currentLen st =? chunkSize
    then mkLoop (out st ++ [slice s (currentStart st) i]) 0 i
    else st in
  mkLoop (out st') (currentLen st' + 1) (currentStart st').

Definition chunks (s : string) (chunkSize : Z) : list string :=
  if len s =? 0 then []
  else if chunkSize >=? len s then [s]
  else
    let st := fold_left (loop_body s chunkSize) (rune_starts s) (mkLoop [] 0 0) in
    out st ++ [slice_from s (currentStart st)].

End Chunks.


(* ===================================================================== *)
(** ** The collaborators: DNS messages, addresses, interfaces *)
(* ===================================================================== *)

(** What the code reads of a [net.IP]: the address itself and the answers
    of the predicates the code calls on it. *)
Record IP := mkIP {
  ip_text : string;
  To4_ok : bool;                   (* [ip.To4() != nil] *)
  IsLoopback : bool;
  IsGlobalUnicast : bool;
  IsLinkLocalUnicast : bool
}.

(** An element of [iface.Addrs()]: an [*net.IPNet] or some other address. *)
Inductive NetAddr :=
| IPNet (ip : IP)
| OtherAddr.

(** A [net.Interface] together with the addresses the OS reports for it. *)
Record Interface := mkInterface {
  Index : Z;
  IfName : string;
  Addrs : list NetAddr
}.

(** The subset of [github.com/miekg/dns] the code uses. *)
Module Dns.

Definition TypeA : Z := 1.
Definition TypePTR : Z := 12.
Definition TypeTXT : Z := 16.
Definition TypeAAAA : Z := 28.
Definition TypeSRV : Z := 33.
Definition TypeANY : Z := 255.
Definition ClassINET : Z := 1.
Definition OpcodeQuery : Z := 0.
Definition RcodeSuccess : Z := 0.

Record RR_Header := mkHdr {
  Name : string;
  Rrtype : Z;
  Class : Z;
  Ttl : Z
}.

(** A resource record: the Go value's dynamic type is the constructor. *)
Inductive RR :=
| PTR (Hdr : RR_Header) (Ptr : string)
| SRV (Hdr : RR_Header) (Priority Weight Port : Z) (Target : string)
| TXT (Hdr : RR_Header) (Txt : list string)
| A (Hdr : RR_Header) (a : IP)
| AAAA (Hdr : RR_Header) (aaaa : IP)
| RFC3597 (Hdr : RR_Header).

Definition Header (rr : RR) : RR_Header :=
  match rr with
  | PTR h _ | SRV h _ _ _ _ | TXT h _ | A h _ | AAAA h _ | RFC3597 h => h
  end.

Record Question := mkQuestion {
  Qname : string;
  Qtype : Z;
  Qclass : Z
}.

Record Msg := mkMsg {
  Id : Z;
  Response : bool;
  Opcode : Z;
  Authoritative : bool;
  RecursionDesired : bool;
  CheckingDisabled : bool;
  Rcode : Z;
  Compress : bool;
  Questions : list Question;       (* the field [Question] *)
  Answer : list RR;
  Ns : list RR;
  Extra : list RR
}.

(** [new(dns.Msg)], [dns.Msg{}]: every field zero. *)
Definition zero : Msg := mkMsg 0 false 0 false false false 0 false [] [] [] [].

Definition set_Response (b : bool) (m : Msg) : Msg :=
  mkMsg (Id m) b (Opcode m) (Authoritative m) (RecursionDesired m)
        (CheckingDisabled m) (Rcode m) (Compress m) (Questions m) (Answer m) (Ns m) (Extra m).
Definition set_Authoritative (b : bool) (m : Msg) : Msg :=
  mkMsg (Id m) (Response m) (Opcode m) b (RecursionDesired m)
        (CheckingDisabled m) (Rcode m) (Compress m) (Questions m) (Answer m) (Ns m) (Extra m).
Definition set_RecursionDesired (b : bool) (m : Msg) : Msg :=
  mkMsg (Id m) (Response m) (Opcode m) (Authoritative m) b
        (CheckingDisabled m) (Rcode m) (Compress m) (Questions m) (Answer m) (Ns m) (Extra m).
Definition set_Compress (b : bool) (m : Msg) : Msg :=
  mkMsg (Id m) (Response m) (Opcode m) (Authoritative m) (RecursionDesired m)
        (CheckingDisabled m) (Rcode m) b (Questions m) (Answer m) (Ns m) (Extra m).
Definition set_Question (q : list Question) (m : Msg) : Msg :=
  mkMsg (Id m) (Response m) (Opcode m) (Authoritative m) (RecursionDesired m)
        (CheckingDisabled m) (Rcode m) (Compress m) q (Answer m) (Ns m) (Extra m).
Definition set_Answer (l : list RR) (m : Msg) : Msg :=
  mkMsg (Id m) (Response m) (Opcode m) (Authoritative m) (RecursionDesired m)
        (CheckingDisabled m) (Rcode m) (Compress m) (Questions m) l (Ns m) (Extra m).
Definition set_Ns (l : list RR) (m : Msg) : Msg :=
  mkMsg (Id m) (Response m) (Opcode m) (Authoritative m) (RecursionDesired m)
        (CheckingDisabled m) (Rcode m) (Compress m) (Questions m) (Answer m) l (Extra m).
Definition set_Extra (l : list RR) (m : Msg) : Msg :=
  mkMsg (Id m) (Response m) (Opcode m) (Authoritative m) (RecursionDesired m)
        (CheckingDisabled m) (Rcode m) (Compress m) (Questions m) (Answer m) (Ns m) l.

(** [resp.SetReply(request)]: copies the id and the opcode, sets the
    response bit, copies RD and CD of a standard query, and echoes the
    first question. *)
Definition SetReply (request : Msg) (m : Msg) : Msg :=
  let std := Opcode request =? OpcodeQuery in
  mkMsg (Id request) true (Opcode request) (Authoritative m)
        (if std then RecursionDesired request else RecursionDesired m)
        (if std then CheckingDisabled request else CheckingDisabled m)
        RcodeSuccess (Compress m)
        (match Questions request with
         | q :: _ => [q]
         | [] => Questions m
         end)
        (Answer m) (Ns m) (Extra m).

(** [m.SetQuestion(name, qtype)]: a fresh id [id], recursion desired,
    one question of class IN. *)
Definition SetQuestion (id : Z) (name : string) (qtype : Z) (m : Msg) : Msg :=
  mkMsg id (Response m) (Opcode m) (Authoritative m) true
        (CheckingDisabled m) (Rcode m) (Compress m)
        [mkQuestion name qtype ClassINET] (Answer m) (Ns m) (Extra m).

End Dns.

(* ===================================================================== *)
(** ** The service entry *)
(* ===================================================================== *)

(** [strings.Split(s, ",")]: always at least one piece. *)
Fixpoint Split_comma (s : string) : list string :=
  match s with
  | EmptyString => [EmptyString]
  | String c r =>
    if Ascii.eqb c ","%char then EmptyString :: Split_comma r
    else match Split_comma r with
         | x :: l => String c x :: l
         | [] => [String c EmptyString]
         end
  end.

Definition parseSubtypes (service : string) : string * list string :=
  match Split_comma service with
  | x :: l => (x, l)
  | [] => (EmptyString, [])
  end.

Record ServiceEntry := mkEntry {
  Instance : string;
  Service : string;
  Domain : string;
  Subtypes : list string;
  HostName : string;
  Port : Z;
  Text : list string;
  AddrIPv4 : list IP;
  AddrIPv6 : list IP;
  Expiry : Z;                      (* a [time.Time], in nanoseconds *)
  CacheFlush : bool
}.

(** Modelled from the spec: [newServiceEntry], of the absent service.go.
    The entry carries the instance, the service type and the domain; the
    service argument may list subtypes after commas ([parseSubtypes]);
    every other field starts at its zero value. *)
Definition newServiceEntry (instance service domain : string) : ServiceEntry :=
  let '(service, subtypes) := parseSubtypes service in
  mkEntry instance service domain subtypes EmptyString 0 [] [] [] 0 false.

(** Modelled from the spec: [ServiceName], of the absent service.go:
    [<service>.<domain>.], composed as [query] composes it in client.go. *)
Definition ServiceName_of (service domain : string) : string :=
  trimDot service +:+ "." +:+ trimDot domain +:+ ".".

(** Modelled from the spec: [ServiceInstanceName], of the absent
    service.go: [<instance>.<service>.<domain>.], and empty when there is
    no instance (the resolver tests it against the empty string). *)
Definition ServiceInstanceName_of (instance service domain : string) : string :=
  if String.eqb instance EmptyString then EmptyString
  else trimDot instance +:+ "." +:+ ServiceName_of service domain.

(** Modelled from the spec: [ServiceTypeName], of the absent service.go:
    the DNS-SD meta-query name [_services._dns-sd._udp.<domain>.]. *)
Definition ServiceTypeName_of (domain : string) : string :=
  "_services._dns-sd._udp." +:+ trimDot domain +:+ ".".

Definition ServiceName (e : ServiceEntry) : string :=
  ServiceName_of (Service e) (Domain e).
Definition ServiceInstanceName (e : ServiceEntry) : string :=
  ServiceInstanceName_of (Instance e) (Service e) (Domain e).
Definition ServiceTypeName (e : ServiceEntry) : string :=
  ServiceTypeName_of (Domain e).

(** Modelled from the spec: [TxtRecords], of the absent service.go: each
    TXT value is split by [chunks(s, 255)], the pieces are kept in
    insertion order, and an empty set is one zero-length string. *)
Definition TxtRecords (e : ServiceEntry) : list string :=
  match Text e with
  | [] => [EmptyString]
  | l => flat_map (fun t => Chunks.chunks t 255) l
  end.

Definition set_HostName (h : string) (e : ServiceEntry) : ServiceEntry :=
  mkEntry (Instance e) (Service e) (Domain e) (Subtypes e) h (Port e) (Text e)
          (AddrIPv4 e) (AddrIPv6 e) (Expiry e) (CacheFlush e).
Definition set_Domain (d : string) (e : ServiceEntry) : ServiceEntry :=
  mkEntry (Instance e) (Service e) d (Subtypes e) (HostName e) (Port e) (Text e)
          (AddrIPv4 e) (AddrIPv6 e) (Expiry e) (CacheFlush e).
Definition set_Port (p : Z) (e : ServiceEntry) : ServiceEntry :=
  mkEntry (Instance e) (Service e) (Domain e) (Subtypes e) (HostName e) p (Text e)
          (AddrIPv4 e) (AddrIPv6 e) (Expiry e) (CacheFlush e).
Definition set_Text (t : list string) (e : ServiceEntry) : ServiceEntry :=
  mkEntry (Instance e) (Service e) (Domain e) (Subtypes e) (HostName e) (Port e) t
          (AddrIPv4 e) (AddrIPv6 e) (Expiry e) (CacheFlush e).
Definition set_AddrIPv4 (l : list IP) (e : ServiceEntry) : ServiceEntry :=
  mkEntry (Instance e) (Service e) (Domain e) (Subtypes e) (HostName e) (Port e) (Text e)
          l (AddrIPv6 e) (Expiry e) (CacheFlush e).
Definition set_AddrIPv6 (l : list IP) (e : ServiceEntry) : ServiceEntry :=
  mkEntry (Instance e) (Service e) (Domain e) (Subtypes e) (HostName e) (Port e) (Text e)
          (AddrIPv4 e) l (Expiry e) (CacheFlush e).
Definition set_Expiry (t : Z) (e : ServiceEntry) : ServiceEntry :=
  mkEntry (Instance e) (Service e) (Domain e) (Subtypes e) (HostName e) (Port e) (Text e)
          (AddrIPv4 e) (AddrIPv6 e) t (CacheFlush e).
Definition set_CacheFlush (b : bool) (e : ServiceEntry) : ServiceEntry :=
  mkEntry (Instance e) (Service e) (Domain e) (Subtypes e) (HostName e) (Port e) (Text e)
          (AddrIPv4 e) (AddrIPv6 e) (Expiry e) b.


(* ===================================================================== *)
(** ** server.go: the responder *)
(* ===================================================================== *)

(** The host the responder runs on: what [os.Hostname], [net.ParseIP],
    [net.InterfaceByIndex] and the multicast sockets of the absent
    connection.go answer. *)
Record Host := mkHost {
  os_Hostname : option string;
  ParseIP : string -> option IP;
  all_interfaces : list Interface;
  listMulticastInterfaces : list Interface;
  joinUdp4Multicast : list Interface -> bool;     (* [true]: no error *)
  joinUdp6Multicast : list Interface -> bool
}.

(** [net.InterfaceByIndex]: an index that is not positive is an error. *)
Definition InterfaceByIndex (h : Host) (index : Z) : option Interface :=
  if index <=? 0 then None
  else find (fun i => Index i =? index) (all_interfaces h).

(** A datagram as read from a socket, and the codec that unpacks it
    ([msg.Unpack]; [None] is an unpack error). *)
Definition Packet := string.
Definition Codec := Packet -> option Dns.Msg.

(** What one call of [ReadFrom] returns: a datagram with its control
    message (the index of the receiving interface, when there is one)
    and its source, or an error. *)
Inductive ReadResult :=
| ReadOk (packet : Packet) (cm : option Z) (from : string)
| ReadErr (err : string).

Inductive result (A : Type) :=
| Ok (a : A)
| Error (msg : string).
Arguments Ok {A} a.
Arguments Error {A} msg.

Module Responder.
Import Dns.

(** Number of multicast responses sent for a query message. *)
Definition multicastRepetitions : nat := 2.

Definition defaultTTL : Z := 3200.

Record serverOpts := mkOpts { opt_ttl : Z }.

(** A [ServerOption] fills the option struct. *)
Definition ServerOption := serverOpts -> serverOpts.

(** [TTL] sets the TTL for DNS replies. *)
Definition TTL (ttl : Z) : ServerOption := fun _ => mkOpts ttl.

(** The variadic options; a [nil] option is [None] and is skipped. *)
Definition applyServerOpts (options : list (option ServerOption)) : serverOpts :=
  fold_left (fun conf o => match o with Some f => f conf | None => conf end)
            options (mkOpts defaultTTL).

Definition qClassCacheFlush : Z := Z.shiftl 1 15.

(** The [Server] structure; a connection is [true] when it is not [nil]. *)
Record Server := mkServer {
  service : option ServiceEntry;
  ipv4conn : bool;
  ipv6conn : bool;
  ifaces : list Interface;
  ttl : Z
}.

Definition set_service (e : ServiceEntry) (s : Server) : Server :=
  mkServer (Some e) (ipv4conn s) (ipv6conn s) (ifaces s) (ttl s).

Definition newServer (h : Host) (ifaces : list Interface) (opts : serverOpts)
  : result Server :=
  let ok4 := joinUdp4Multicast h ifaces in
  let ok6 := joinUdp6Multicast h ifaces in
  if negb ok4 && negb ok6 then Error "no supported interface"
  else Ok (mkServer None ok4 ok6 ifaces (opt_ttl opts)).

(** [addrsForInterface]: the addresses of an interface, loopback left
    out, link-local IPv6 only when there is no global one.  An address
    that has no 4-byte form is taken to have a 16-byte form. *)
Definition addrsForInterface (iface : Interface) : list IP * list IP :=
  let '(v4, v6, v6local) :=
    fold_left
      (fun '(v4, v6, v6local) address =>
         match address with
         | IPNet ip =>
           if negb (IsLoopback ip) then
             if To4_ok ip then (v4 ++ [ip], v6, v6local)
             else if IsGlobalUnicast ip then (v4, v6 ++ [ip], v6local)
             else if IsLinkLocalUnicast ip then (v4, v6, v6local ++ [ip])
             else (v4, v6, v6local)
           else (v4, v6, v6local)
         | OtherAddr => (v4, v6, v6local)
         end)
      (Addrs iface) ([], [], []) in
  (v4, match v6 with [] => v6local | _ => v6 end).

(** The part of [Register] and [RegisterProxy] that makes the host name. *)
Definition qualify_host (entry : ServiceEntry) : ServiceEntry :=
  if negb (GoString.HasSuffix (trimDot (HostName entry)) (Domain entry))
  then set_HostName (trimDot (HostName entry) +:+ "." +:+ trimDot (Domain entry) +:+ ".") entry
  else entry.

(** [Register]: takes the system's host name and the addresses of the
    interfaces.  [start] only launches the receive loops and the probe
    task, so the returned server is the state they start from. *)
Definition Register (h : Host) (instance service domain : string) (port : Z)
    (text : list string) (ifaces : list Interface)
    (opts : list (option ServerOption)) : result Server :=
  let entry := newServiceEntry instance service domain in
  let entry := set_Port port entry in
  let entry := set_Text text entry in
  if String.eqb (Instance entry) "" then Error "missing service instance name"
  else if String.eqb (Service entry) "" then Error "missing service name"
  else
    let entry := if String.eqb (Domain entry) "" then set_Domain "local." entry else entry in
    if Port entry =? 0 then Error "missing port"
    else
      let host :=
        if String.eqb (HostName entry) "" then os_Hostname h else Some (HostName entry) in
      match host with
      | None => Error "could not determine host"
      | Some hn =>
        let entry := qualify_host (set_HostName hn entry) in
        let ifaces := match ifaces with [] => listMulticastInterfaces h | _ => ifaces end in
        let entry :=
          fold_left
            (fun e iface =>
               let '(v4, v6) := addrsForInterface iface in
               set_AddrIPv6 (AddrIPv6 e ++ v6) (set_AddrIPv4 (AddrIPv4 e ++ v4) e))
            ifaces entry in
        match AddrIPv4 entry, AddrIPv6 entry with
        | [], [] => Error "could not determine host IP addresses"
        | _, _ =>
          match newServer h ifaces (applyServerOpts opts) with
          | Error e => Error e
          | Ok s => Ok (set_service entry s)
          end
        end
      end.

(** The loop of [RegisterProxy] over the given addresses.  A parsed
    address that has no 4-byte form has a 16-byte form, so the last
    error of the loop cannot occur. *)
Fixpoint add_ips (h : Host) (ips : list string) (entry : ServiceEntry)
  : result ServiceEntry :=
  match ips with
  | [] => Ok entry
  | ip :: rest =>
    match ParseIP h ip with
    | None => Error ("failed to parse given IP: " +:+ ip)
    | Some ipAddr =>
      if To4_ok ipAddr
      then add_ips h rest (set_AddrIPv4 (AddrIPv4 entry ++ [ipAddr]) entry)
      else add_ips h rest (set_AddrIPv6 (AddrIPv6 entry ++ [ipAddr]) entry)
    end
  end.

(** [RegisterProxy]: skips the host name and address lookup and uses
    the provided values. *)
Definition RegisterProxy (h : Host) (instance service domain : string) (port : Z)
    (host : string) (ips : list string) (text : list string)
    (ifaces : list Interface) (opts : list (option ServerOption)) : result Server :=
  let entry := newServiceEntry instance service domain in
  let entry := set_Port port entry in
  let entry := set_Text text entry in
  let entry := set_HostName host entry in
  if String.eqb (Instance entry) "" then Error "missing service instance name"
  else if String.eqb (Service entry) "" then Error "missing service name"
  else if String.eqb (HostName entry) "" then Error "missing host name"
  else
    let entry := if String.eqb (Domain entry) "" then set_Domain "local" entry else entry in
    if Port entry =? 0 then Error "missing port"
    else
      let entry := qualify_host entry in
      match add_ips h ips entry with
      | Error e => Error e
      | Ok entry =>
        let ifaces := match ifaces with [] => listMulticastInterfaces h | _ => ifaces end in
        match newServer h ifaces (applyServerOpts opts) with
        | Error e => Error e
        | Ok s => Ok (set_service entry s)
        end
      end.

(** What the responder hands to the transport: the call, its message
    and its arguments.  Packing and the sockets are outside. *)
Inductive Send :=
| unicastResponse (resp : Msg) (ifIndex : Z) (from : string)
| multicastResponse (msg : Msg) (ifIndex : Z).

Definition isUnicastQuestion (q : Question) : bool :=
  negb (Z.land (Qclass q) qClassCacheFlush =? 0).

Section WithService.
(** The receiver [s] and the entry [s.service] points to. *)
Variable h : Host.
Variable s : Server.
Variable svc : ServiceEntry.

Definition appendAddrs (rrs : list RR) (ttl : Z) (ifIndex : Z) (flushCache : bool)
  : list RR :=
  let v4 := AddrIPv4 svc in
  let v6 := AddrIPv6 svc in
  let '(v4, v6) :=
    match v4, v6 with
    | [], [] =>
      match InterfaceByIndex h ifIndex with
      | Some iface =>
        let '(a4, a6) := addrsForInterface iface in (v4 ++ a4, v6 ++ a6)
      | None => (v4, v6)
      end
    | _, _ => (v4, v6)
    end in
  (* RFC6762 Section 10 says A/AAAA records SHOULD use TTL of 120s *)
  let ttl := if ttl >? 0 then 120 else ttl in
  let cacheFlushBit := if flushCache then qClassCacheFlush else 0 in
  let rrs :=
    fold_left
      (fun rrs ipv4 =>
         rrs ++ [A (mkHdr (HostName svc) TypeA (Z.lor ClassINET cacheFlushBit) ttl) ipv4])
      v4 rrs in
  fold_left
    (fun rrs ipv6 =>
       rrs ++ [AAAA (mkHdr (HostName svc) TypeAAAA (Z.lor ClassINET cacheFlushBit) ttl) ipv6])
    v6 rrs.

Definition composeBrowsingAnswers (resp : Msg) (ifIndex : Z) : Msg :=
  let ptr := PTR (mkHdr (ServiceName svc) TypePTR ClassINET (ttl s))
                 (ServiceInstanceName svc) in
  let resp := set_Answer (Answer resp ++ [ptr]) resp in
  let txt := TXT (mkHdr (ServiceInstanceName svc) TypeTXT ClassINET (ttl s))
                 (TxtRecords svc) in
  let srv := SRV (mkHdr (ServiceInstanceName svc) TypeSRV ClassINET (ttl s))
                 0 0 (Port svc mod 65536) (HostName svc) in
  let resp := set_Extra (Extra resp ++ [srv; txt]) resp in
  set_Extra (appendAddrs (Extra resp) (ttl s) ifIndex false) resp.

Definition composeLookupAnswers (resp : Msg) (ttl : Z) (ifIndex : Z)
    (flushCache : bool) : Msg :=
  let ptr := PTR (mkHdr (ServiceName svc) TypePTR ClassINET ttl)
                 (ServiceInstanceName svc) in
  let srv := SRV (mkHdr (ServiceInstanceName svc) TypeSRV
                        (Z.lor ClassINET qClassCacheFlush) ttl)
                 0 0 (Port svc mod 65536) (HostName svc) in
  let txt := TXT (mkHdr (ServiceInstanceName svc) TypeTXT
                        (Z.lor ClassINET qClassCacheFlush) ttl)
                 (TxtRecords svc) in
  let dnssd := PTR (mkHdr (ServiceTypeName svc) TypePTR ClassINET ttl)
                   (ServiceName svc) in
  let resp := set_Answer (Answer resp ++ [srv; txt; ptr; dnssd]) resp in
  let resp :=
    fold_left
      (fun resp subtype =>
         set_Answer
           (Answer resp ++ [PTR (mkHdr subtype TypePTR ClassINET ttl)
                                (ServiceInstanceName svc)])
           resp)
      (Subtypes svc) resp in
  set_Answer (appendAddrs (Answer resp) ttl ifIndex flushCache) resp.

Definition serviceTypeName (resp : Msg) (ttl : Z) : Msg :=
  let dnssd := PTR (mkHdr (ServiceTypeName svc) TypePTR ClassINET ttl)
                   (ServiceName svc) in
  set_Answer (Answer resp ++ [dnssd]) resp.

End WithService.

(** RFC6762 7.1. Known-Answer Suppression.  The codec builds a record's
    Go type from the type code of its header, so the type assertion
    of [known] to a PTR record holds for every record that passed the
    type test; a record it would not hold for is passed over here. *)
Definition isKnownAnswer (resp query : Msg) : bool :=
  match Answer resp, Answer query with
  | [], _ => false
  | _, [] => false
  | first :: _, knowns =>
    if negb (Rrtype (Header first) =? TypePTR) then false
    else
      match first with
      | PTR answer_Hdr answer_Ptr =>
        existsb
          (fun known =>
             let hdr := Header known in
             if negb (Rrtype hdr =? Rrtype answer_Hdr) then false
             else match known with
                  | PTR _ ptr_Ptr =>
                    String.eqb ptr_Ptr answer_Ptr && (Ttl hdr >=? Ttl answer_Hdr / 2)
                  | _ => false
                  end)
          knowns
      | _ => false
      end
  end.

Definition suppress_known (resp query : Msg) : Msg :=
  if isKnownAnswer resp query then set_Answer [] resp else resp.

(** The [default] case of [handleQuestion]: the first subtype whose
    name matches answers, and the loop ends there. *)
Fixpoint handleSubtypes (h : Host) (s : Server) (svc : ServiceEntry)
    (subtypes : list string) (q : Question) (resp query : Msg) (ifIndex : Z) : Msg :=
  match subtypes with
  | [] => resp
  | subtype :: rest =>
    let subtype := subtype +:+ "._sub." +:+ ServiceName svc in
    if String.eqb (Qname q) subtype
    then suppress_known (composeBrowsingAnswers h s svc resp ifIndex) query
    else handleSubtypes h s svc rest q resp query ifIndex
  end.

(** [handleQuestion] handles one incoming question; its error is always
    [nil]. *)
Definition handleQuestion (h : Host) (s : Server) (q : Question) (resp query : Msg)
    (ifIndex : Z) : Msg :=
  match service s with
  | None => resp
  | Some svc =>
    if String.eqb (Qname q) (ServiceTypeName svc)
    then suppress_known (serviceTypeName svc resp (ttl s)) query
    else if String.eqb (Qname q) (ServiceName svc)
    then suppress_known (composeBrowsingAnswers h s svc resp ifIndex) query
    else if String.eqb (Qname q) (ServiceInstanceName svc)
    then composeLookupAnswers h svc resp (ttl s) ifIndex false
    else handleSubtypes h s svc (Subtypes svc) q resp query ifIndex
  end.

(** The response [handleQuery] prepares for a question, before
    [handleQuestion] fills it. *)
Definition blank_reply (query : Msg) : Msg :=
  let resp := SetReply query zero in
  let resp := set_Compress true resp in
  let resp := set_RecursionDesired false resp in
  let resp := set_Authoritative true resp in
  let resp := set_Question [] resp in
  let resp := set_Answer [] resp in
  set_Extra [] resp.

(** One turn of the loop of [handleQuery] over the questions. *)
Definition answerQuestion (h : Host) (s : Server) (query : Msg) (ifIndex : Z)
    (from : string) (q : Question) : list Send :=
  let resp := handleQuestion h s q (blank_reply query) query ifIndex in
  match Answer resp with
  | [] => []
  | _ =>
    if isUnicastQuestion q
    then [unicastResponse resp ifIndex from]
    else [multicastResponse resp ifIndex]
  end.

(** [handleQuery]: a query with an authority section is ignored. *)
Definition handleQuery (h : Host) (s : Server) (query : Msg) (ifIndex : Z)
    (from : string) : list Send :=
  match Ns query with
  | _ :: _ => []
  | [] => flat_map (answerQuestion h s query ifIndex from) (Questions query)
  end.

(** The probe message: a question for the instance name with the
    proposed SRV and TXT in the authority section. *)
Definition probe_query (s : Server) (svc : ServiceEntry) (id : Z) : Msg :=
  let q := SetQuestion id (ServiceInstanceName svc) TypePTR zero in
  let q := set_RecursionDesired false q in
  let srv := SRV (mkHdr (ServiceInstanceName svc) TypeSRV ClassINET (ttl s))
                 0 0 (Port svc mod 65536) (HostName svc) in
  let txt := TXT (mkHdr (ServiceInstanceName svc) TypeTXT ClassINET (ttl s))
                 (TxtRecords svc) in
  set_Ns [srv; txt] q.

(** The unsolicited response [probe] composes for one interface. *)
Definition announcement (h : Host) (s : Server) (svc : ServiceEntry)
    (intf : Interface) : Msg :=
  let resp := set_Response true zero in
  let resp := set_Compress true resp in
  let resp := set_Answer [] resp in
  let resp := set_Extra [] resp in
  composeLookupAnswers h svc resp (ttl s) (Index intf) true.

(** [probe], run to its end (no shutdown in between): three probes,
    then [multicastRepetitions] rounds of one announcement per
    interface.  The waits between the sends are left out. *)
Definition probe (h : Host) (s : Server) (svc : ServiceEntry) (id : Z) : list Send :=
  repeat (multicastResponse (probe_query s svc id) 0) 3
  ++ List.concat
       (repeat
          (map (fun intf => multicastResponse (announcement h s svc intf) (Index intf))
               (ifaces s))
          multicastRepetitions).

(** [announceText] sends a text announcement. *)
Definition announceText (h : Host) (s : Server) (svc : ServiceEntry) : Send :=
  let resp := set_Response true zero in
  multicastResponse (composeBrowsingAnswers h s svc resp 0) 0.

(** [SetText] updates and announces the TXT records. *)
Definition SetText (h : Host) (s : Server) (svc : ServiceEntry) (text : list string)
  : Server * Send :=
  let svc := set_Text text svc in
  (set_service svc s, announceText h s svc).

Definition unregister (h : Host) (s : Server) (svc : ServiceEntry) : Send :=
  let resp := set_Response true zero in
  let resp := set_Answer [] resp in
  let resp := set_Extra [] resp in
  multicastResponse (composeLookupAnswers h svc resp 0 0 true) 0.

(** [parsePacket] unpacks an incoming packet and handles the query. *)
Definition parsePacket (h : Host) (s : Server) (unpack : Codec) (packet : Packet)
    (ifIndex : Z) (from : string) : list Send :=
  match unpack packet with
  | None => []
  | Some msg => handleQuery h s msg ifIndex from
  end.

(** One turn of a receive loop of the server: whether [shouldShutdown]
    is closed when the [select] looks at it, and what [ReadFrom] returns
    when the loop gets to read. *)
Record Turn := mkTurn {
  shutdown_closed : bool;
  read : ReadResult
}.

(** [recv4] over the turns the environment offers; [c] is [false] for a
    [nil] connection.  The result is what the handled packets made the
    responder send.  When the turns run out the loop is still reading. *)
Fixpoint recv4 (h : Host) (s : Server) (unpack : Codec) (c : bool) (turns : list Turn)
  : list Send :=
  if negb c then []
  else
    match turns with
    | [] => []
    | t :: rest =>
      if shutdown_closed t then []
      else
        match read t with
        | ReadErr _ => recv4 h s unpack c rest
        | ReadOk packet cm from =>
          let ifIndex := match cm with Some i => i | None => 0 end in
          parsePacket h s unpack packet ifIndex from ++ recv4 h s unpack c rest
        end
    end.

(** [recv6], the same loop on the IPv6 connection. *)
Fixpoint recv6 (h : Host) (s : Server) (unpack : Codec) (c : bool) (turns : list Turn)
  : list Send :=
  if negb c then []
  else
    match turns with
    | [] => []
    | t :: rest =>
      if shutdown_closed t then []
      else
        match read t with
        | ReadErr _ => recv6 h s unpack c rest
        | ReadOk packet cm from =>
          let ifIndex := match cm with Some i => i | None => 0 end in
          parsePacket h s unpack packet ifIndex from ++ recv6 h s unpack c rest
        end
    end.

End Responder.

(* ===================================================================== *)
(** ** client.go: the resolver *)
(* ===================================================================== *)

Module Resolver.
Import Dns.

(** A [time.Duration] counts nanoseconds. *)
Definition Second : Z := 1000000000.
Definition Minute : Z := 60 * Second.

(** Modelled from the spec: [lookupParams], of the absent service.go: the
    service type, the domain, the instance (empty when browsing), the
    subtypes and the browsing flag.  The subscriber channel [Entries] is
    the list of deliveries the loop produces. *)
Record lookupParams := mkParams {
  params_Instance : string;
  params_Service : string;
  params_Domain : string;
  params_Subtypes : list string;
  isBrowsing : bool
}.

Definition params_ServiceName (params : lookupParams) : string :=
  ServiceName_of (params_Service params) (params_Domain params).

Definition params_ServiceInstanceName (params : lookupParams) : string :=
  ServiceInstanceName_of (params_Instance params) (params_Service params)
                         (params_Domain params).

(** [entries[k]] is a pointer: an assignment to a field of it updates
    the entry in the map. *)
Definition stamp (now : Z) (hdr : RR_Header) (k : string)
    (entries : gmap string ServiceEntry) : gmap string ServiceEntry :=
  let entries := alter (set_Expiry (now + Ttl hdr * Second)) k entries in
  (* Cache Flush takes most significant bit of class. *)
  alter (set_CacheFlush (Class hdr >? 32768)) k entries.

(** [if _, found := entries[k]; !found { entries[k] = newServiceEntry(...) }] *)
Definition ensure (k instance : string) (params : lookupParams)
    (entries : gmap string ServiceEntry) : gmap string ServiceEntry :=
  match entries !! k with
  | Some _ => entries
  | None => <[k := newServiceEntry instance (params_Service params) (params_Domain params)]>
              entries
  end.

(** The first round over the sections of a message: PTR, SRV and TXT. *)
Definition fuse_record (params : lookupParams) (now : Z)
    (entries : gmap string ServiceEntry) (answer : RR) : gmap string ServiceEntry :=
  match answer with
  | PTR hdr ptr =>
    if negb (String.eqb (params_ServiceName params) (Name hdr)) then entries
    else if negb (String.eqb (params_ServiceInstanceName params) "")
            && negb (String.eqb (params_ServiceInstanceName params) ptr) then entries
    else
      let entries :=
        ensure ptr (trimDot (GoString.Replace_with_empty ptr (Name hdr) None)) params entries in
      stamp now hdr ptr entries
  | SRV hdr _ _ port target =>
    if negb (String.eqb (params_ServiceInstanceName params) "")
       && negb (String.eqb (params_ServiceInstanceName params) (Name hdr)) then entries
    else if negb (GoString.HasSuffix (Name hdr) (params_ServiceName params)) then entries
    else
      let entries :=
        ensure (Name hdr)
               (trimDot (GoString.Replace_with_empty (Name hdr) (params_ServiceName params)
                                                     (Some 1%nat)))
               params entries in
      let entries := alter (set_HostName target) (Name hdr) entries in
      let entries := alter (set_Port port) (Name hdr) entries in
      stamp now hdr (Name hdr) entries
  | TXT hdr txt =>
    if negb (String.eqb (params_ServiceInstanceName params) "")
       && negb (String.eqb (params_ServiceInstanceName params) (Name hdr)) then entries
    else if negb (GoString.HasSuffix (Name hdr) (params_ServiceName params)) then entries
    else
      let entries :=
        ensure (Name hdr)
               (trimDot (GoString.Replace_with_empty (Name hdr) (params_ServiceName params)
                                                     (Some 1%nat)))
               params entries in
      let entries := alter (set_Text txt) (Name hdr) entries in
      stamp now hdr (Name hdr) entries
  | _ => entries
  end.

(** The second round: addresses go to every entry of that host name. *)
Definition fuse_address (entries : gmap string ServiceEntry) (answer : RR)
  : gmap string ServiceEntry :=
  match answer with
  | A hdr a =>
    (fun e => if String.eqb (HostName e) (Name hdr)
              then set_AddrIPv4 (AddrIPv4 e ++ [a]) e else e) <$> entries
  | AAAA hdr aaaa =>
    (fun e => if String.eqb (HostName e) (Name hdr)
              then set_AddrIPv6 (AddrIPv6 e ++ [aaaa]) e else e) <$> entries
  | _ => entries
  end.

Definition sections (msg : Msg) : list RR := (Answer msg ++ Ns msg) ++ Extra msg.

(** The entries a message yields. *)
Definition fuse (params : lookupParams) (now : Z) (msg : Msg) : gmap string ServiceEntry :=
  let entries := fold_left (fuse_record params now) (sections msg) ∅ in
  fold_left fuse_address (sections msg) entries.

(** One turn of the loop that submits the entries: the delivered entries
    sent so far and the entries already sent. *)
Definition submit (now : Z) (st : list ServiceEntry * gmap string ServiceEntry)
    (ke : string * ServiceEntry) : list ServiceEntry * gmap string ServiceEntry :=
  let '(delivered, sentEntries) := st in
  let '(k, e) := ke in
  if negb (Expiry e >? now) then (delivered, delete k sentEntries)
  else
    let skip :=
      match sentEntries !! k with
      | Some entry =>
        (* Only send an entry update if it expires in less than 1 minute *)
        negb (Expiry e >? Expiry entry - Minute) && negb (CacheFlush e)
      | None => false
      end in
    if skip then (delivered, sentEntries)
    else (delivered ++ [e], <[k := e]> sentEntries).

(** The message case of [mainloop] at time [now]: the entries delivered
    to the subscriber, in the order of the walk over the map (Go leaves
    that order open; [map_to_list] fixes one), and the new [sentEntries]. *)
Definition on_message (params : lookupParams) (now : Z) (msg : Msg)
    (sentEntries : gmap string ServiceEntry)
  : list ServiceEntry * gmap string ServiceEntry :=
  fold_left (submit now) (map_to_list (fuse params now msg)) ([], sentEntries).



(** One turn of the receive loop of the client: whether the context has
    ended when the loop looks at it, what the read returns, and whether
    the final [select] takes [ctx.Done()] instead of the send. *)
Record ClientTurn := mkClientTurn {
  ctx_ended : bool;
  client_read : ReadResult;
  done_first : bool
}.

(** The loop of [recv]; [fatalErr] is its variable of that name.  The
    result is what is sent on [msgCh]. *)
Fixpoint recv_loop (unpack : Codec) (turns : list ClientTurn) (fatalErr : option string)
  : list Msg :=
  match turns with
  | [] => []
  | t :: rest =>
    if ctx_ended t || bool_decide (is_Some fatalErr) then []
    else
      match client_read t with
      | ReadErr err => recv_loop unpack rest (Some err)
      | ReadOk packet _ _ =>
        match unpack packet with
        | None => recv_loop unpack rest fatalErr
        | Some msg => if done_first t then [] else msg :: recv_loop unpack rest fatalErr
        end
      end
  end.

(** The connection handed to [recv]. *)
Inductive Conn :=
| PacketConn4
| PacketConn6
| OtherConn.

(** [recv] reads from the connection, unpacks the packets and sends them
    to [msgCh]. *)
Definition recv (unpack : Codec) (l : Conn) (turns : list ClientTurn) : list Msg :=
  match l with
  | OtherConn => []
  | _ => recv_loop unpack turns None
  end.

End Resolver.

(* ===================================================================== *)
(** ** client.go: options, construction and the query *)
(* ===================================================================== *)

Module ResolverSetup.
Import Dns Resolver.

(** [IPType] specifies the IP traffic the client listens for. *)
Definition IPv4 : Z := 0x01.
Definition IPv6 : Z := 0x02.
Definition IPv4AndIPv6 : Z := Z.lor IPv4 IPv6.      (* default option *)

Record clientOpts := mkClientOpts {
  listenOn : Z;
  opt_ifaces : list Interface
}.

(** A [ClientOption] fills the option struct. *)
Definition ClientOption := clientOpts -> clientOpts.

Definition SelectIPTraffic (t : Z) : ClientOption :=
  fun o => mkClientOpts t (opt_ifaces o).

Definition SelectIfaces (ifaces : list Interface) : ClientOption :=
  fun o => mkClientOpts (listenOn o) ifaces.

Definition applyOpts (options : list (option ClientOption)) : clientOpts :=
  fold_left (fun conf o => match o with Some f => f conf | None => conf end)
            options (mkClientOpts IPv4AndIPv6 []).

(** The [client] structure; a connection is [true] when it is not [nil]. *)
Record client := mkClient {
  client_ipv4conn : bool;
  client_ipv6conn : bool;
  client_ifaces : list Interface
}.

(** [newClient]: joins the multicast group of each family listened on;
    the error of a failed join (its text is the transport's) ends the
    construction. *)
Definition newClient (h : Host) (opts : clientOpts) : result client :=
  let ifaces :=
    match opt_ifaces opts with
    | [] => listMulticastInterfaces h
    | l => l
    end in
  let want4 := Z.land (listenOn opts) IPv4 >? 0 in
  let want6 := Z.land (listenOn opts) IPv6 >? 0 in
  if want4 && negb (joinUdp4Multicast h ifaces) then Error "udp4: failed to join"
  else if want6 && negb (joinUdp6Multicast h ifaces) then Error "udp6: failed to join"
  else Ok (mkClient want4 want6 ifaces).

(** The message [query] packs and sends: a lookup of the instance when
    there is one, else a browse of the first subtype when there is one,
    else a browse of the service.  [id] is the id [SetQuestion] draws. *)
Definition query (params : lookupParams) (id : Z) : Msg :=
  let serviceName :=
    trimDot (params_Service params) +:+ "." +:+ trimDot (params_Domain params) +:+ "." in
  let m := zero in
  let m :=
    if negb (String.eqb (params_Instance params) "") then
      let serviceInstanceName := params_Instance params +:+ "." +:+ serviceName in
      set_Question [mkQuestion serviceInstanceName TypeSRV ClassINET;
                    mkQuestion serviceInstanceName TypeTXT ClassINET;
                    mkQuestion serviceInstanceName TypeANY ClassINET] m
    else
      match params_Subtypes params with
      | subtype :: _ => SetQuestion id subtype TypePTR m
      | [] => SetQuestion id serviceName TypePTR m
      end in
  set_RecursionDesired false m.

End ResolverSetup.

(* ===================================================================== *)
(** ** The vocabulary of the properties *)
(* ===================================================================== *)

(** Predicates and sample inputs for the facts about [chunks]. *)
Module ChunksProps.
Import GoString Chunks.

(** The offsets of a [range] loop never go backwards. *)
Fixpoint ascending (lo : nat) (l : list nat) : Prop :=
  match l with
  | [] => True
  | i :: l' => (lo <= i)%nat /\ ascending i l'
  end.

(** Every byte below 0x80. *)
Fixpoint is_ascii (s : string) : bool :=
  match s with
  | EmptyString => true
  | String c r => (byte_val c <? 0x80) && is_ascii r
  end.

(** [n] copies of [s] in a row. *)
Fixpoint replicate_string (n : nat) (s : string) : string :=
  match n with
  | O => EmptyString
  | S n' => s +:+ replicate_string n' s
  end.

(** U+00E9, a two-byte rune: the bytes 0xC3 0xA9. *)
Definition e_acute : string :=
  String (ascii_of_nat 195) (String (ascii_of_nat 169) EmptyString).

(** A TXT value of 128 two-byte runes, 256 bytes. *)
Definition accented_256 : string := replicate_string 128 e_acute.

End ChunksProps.

(** Predicates and sample inputs for the facts about the messages of the
    responder. *)
Module ResponderProps.
Import Dns Responder.

(** The cache-flush bit of a record: the top bit of its class. *)
Definition cache_flush (rr : RR) : bool :=
  negb (Z.land (Class (Header rr)) 0x8000 =? 0).

Definition is_PTR (rr : RR) : bool :=
  match rr with PTR _ _ => true | _ => false end.
Definition is_SRV (rr : RR) : bool :=
  match rr with SRV _ _ _ _ _ => true | _ => false end.
Definition is_TXT (rr : RR) : bool :=
  match rr with TXT _ _ => true | _ => false end.
Definition is_address (rr : RR) : bool :=
  match rr with A _ _ | AAAA _ _ => true | _ => false end.

(** Every record of a message, section after section. *)
Definition records (m : Msg) : list RR := Answer m ++ Ns m ++ Extra m.

Definition message (e : Send) : Msg :=
  match e with
  | unicastResponse m _ _ => m
  | multicastResponse m _ => m
  end.

(** The shape of the records the composers make: PTR records of class
    IN, SRV and TXT of class [unique], addresses of class [addr]; the
    addresses with TTL [addr_ttl], the others with TTL [t]; and the
    type code of the header agreeing with the record. *)
Definition shaped (t addr_ttl unique addr : Z) (rr : RR) : Prop :=
  match rr with
  | PTR hd _ => Ttl hd = t /\ Class hd = ClassINET /\ Rrtype hd = TypePTR
  | SRV hd _ _ _ _ => Ttl hd = t /\ Class hd = unique /\ Rrtype hd = TypeSRV
  | TXT hd _ => Ttl hd = t /\ Class hd = unique /\ Rrtype hd = TypeTXT
  | A hd _ => Ttl hd = addr_ttl /\ Class hd = addr /\ Rrtype hd = TypeA
  | AAAA hd _ => Ttl hd = addr_ttl /\ Class hd = addr /\ Rrtype hd = TypeAAAA
  | RFC3597 _ => False
  end.

(** The TTL [appendAddrs] writes. *)
Definition address_ttl (t : Z) : Z := if t >? 0 then 120 else t.

(** The class [appendAddrs] writes. *)
Definition address_class (flushCache : bool) : Z :=
  Z.lor ClassINET (if flushCache then qClassCacheFlush else 0).

Definition unique_class : Z := Z.lor ClassINET qClassCacheFlush.

(** A host with one interface, and a printer published on it. *)
Definition lan_ip : IP := mkIP "192.168.1.10" true false true false.
Definition eth0 : Interface := mkInterface 2 "eth0" [IPNet lan_ip].
Definition office : Host :=
  mkHost (Some "myhost") (fun _ => None) [eth0] [eth0] (fun _ => true) (fun _ => true).

Definition printer : ServiceEntry :=
  mkEntry "Printer" "_ipp._tcp" "local" [] "myhost.local." 631 ["rp=ipp/print"]
          [lan_ip] [] 0 false.
Definition printer_server : Server := mkServer (Some printer) true true [eth0] 3200.

(** What RFC 6762 asks of a response: QR=1, AA=1, RD=0, no question. *)
Definition response_header (m : Msg) : Prop :=
  Response m = true /\ Authoritative m = true /\ RecursionDesired m = false
  /\ Questions m = [].

(** The composers leave the header bits and the questions alone. *)
Definition same_header (m m' : Msg) : Prop :=
  Response m' = Response m /\ Authoritative m' = Authoritative m
  /\ RecursionDesired m' = RecursionDesired m /\ Questions m' = Questions m.

(** Address records with TTL [addr_ttl], every other record with [t]. *)
Definition ttls (t addr_ttl : Z) (rr : RR) : Prop :=
  match rr with
  | A hd _ | AAAA hd _ => Ttl hd = addr_ttl
  | PTR hd _ | SRV hd _ _ _ _ | TXT hd _ => Ttl hd = t
  | RFC3597 _ => False
  end.

(** The TTL rule of the wire for a configured TTL [t]: a PTR, SRV or TXT
    record carries [t]; an A or AAAA record carries 120 when [t] is
    above 0, and [t] itself otherwise. *)
Definition wire_ttls (t : Z) (rr : RR) : Prop :=
  match rr with
  | A hd _ | AAAA hd _ => (0 < t -> Ttl hd = 120) /\ (t <= 0 -> Ttl hd = t)
  | PTR hd _ | SRV hd _ _ _ _ | TXT hd _ => Ttl hd = t
  | RFC3597 _ => False
  end.

(** The entry has addresses of its own. *)
Definition own_addresses (svc : ServiceEntry) : Prop :=
  AddrIPv4 svc <> [] \/ AddrIPv6 svc <> [].

(** The same record with another TTL. *)
Definition with_Ttl (t : Z) (rr : RR) : RR :=
  let re hd := mkHdr (Name hd) (Rrtype hd) (Class hd) t in
  match rr with
  | PTR hd p => PTR (re hd) p
  | SRV hd pr w po tg => SRV (re hd) pr w po tg
  | TXT hd txt => TXT (re hd) txt
  | A hd a => A (re hd) a
  | AAAA hd a => AAAA (re hd) a
  | RFC3597 hd => RFC3597 (re hd)
  end.

(** The blank message [unregister] and [probe] start from. *)
Definition blank_response : Msg :=
  set_Extra [] (set_Answer [] (set_Response true zero)).

(** A query that browses for [_ipp._tcp.local.]. *)
Definition browse_query : Msg :=
  set_Question [mkQuestion "_ipp._tcp.local." TypePTR ClassINET] zero.

(** The PTR record of the printer with 80% of its TTL left. *)
Definition known_ptr : RR :=
  PTR (mkHdr "_ipp._tcp.local." TypePTR ClassINET 2560) "Printer._ipp._tcp.local.".

(** The browse query carrying that record as a known answer. *)
Definition browse_query_known : Msg := set_Answer [known_ptr] browse_query.

(** The same question with the unicast-response bit in its qclass. *)
Definition unicast_query : Msg :=
  set_Question [mkQuestion "_ipp._tcp.local." TypePTR 0x8001] zero.

Definition unicast_question : Question := mkQuestion "_ipp._tcp.local." TypePTR 0x8001.

End ResponderProps.

(** Predicates for the facts about the host name of a registered
    service. *)
Module RegisterProps.
Import Responder.

(** The domain of the entry: the one given, or the default. *)
Definition domain_or (default domain : string) : string :=
  if String.eqb domain "" then default else domain.

(** What [qualify_host] leaves in [HostName] for a supplied host and the
    domain of the entry. *)
Definition qualified (host domain : string) : string :=
  if GoString.HasSuffix (trimDot host) domain then host
  else trimDot host +:+ "." +:+ trimDot domain +:+ ".".

(** A host whose system name already carries the domain, as
    [os.Hostname] reports it on many systems. *)
Definition dotted_office : Host :=
  mkHost (Some "myhost.local") (fun _ => None) [ResponderProps.eth0] [ResponderProps.eth0]
         (fun _ => true) (fun _ => true).

End RegisterProps.

(** Predicates and sample inputs for the facts about the deliveries of
    the resolver. *)
Module ResolverProps.
Import Dns Resolver.



(** A browser for [_ipp._tcp.local.]. *)
Definition browser : lookupParams := mkParams "" "_ipp._tcp" "local" [] true.

(** A datagram with the PTR record of the printer and nothing else. *)
Definition ptr_only : Msg :=
  set_Answer [PTR (mkHdr "_ipp._tcp.local." TypePTR ClassINET 120)
                  "Printer._ipp._tcp.local."] zero.

End ResolverProps.

(** Predicates and sample inputs for the facts about the receive loops. *)
Module ReceiveProps.
Import Dns Responder Resolver.

(** Turns without shutdown, one per read. *)
Definition running (reads : list ReadResult) : list Turn := map (mkTurn false) reads.

(** A codec that unpacks every datagram to the empty message. *)
Definition any_codec : Codec := fun _ => Some zero.

End ReceiveProps.

(** Predicates for the facts about the helpers of utils.go. *)
Module UtilsProps.
Import GoString Chunks.

Definition starts_with_dot (s : string) : bool :=
  match s with
  | String c _ => Ascii.eqb c "."%char
  | EmptyString => false
  end.

Fixpoint ends_with_dot (s : string) : bool :=
  match s with
  | EmptyString => false
  | String c EmptyString => Ascii.eqb c "."%char
  | String _ r => ends_with_dot r
  end.

(** [strings.Join(l, ",")] *)
Fixpoint Join_comma (l : list string) : string :=
  match l with
  | [] => EmptyString
  | [x] => x
  | x :: l' => x +:+ "," +:+ Join_comma l'
  end.

Fixpoint has_comma (s : string) : bool :=
  match s with
  | EmptyString => false
  | String c r => Ascii.eqb c ","%char || has_comma r
  end.

(** Offsets that go up strictly from [lo] and stay below [hi]. *)
Fixpoint climbing (lo : nat) (l : list nat) (hi : nat) : Prop :=
  match l with
  | [] => True
  | i :: l' => (lo <= i < hi)%nat /\ climbing (S i) l' hi
  end.

End UtilsProps.

(** Predicates for the facts about the construction of a responder. *)
Module ConstructionProps.
Import Responder ResponderProps.

(** The interfaces a registration works on: the ones given, or the
    multicast interfaces of the host when none is given. *)
Definition interfaces_used (h : Host) (ifaces : list Interface) : list Interface :=
  match ifaces with
  | [] => listMulticastInterfaces h
  | _ => ifaces
  end.

(** The addresses of [*net.IPNet] kind that an interface reports. *)
Definition ipnets (iface : Interface) : list IP :=
  flat_map (fun a => match a with IPNet ip => [ip] | OtherAddr => [] end) (Addrs iface).

Definition usable_v4 (ip : IP) : bool := negb (IsLoopback ip) && To4_ok ip.
Definition usable_global_v6 (ip : IP) : bool :=
  negb (IsLoopback ip) && negb (To4_ok ip) && IsGlobalUnicast ip.
Definition usable_local_v6 (ip : IP) : bool :=
  negb (IsLoopback ip) && negb (To4_ok ip) && negb (IsGlobalUnicast ip)
  && IsLinkLocalUnicast ip.

(** The printer published as a proxy, without addresses of its own. *)
Definition proxy : ServiceEntry :=
  mkEntry "Printer" "_ipp._tcp" "local" [] "myhost.local." 631 ["rp=ipp/print"]
          [] [] 0 false.
Definition proxy_server : Server := mkServer (Some proxy) true true [eth0] 3200.

End ConstructionProps.

(** Predicates for the facts about the answers of the responder. *)
Module AnswerProps.
Import Dns Responder ResponderProps.

(** One A record per IPv4 address, then one AAAA record per IPv6
    address, all owned by [name]. *)
Definition address_records (name : string) (t : Z) (flushCache : bool)
    (v4 v6 : list IP) : list RR :=
  map (A (mkHdr name TypeA (address_class flushCache) (address_ttl t))) v4
  ++ map (AAAA (mkHdr name TypeAAAA (address_class flushCache) (address_ttl t))) v6.

(** [resp'] is [resp] with other Answer and Extra sections. *)
Definition sections_changed (resp resp' : Msg) : Prop :=
  exists answer extra, resp' = set_Extra extra (set_Answer answer resp).

(** Where a send goes: the interface index, and the peer of a unicast. *)
Definition sent_on (ifIndex : Z) (from : string) (e : Send) : Prop :=
  match e with
  | unicastResponse _ i f => i = ifIndex /\ f = from
  | multicastResponse _ i => i = ifIndex
  end.

(** The names the responder answers for. *)
Definition answered_names (svc : ServiceEntry) : list string :=
  [ServiceTypeName svc; ServiceName svc; ServiceInstanceName svc]
  ++ map (fun subtype => subtype +:+ "._sub." +:+ ServiceName svc) (Subtypes svc).

(** The response of the printer to the browse query that came in on
    eth0. *)
Definition browse_reply : Send :=
  multicastResponse
    (handleQuestion office printer_server (mkQuestion "_ipp._tcp.local." TypePTR ClassINET)
                    (blank_reply browse_query) browse_query 2)
    2.

(** A lookup of the printer that carries the printer's PTR record as a
    known answer. *)
Definition lookup_question : Question :=
  mkQuestion "Printer._ipp._tcp.local." TypeSRV ClassINET.
Definition lookup_query_known : Msg :=
  set_Answer [known_ptr] (set_Question [lookup_question] zero).

(** The addresses [appendAddrs] uses: those of the entry when it has
    any, else those of the interface of that index, if there is one. *)
Definition address_source (h : Host) (svc : ServiceEntry) (ifIndex : Z)
  : list IP * list IP :=
  match AddrIPv4 svc, AddrIPv6 svc with
  | [], [] =>
    match InterfaceByIndex h ifIndex with
    | Some iface => addrsForInterface iface
    | None => ([], [])
    end
  | v4, v6 => (v4, v6)
  end.

End AnswerProps.

(** Predicates for the facts about what the resolver submits. *)
Module DeliveryProps.
Import Dns Resolver.

(** The entry [e] fused under the key [k] is held back as a repetition
    of what was sent for [k]: it expires a minute or more before the
    entry sent and brings no cache flush. *)
Definition held_back (sentEntries : gmap string ServiceEntry) (k : string)
    (e : ServiceEntry) : bool :=
  match sentEntries !! k with
  | Some entry => negb (Expiry e >? Expiry entry - Minute) && negb (CacheFlush e)
  | None => false
  end.

(** The entry is submitted: it has not expired and is not held back. *)
Definition deliverable (now : Z) (sentEntries : gmap string ServiceEntry)
    (ke : string * ServiceEntry) : bool :=
  (Expiry (snd ke) >? now) && negb (held_back sentEntries (fst ke) (snd ke)).

(** What [sentEntries] holds for [k] after the entry [e] of a datagram
    was looked at: nothing when it has expired, what it held when the
    entry is held back, the entry itself when it is submitted. *)
Definition remembered (now : Z) (sentEntries : gmap string ServiceEntry) (k : string)
    (e : ServiceEntry) : option ServiceEntry :=
  if negb (Expiry e >? now) then None
  else if held_back sentEntries k e then sentEntries !! k
  else Some e.

(** The entry a browser fuses from a PTR, an SRV and a TXT record of
    the instance named [sin] of the service named [sn], all of TTL [t]
    and class IN, and the addresses [v4] and [v6] of the host. *)
Definition fused_entry (params : lookupParams) (now t : Z) (instance host : string)
    (port : Z) (txt : list string) (v4 v6 : list IP) : ServiceEntry :=
  let e := newServiceEntry instance (params_Service params) (params_Domain params) in
  mkEntry (Instance e) (Service e) (Domain e) (Subtypes e) host port txt v4 v6
          (now + t * Second) false.

(** A record the resolver has no use for: a PTR record of another
    service or, when an instance is looked up, for another instance; an
    SRV or TXT record whose owner is not in the service or, when an
    instance is looked up, is another instance.  Address records bind to
    entries only, so alone they are of no use either. *)
Definition foreign (params : lookupParams) (rr : RR) : Prop :=
  match rr with
  | PTR hdr ptr =>
    Name hdr <> params_ServiceName params
    \/ (params_ServiceInstanceName params <> EmptyString
        /\ params_ServiceInstanceName params <> ptr)
  | SRV hdr _ _ _ _ | TXT hdr _ =>
    GoString.HasSuffix (Name hdr) (params_ServiceName params) = false
    \/ (params_ServiceInstanceName params <> EmptyString
        /\ params_ServiceInstanceName params <> Name hdr)
  | _ => True
  end.

(** The parameters of a lookup of the instance [Printer]. *)
Definition seeker : lookupParams := mkParams "Printer" "_ipp._tcp" "local" [] false.

(** A datagram of a peer that publishes [_http._tcp]. *)
Definition http_datagram : Msg :=
  set_Extra [A (mkHdr "web.local." TypeA ClassINET 120) (mkIP "192.168.1.20" true false true false)]
    (set_Answer [PTR (mkHdr "_http._tcp.local." TypePTR ClassINET 120) "Web._http._tcp.local.";
                 SRV (mkHdr "Web._http._tcp.local." TypeSRV ClassINET 120) 0 0 80 "web.local."]
                zero).

End DeliveryProps.

(** Predicates and sample inputs for the facts about the loops and the
    construction of the client. *)
Module LoopProps.
Import Dns Responder Resolver ResolverSetup.

(** A codec that unpacks no datagram. *)
Definition no_codec : Codec := fun _ => None.

(** Options that select interfaces only. *)
Definition interface_options (selections : list (list Interface))
  : list (option ClientOption) :=
  map (fun l => Some (SelectIfaces l)) selections.

(** A host on which no IPv6 multicast group can be joined. *)
Definition v4_host : Host :=
  mkHost (Some "myhost") (fun _ => None) [] [] (fun _ => true) (fun _ => false).

End LoopProps.

(* ===================================================================== *)
(** ** Properties of [chunks] *)
(* ===================================================================== *)

Module ChunksFacts.
Import GoString Chunks ChunksProps.

Example trimDot_ex : trimDot "..a.b.."%string = "a.b"%string.
Proof. reflexivity. Qed.

Example chunks_ex : chunks "abcdefg"%string 3 = ["abc"; "def"; "g"]%string.
Proof. reflexivity. Qed.

Lemma append_cons (c : ascii) (x y : string) :
  String c x +:+ y = String c (x +:+ y).
Proof. reflexivity. Qed.

Lemma append_empty_r (s : string) : s +:+ "" = s.
Proof. induction s as [|c s IH]; [reflexivity|]. rewrite append_cons, IH. reflexivity. Qed.

Lemma append_assoc3 (x y z : string) : (x +:+ y) +:+ z = x +:+ (y +:+ z).
Proof.
  induction x as [|c x IH]; [reflexivity|].
  rewrite !append_cons, IH. reflexivity.
Qed.

Lemma substring_whole (s : string) : String.substring 0 (String.length s) s = s.
Proof. induction s as [|c s IH]; simpl; [reflexivity|]. rewrite IH. reflexivity. Qed.

Lemma slice_prefix_split (s : string) : forall a b : nat,
  (a <= b)%nat -> slice s 0 a +:+ slice s a b = slice s 0 b.
Proof.
  unfold slice. induction s as [|c s IH]; intros a b Hab.
  - destruct a, b; simpl; try reflexivity; lia.
  - destruct a as [|a].
    + rewrite Nat.sub_0_r. reflexivity.
    + destruct b as [|b]; [lia|].
      simpl. rewrite append_cons. f_equal.
      specialize (IH a b). rewrite !Nat.sub_0_r in IH.
      apply IH. lia.
Qed.

Lemma slice_prefix_rest (s : string) : forall a : nat,
  slice s 0 a +:+ slice_from s a = s.
Proof.
  unfold slice_from, slice. induction s as [|c s IH]; intros a.
  - destruct a; reflexivity.
  - destruct a as [|a].
    + rewrite !Nat.sub_0_r. change (String.substring 0 0 (String c s)) with EmptyString.
      change ("" +:+ ?x) with x. apply substring_whole.
    + simpl. rewrite append_cons. f_equal.
      specialize (IH a). rewrite Nat.sub_0_r in IH. exact IH.
Qed.

Lemma concat_all_app (l1 l2 : list string) :
  concat_all (l1 ++ l2) = concat_all l1 +:+ concat_all l2.
Proof.
  induction l1 as [|x l1 IH]; simpl; [reflexivity|].
  rewrite IH. symmetry. apply append_assoc3.
Qed.

Lemma ascending_weaken (l : list nat) : forall lo lo' : nat,
  (lo <= lo')%nat -> ascending lo' l -> ascending lo l.
Proof. destruct l; simpl; intros; [exact I|]. intuition lia. Qed.

Lemma rune_starts_from_ascending (rest : string) : forall i skip lo : nat,
  (lo <= i)%nat -> ascending lo (rune_starts_from rest i skip).
Proof.
  induction rest as [|c rest IH]; intros i skip lo Hlo; simpl; [exact I|].
  destruct skip; simpl.
  - split; [exact Hlo|]. apply IH. lia.
  - apply IH. lia.
Qed.

(** Loop invariant of [chunks]: the chunks cut so far are exactly the
    bytes before [currentStart]. *)
Lemma loop_keeps_prefix (s : string) (chunkSize : Z) (l : list nat) :
  forall st : loop_state,
    ascending (currentStart st) l ->
    concat_all (out st) = slice s 0 (currentStart st) ->
    let st' := fold_left (loop_body s chunkSize) l st in
    concat_all (out st') = slice s 0 (currentStart st').
Proof.
  induction l as [|i l IH]; intros st Hasc Hinv; simpl; [exact Hinv|].
  destruct Hasc as [Hle Hasc].
  apply IH; unfold loop_body; destruct (currentLen st =? chunkSize); simpl.
  - exact Hasc.
  - apply ascending_weaken with (lo' := i); assumption.
  - rewrite concat_all_app, Hinv. simpl. rewrite append_empty_r.
    apply slice_prefix_split. exact Hle.
  - exact Hinv.
Qed.

(** Splitting loses nothing, whatever the chunk size. *)
Lemma chunks_concat_any (s : string) (chunkSize : Z) :
  concat_all (chunks s chunkSize) = s.
Proof.
  unfold chunks.
  destruct (len s =? 0) eqn:Hlen.
  - apply Z.eqb_eq in Hlen. unfold len in Hlen.
    destruct s; [reflexivity|simpl in Hlen; lia].
  - destruct (chunkSize >=? len s); [simpl; apply append_empty_r|].
    rewrite concat_all_app.
    rewrite (loop_keeps_prefix s chunkSize (rune_starts s) (mkLoop [] 0 0)).
    + simpl. rewrite append_empty_r. apply slice_prefix_rest.
    + apply rune_starts_from_ascending. simpl. lia.
    + destruct s; reflexivity.
Qed.

(** C10: for every string [s] and every [chunkSize >= 1], joining the
    list returned by [chunks s chunkSize] in order gives back [s]. *)
Theorem chunks_concat (s : string) (chunkSize : Z) :
  chunkSize >= 1 -> concat_all (chunks s chunkSize) = s.
Proof. intros _. apply chunks_concat_any. Qed.

Lemma chunks_concat_witness :
  3 >= 1 /\ concat_all (chunks "abcdefg" 3) = "abcdefg"%string.
Proof. split; [lia | apply (chunks_concat "abcdefg" 3); lia]. Defined.

(** *** Bytes and runes *)

(** In an ASCII string every byte is a rune of its own. *)
Lemma rune_starts_ascii (rest : string) : forall i : nat,
  is_ascii rest = true -> rune_starts_from rest i 0 = seq i (String.length rest).
Proof.
  induction rest as [|c rest IH]; intros i Hasc; [reflexivity|].
  simpl in Hasc. apply andb_true_iff in Hasc. destruct Hasc as [Hc Hrest].
  cbn [rune_starts_from String.length seq]. f_equal.
  replace (rune_width (String c rest) - 1)%nat with 0%nat; [apply IH, Hrest|].
  apply Z.ltb_lt in Hc. unfold rune_width.
  destruct (Z.ltb_spec (byte_val c) 0xC2); [reflexivity|lia].
Qed.

Lemma length_substring_le (s : string) : forall a n : nat,
  (String.length (String.substring a n s) <= n)%nat.
Proof.
  induction s as [|c s IH]; intros a n.
  - destruct a, n; simpl; lia.
  - destruct a as [|a]; [destruct n as [|n]; simpl; [lia|]|simpl; apply IH].
    specialize (IH 0%nat n). lia.
Qed.

(** Over one-byte runes the counter [currentLen] is the number of bytes
    since [currentStart], and no chunk grows past [chunkSize]. *)
Lemma loop_bounds_bytes (s : string) (chunkSize : Z) (n : nat) :
  1 <= chunkSize ->
  forall (i : nat) (st : loop_state),
    (currentStart st <= i)%nat ->
    currentLen st = Z.of_nat (i - currentStart st) ->
    currentLen st <= chunkSize ->
    Forall (fun c => len c <= chunkSize) (out st) ->
    let st' := fold_left (loop_body s chunkSize) (seq i n) st in
    (currentStart st' <= i + n)%nat
    /\ currentLen st' = Z.of_nat (i + n - currentStart st')
    /\ currentLen st' <= chunkSize
    /\ Forall (fun c => len c <= chunkSize) (out st').
Proof.
  intros Hsize. induction n as [|n IH]; intros i st Hle Hlen Hmax Hout.
  - simpl. rewrite Nat.add_0_r. tauto.
  - cbn [seq fold_left].
    replace (i + S n)%nat with (S i + n)%nat by lia.
    apply IH; unfold loop_body; destruct (Z.eqb_spec (currentLen st) chunkSize) as [E|E];
      simpl; try lia.
    + apply Forall_app. split; [exact Hout|].
      constructor; [|constructor].
      unfold len, slice.
      pose proof (length_substring_le s (currentStart st) (i - currentStart st)). lia.
    + exact Hout.
Qed.

(** For a string of one-byte runes [chunks] keeps the byte bound. *)
Lemma chunks_ascii_bounded (s : string) (chunkSize : Z) :
  1 <= chunkSize -> is_ascii s = true ->
  Forall (fun c => len c <= chunkSize) (chunks s chunkSize).
Proof.
  intros Hsize Hasc. unfold chunks.
  destruct (len s =? 0); [constructor|].
  destruct (Z.geb_spec chunkSize (len s)); [constructor; [lia|constructor]|].
  unfold rune_starts. rewrite (rune_starts_ascii s 0 Hasc).
  destruct (loop_bounds_bytes s chunkSize (String.length s) Hsize 0 (mkLoop [] 0 0))
    as (Hcs & Hcl & Hmax & Hout); simpl; try lia; [constructor|].
  apply Forall_app. split; [exact Hout|].
  constructor; [|constructor].
  simpl in Hcl. unfold len, slice_from, slice.
  match goal with
  | |- context [String.substring ?a ?n s] =>
    pose proof (length_substring_le s a n)
  end.
  lia.
Qed.

(** C9: every string returned by [chunks s 255] should be at most 255
    bytes long.  The loop counts the runes of a chunk, not its bytes: a
    value of 128 two-byte runes is 256 bytes long, is never cut, and
    comes back as one chunk of 256 bytes. *)
Theorem chunks_255_oversized :
  String.length accented_256 = 256%nat
  /\ chunks accented_256 255 = [accented_256]
  /\ Exists (fun c => (255 < String.length c)%nat) (chunks accented_256 255).
Proof.
  assert (H : chunks accented_256 255 = [accented_256]) by (vm_compute; reflexivity).
  split; [vm_compute; reflexivity|]. split; [exact H|].
  rewrite H. constructor. vm_compute. lia.
Qed.

End ChunksFacts.

(* ===================================================================== *)
(** ** The names of a service *)
(* ===================================================================== *)

Example parseSubtypes_ex :
  parseSubtypes "_ipp._tcp,_a,_b" = ("_ipp._tcp", ["_a"; "_b"])%string.
Proof. reflexivity. Qed.

Example ServiceInstanceName_ex :
  ServiceInstanceName (newServiceEntry "Printer" "_ipp._tcp" "local")
  = "Printer._ipp._tcp.local."%string.
Proof. reflexivity. Qed.

(* ===================================================================== *)
(** ** What the responder puts on the wire *)
(* ===================================================================== *)

Module ResponderFacts.
Import Dns Responder ResponderProps.

Lemma fold_append_map {X Y : Type} (f : X -> Y) (xs : list X) : forall acc : list Y,
  fold_left (fun acc x => acc ++ [f x]) xs acc = acc ++ map f xs.
Proof.
  induction xs as [|x xs IH]; intros acc; simpl.
  - symmetry. apply app_nil_r.
  - rewrite IH, <- app_assoc. reflexivity.
Qed.

Lemma Forall_map_all {X Y : Type} (P : Y -> Prop) (f : X -> Y) (xs : list X) :
  (forall x, P (f x)) -> Forall P (map f xs).
Proof. intros HP. induction xs; simpl; constructor; auto. Qed.

(** [appendAddrs] only appends. *)
Lemma appendAddrs_app h svc rrs t ifIndex flushCache :
  appendAddrs h svc rrs t ifIndex flushCache
  = rrs ++ appendAddrs h svc [] t ifIndex flushCache.
Proof.
  unfold appendAddrs.
  destruct (match AddrIPv4 svc, AddrIPv6 svc with
            | [], [] =>
              match InterfaceByIndex h ifIndex with
              | Some iface =>
                let '(a4, a6) := addrsForInterface iface in
                (AddrIPv4 svc ++ a4, AddrIPv6 svc ++ a6)
              | None => (AddrIPv4 svc, AddrIPv6 svc)
              end
            | _, _ => (AddrIPv4 svc, AddrIPv6 svc)
            end) as [v4 v6].
  rewrite !fold_append_map. simpl. rewrite app_assoc. reflexivity.
Qed.

Lemma appendAddrs_shaped h svc t ifIndex flushCache (u : Z) :
  Forall (shaped t (address_ttl t) u (address_class flushCache))
         (appendAddrs h svc [] t ifIndex flushCache).
Proof.
  unfold appendAddrs.
  destruct (match AddrIPv4 svc, AddrIPv6 svc with
            | [], [] =>
              match InterfaceByIndex h ifIndex with
              | Some iface =>
                let '(a4, a6) := addrsForInterface iface in
                (AddrIPv4 svc ++ a4, AddrIPv6 svc ++ a6)
              | None => (AddrIPv4 svc, AddrIPv6 svc)
              end
            | _, _ => (AddrIPv4 svc, AddrIPv6 svc)
            end) as [v4 v6].
  rewrite !fold_append_map. simpl.
  apply Forall_app; split; apply Forall_map_all; intros ip; simpl; auto.
Qed.

(** The subtype loop of [composeLookupAnswers] touches the answers only. *)
Lemma subtype_loop_Answer (mk : string -> RR) (subs : list string) : forall resp : Msg,
  Answer (fold_left (fun resp subtype => set_Answer (Answer resp ++ [mk subtype]) resp)
                    subs resp)
  = Answer resp ++ map mk subs.
Proof.
  induction subs as [|x subs IH]; intros resp; simpl.
  - symmetry. apply app_nil_r.
  - rewrite IH. simpl. rewrite <- app_assoc. reflexivity.
Qed.

Lemma subtype_loop_rest (mk : string -> RR) (subs : list string) : forall resp : Msg,
  let resp' := fold_left (fun resp subtype => set_Answer (Answer resp ++ [mk subtype]) resp)
                         subs resp in
  Extra resp' = Extra resp /\ Ns resp' = Ns resp /\ Questions resp' = Questions resp
  /\ Response resp' = Response resp /\ Authoritative resp' = Authoritative resp
  /\ RecursionDesired resp' = RecursionDesired resp.
Proof.
  induction subs as [|x subs IH]; intros resp; simpl; [tauto|].
  specialize (IH (set_Answer (Answer resp ++ [mk x]) resp)). simpl in IH. exact IH.
Qed.

(** The answers of the lookup reply, record by record. *)
Lemma composeLookupAnswers_Answer h svc resp t ifIndex flushCache :
  Answer (composeLookupAnswers h svc resp t ifIndex flushCache)
  = Answer resp
    ++ [SRV (mkHdr (ServiceInstanceName svc) TypeSRV unique_class t)
            0 0 (Port svc mod 65536) (HostName svc);
        TXT (mkHdr (ServiceInstanceName svc) TypeTXT unique_class t) (TxtRecords svc);
        PTR (mkHdr (ServiceName svc) TypePTR ClassINET t) (ServiceInstanceName svc);
        PTR (mkHdr (ServiceTypeName svc) TypePTR ClassINET t) (ServiceName svc)]
    ++ map (fun subtype => PTR (mkHdr subtype TypePTR ClassINET t) (ServiceInstanceName svc))
           (Subtypes svc)
    ++ appendAddrs h svc [] t ifIndex flushCache.
Proof.
  unfold composeLookupAnswers. simpl.
  rewrite appendAddrs_app, subtype_loop_Answer. simpl.
  rewrite <- !app_assoc. reflexivity.
Qed.

Lemma composeLookupAnswers_rest h svc resp t ifIndex flushCache :
  let resp' := composeLookupAnswers h svc resp t ifIndex flushCache in
  Extra resp' = Extra resp /\ Ns resp' = Ns resp /\ Questions resp' = Questions resp
  /\ Response resp' = Response resp /\ Authoritative resp' = Authoritative resp
  /\ RecursionDesired resp' = RecursionDesired resp.
Proof.
  unfold composeLookupAnswers. simpl.
  match goal with
  | |- context [fold_left ?f ?l ?r] =>
    pose proof (subtype_loop_rest
      (fun subtype => PTR (mkHdr subtype TypePTR ClassINET t) (ServiceInstanceName svc))
      l r) as H
  end.
  simpl in H. exact H.
Qed.

Lemma composeLookupAnswers_shaped h svc resp t ifIndex flushCache :
  Forall (shaped t (address_ttl t) unique_class (address_class flushCache))
         (Answer (composeLookupAnswers h svc (set_Answer [] resp) t ifIndex flushCache)).
Proof.
  rewrite composeLookupAnswers_Answer. simpl.
  do 4 (constructor; [simpl; auto|]).
  apply Forall_app; split.
  - apply Forall_map_all. intros sub. simpl. auto.
  - apply appendAddrs_shaped.
Qed.

Lemma composeBrowsingAnswers_Answer h s svc resp ifIndex :
  Answer (composeBrowsingAnswers h s svc resp ifIndex)
  = Answer resp ++ [PTR (mkHdr (ServiceName svc) TypePTR ClassINET (ttl s))
                        (ServiceInstanceName svc)].
Proof. reflexivity. Qed.

Lemma composeBrowsingAnswers_Extra h s svc resp ifIndex :
  Extra (composeBrowsingAnswers h s svc resp ifIndex)
  = Extra resp
    ++ [SRV (mkHdr (ServiceInstanceName svc) TypeSRV ClassINET (ttl s))
            0 0 (Port svc mod 65536) (HostName svc);
        TXT (mkHdr (ServiceInstanceName svc) TypeTXT ClassINET (ttl s)) (TxtRecords svc)]
    ++ appendAddrs h svc [] (ttl s) ifIndex false.
Proof.
  unfold composeBrowsingAnswers. simpl.
  rewrite appendAddrs_app, <- app_assoc. reflexivity.
Qed.

Example printer_registered :
  Register office "Printer" "_ipp._tcp" "local" 631 ["rp=ipp/print"] [] []
  = Ok printer_server.
Proof. reflexivity. Qed.

(** *** The cache-flush bit *)

(** C1, as the code has it: in the answers [composeLookupAnswers]
    composes (lookup replies, announcements, the goodbye) the SRV and
    the TXT record always carry the cache-flush bit, whatever
    [flushCache] is; an A or AAAA record carries it exactly when
    [flushCache] is true; a PTR record never carries it.  The answers
    start with the SRV and the TXT record. *)
Theorem lookup_cache_flush h svc resp t ifIndex flushCache :
  Forall (fun rr =>
            match rr with
            | SRV _ _ _ _ _ | TXT _ _ => cache_flush rr = true
            | A _ _ | AAAA _ _ => cache_flush rr = flushCache
            | PTR _ _ => cache_flush rr = false
            | RFC3597 _ => False
            end)
         (Answer (composeLookupAnswers h svc (set_Answer [] resp) t ifIndex flushCache))
  /\ exists rest,
      Answer (composeLookupAnswers h svc (set_Answer [] resp) t ifIndex flushCache)
      = SRV (mkHdr (ServiceInstanceName svc) TypeSRV 0x8001 t)
            0 0 (Port svc mod 65536) (HostName svc)
        :: TXT (mkHdr (ServiceInstanceName svc) TypeTXT 0x8001 t) (TxtRecords svc)
        :: rest.
Proof.
  split.
  - eapply Forall_impl; [apply composeLookupAnswers_shaped|].
    intros rr. unfold shaped, cache_flush.
    destruct rr as [hd ?|hd ? ? ? ?|hd ?|hd ?|hd ?|hd]; simpl;
      try tauto; intros (_ & -> & _); try reflexivity;
      destruct flushCache; reflexivity.
  - rewrite composeLookupAnswers_Answer. simpl. eexists. reflexivity.
Qed.

(** The reply to a lookup of the printer, composed without
    [flushCache], starts with an SRV record of class 0x8001: the claim
    that SRV, TXT, A and AAAA carry the bit only when [flushCache] is
    true does not hold. *)
Lemma lookup_reply_flushes_srv :
  ~ (forall h svc resp t ifIndex flushCache,
       Forall (fun rr =>
                 (is_SRV rr || is_TXT rr || is_address rr = true ->
                  cache_flush rr = flushCache)
                 /\ (is_PTR rr = true -> cache_flush rr = false))
              (Answer (composeLookupAnswers h svc (set_Answer [] resp) t ifIndex
                                            flushCache))).
Proof.
  intros H.
  specialize (H office printer zero 3200 2 false).
  apply Forall_inv in H. destruct H as [H _].
  specialize (H eq_refl). vm_compute in H. discriminate H.
Qed.

(** *** The header of the messages *)

Lemma same_header_lookup h svc resp t ifIndex flushCache :
  same_header resp (composeLookupAnswers h svc resp t ifIndex flushCache).
Proof.
  pose proof (composeLookupAnswers_rest h svc resp t ifIndex flushCache) as H.
  simpl in H. unfold same_header. tauto.
Qed.

Lemma same_header_suppress resp resp' query :
  same_header resp resp' -> same_header resp (suppress_known resp' query).
Proof. unfold suppress_known. destruct (isKnownAnswer resp' query); auto. Qed.

Lemma same_header_browsing h s svc resp ifIndex :
  same_header resp (composeBrowsingAnswers h s svc resp ifIndex).
Proof. unfold same_header. simpl. tauto. Qed.

Lemma same_header_subtypes h s svc q resp query ifIndex (subs : list string) :
  same_header resp (handleSubtypes h s svc subs q resp query ifIndex).
Proof.
  induction subs as [|x subs IH]; simpl.
  - unfold same_header. tauto.
  - destruct (String.eqb _ _); [|exact IH].
    apply same_header_suppress, same_header_browsing.
Qed.

Lemma same_header_handleQuestion h s q resp query ifIndex :
  same_header resp (handleQuestion h s q resp query ifIndex).
Proof.
  unfold handleQuestion.
  destruct (service s) as [svc|]; [|unfold same_header; tauto].
  destruct (String.eqb _ _).
  { apply same_header_suppress. unfold same_header. simpl. tauto. }
  destruct (String.eqb _ _).
  { apply same_header_suppress, same_header_browsing. }
  destruct (String.eqb _ _).
  { apply same_header_lookup. }
  apply same_header_subtypes.
Qed.

(** Every reply to an inbound question has the header of a response. *)
Lemma handleQuery_header h s query ifIndex from (e : Send) :
  In e (handleQuery h s query ifIndex from) -> response_header (message e).
Proof.
  unfold handleQuery. destruct (Ns query); [|intros []].
  intros Hin. apply in_flat_map in Hin. destruct Hin as [q [_ Hin]].
  unfold answerQuestion in Hin.
  pose proof (same_header_handleQuestion h s q (blank_reply query) query ifIndex) as Hh.
  destruct (Answer (handleQuestion h s q (blank_reply query) query ifIndex)); [destruct Hin|].
  unfold response_header.
  destruct (isUnicastQuestion q); destruct Hin as [<-|[]]; simpl;
    destruct Hh as (-> & -> & -> & ->); simpl; tauto.
Qed.

(** The unsolicited messages carry QR=1, RD=0 and no question, and
    leave AA at 0. *)
Lemma unsolicited_header h s svc text (intf : Interface) (m : Msg) :
  In m [announcement h s svc intf;
        message (announceText h s svc);
        message (snd (SetText h s svc text));
        message (unregister h s svc)] ->
  Response m = true /\ Authoritative m = false /\ RecursionDesired m = false
  /\ Questions m = [].
Proof.
  intros Hin. simpl in Hin.
  destruct Hin as [<-|[<-|[<-|[<-|[]]]]].
  - destruct (same_header_lookup h svc
                (set_Extra [] (set_Answer [] (set_Compress true (set_Response true zero))))
                (ttl s) (Index intf) true) as (H1 & H2 & H3 & H4).
    unfold announcement. rewrite H1, H2, H3, H4. simpl. tauto.
  - simpl. tauto.
  - simpl. tauto.
  - destruct (same_header_lookup h svc
                (set_Extra [] (set_Answer [] (set_Response true zero)))
                0 0 true) as (H1 & H2 & H3 & H4).
    unfold unregister, message. rewrite H1, H2, H3, H4. simpl. tauto.
Qed.

(** C2: every outgoing response should have QR=1, AA=1, RD=0 and no
    question.  The announcement [probe] sends for the printer on eth0,
    the announcement of [SetText] and the goodbye of [unregister] are
    sent with AA=0. *)
Theorem announcements_not_authoritative :
  In (multicastResponse (announcement office printer_server printer eth0) 2)
     (probe office printer_server printer 0)
  /\ Authoritative (announcement office printer_server printer eth0) = false
  /\ Authoritative (message (snd (SetText office printer_server printer ["a=b"]))) = false
  /\ Authoritative (message (unregister office printer_server printer)) = false.
Proof.
  split; [|split; [|split]]; try reflexivity.
  vm_compute. tauto.
Qed.

(** *** TTLs *)

Lemma shaped_ttls t addr_ttl u a (rr : RR) : shaped t addr_ttl u a rr -> ttls t addr_ttl rr.
Proof. destruct rr; simpl; tauto. Qed.

Lemma appendAddrs_ttls h svc t ifIndex flushCache :
  Forall (ttls t (address_ttl t)) (appendAddrs h svc [] t ifIndex flushCache).
Proof.
  eapply Forall_impl; [apply (appendAddrs_shaped h svc t ifIndex flushCache 0)|].
  intros rr. apply shaped_ttls.
Qed.

Lemma lookup_ttls h svc resp t ifIndex flushCache :
  Answer resp = [] -> Ns resp = [] -> Extra resp = [] ->
  Forall (ttls t (address_ttl t))
         (records (composeLookupAnswers h svc resp t ifIndex flushCache)).
Proof.
  intros HA HN HE. unfold records.
  destruct (composeLookupAnswers_rest h svc resp t ifIndex flushCache) as (-> & -> & _).
  rewrite HN, HE, !app_nil_r.
  replace resp with (set_Answer [] resp)
    by (destruct resp; unfold set_Answer; simpl in *; subst; reflexivity).
  eapply Forall_impl; [apply composeLookupAnswers_shaped|].
  intros rr. apply shaped_ttls.
Qed.

Lemma browsing_ttls h s svc resp ifIndex :
  Answer resp = [] -> Ns resp = [] -> Extra resp = [] ->
  Forall (ttls (ttl s) (address_ttl (ttl s)))
         (records (composeBrowsingAnswers h s svc resp ifIndex)).
Proof.
  intros HA HN HE. unfold records.
  rewrite composeBrowsingAnswers_Answer, composeBrowsingAnswers_Extra, HA, HE.
  change (Ns (composeBrowsingAnswers h s svc resp ifIndex)) with (Ns resp).
  rewrite HN. simpl.
  do 3 (constructor; [simpl; reflexivity|]).
  apply appendAddrs_ttls.
Qed.

Lemma suppress_records (P : RR -> Prop) resp query :
  Forall P (records resp) -> Forall P (records (suppress_known resp query)).
Proof.
  unfold suppress_known. destruct (isKnownAnswer resp query); [|tauto].
  unfold records. simpl. intros H. apply Forall_app in H. tauto.
Qed.

Lemma subtypes_ttls h s svc q resp query ifIndex (subs : list string) :
  Answer resp = [] -> Ns resp = [] -> Extra resp = [] ->
  Forall (ttls (ttl s) (address_ttl (ttl s)))
         (records (handleSubtypes h s svc subs q resp query ifIndex)).
Proof.
  intros HA HN HE. induction subs as [|x subs IH]; simpl.
  - unfold records. rewrite HA, HN, HE. constructor.
  - destruct (String.eqb _ _); [|exact IH].
    apply suppress_records, browsing_ttls; assumption.
Qed.

Lemma handleQuestion_ttls h s q query ifIndex :
  Forall (ttls (ttl s) (address_ttl (ttl s)))
         (records (handleQuestion h s q (blank_reply query) query ifIndex)).
Proof.
  unfold handleQuestion.
  destruct (service s) as [svc|]; [|constructor].
  destruct (String.eqb _ _).
  { apply suppress_records. unfold records. simpl. constructor; [reflexivity|constructor]. }
  destruct (String.eqb _ _).
  { apply suppress_records, browsing_ttls; reflexivity. }
  destruct (String.eqb _ _).
  { apply lookup_ttls; reflexivity. }
  apply subtypes_ttls; reflexivity.
Qed.

Lemma probe_sends h s svc id (e : Send) :
  In e (probe h s svc id) ->
  message e = probe_query s svc id
  \/ exists intf, message e = announcement h s svc intf.
Proof.
  unfold probe. intros Hin. apply in_app_or in Hin. destruct Hin as [Hin|Hin].
  - left. apply repeat_spec in Hin. subst e. reflexivity.
  - right. apply in_concat in Hin. destruct Hin as [l [Hl Hin]].
    apply repeat_spec in Hl. subst l. apply in_map_iff in Hin.
    destruct Hin as [intf [<- _]]. exists intf. reflexivity.
Qed.

Lemma ttls_on_the_wire (t : Z) (rr : RR) :
  ttls t (address_ttl t) rr -> wire_ttls t rr.
Proof.
  unfold address_ttl. destruct rr as [hd ?|hd ? ? ? ?|hd ?|hd ?|hd ?|hd]; simpl; auto;
    intros ->; destruct (Z.gtb_spec t 0); split; intros; lia.
Qed.

(** With addresses of its own, the entry is the source of the address
    records, whatever the interface. *)
Lemma appendAddrs_of_entry h svc t ifIndex flushCache :
  own_addresses svc ->
  appendAddrs h svc [] t ifIndex flushCache
  = map (A (mkHdr (HostName svc) TypeA (address_class flushCache) (address_ttl t)))
        (AddrIPv4 svc)
    ++ map (AAAA (mkHdr (HostName svc) TypeAAAA (address_class flushCache) (address_ttl t)))
           (AddrIPv6 svc).
Proof.
  intros Hown. unfold appendAddrs, address_class, address_ttl.
  destruct (AddrIPv4 svc) as [|a v4] eqn:E4; destruct (AddrIPv6 svc) as [|b v6] eqn:E6;
    try (rewrite !fold_append_map; reflexivity).
  destruct Hown as [Hown|Hown]; contradiction.
Qed.

Lemma goodbye_records h s svc :
  records (message (unregister h s svc))
  = [SRV (mkHdr (ServiceInstanceName svc) TypeSRV unique_class 0)
         0 0 (Port svc mod 65536) (HostName svc);
     TXT (mkHdr (ServiceInstanceName svc) TypeTXT unique_class 0) (TxtRecords svc);
     PTR (mkHdr (ServiceName svc) TypePTR ClassINET 0) (ServiceInstanceName svc);
     PTR (mkHdr (ServiceTypeName svc) TypePTR ClassINET 0) (ServiceName svc)]
    ++ map (fun subtype => PTR (mkHdr subtype TypePTR ClassINET 0) (ServiceInstanceName svc))
           (Subtypes svc)
    ++ appendAddrs h svc [] 0 0 true.
Proof.
  unfold unregister, message, records. fold blank_response.
  destruct (composeLookupAnswers_rest h svc blank_response 0 0 true) as (-> & -> & _).
  rewrite composeLookupAnswers_Answer. simpl. rewrite !app_nil_r. reflexivity.
Qed.

Lemma announcement_records h s svc (intf : Interface) :
  records (announcement h s svc intf)
  = [SRV (mkHdr (ServiceInstanceName svc) TypeSRV unique_class (ttl s))
         0 0 (Port svc mod 65536) (HostName svc);
     TXT (mkHdr (ServiceInstanceName svc) TypeTXT unique_class (ttl s)) (TxtRecords svc);
     PTR (mkHdr (ServiceName svc) TypePTR ClassINET (ttl s)) (ServiceInstanceName svc);
     PTR (mkHdr (ServiceTypeName svc) TypePTR ClassINET (ttl s)) (ServiceName svc)]
    ++ map (fun subtype =>
              PTR (mkHdr subtype TypePTR ClassINET (ttl s)) (ServiceInstanceName svc))
           (Subtypes svc)
    ++ appendAddrs h svc [] (ttl s) (Index intf) true.
Proof.
  unfold announcement, records.
  match goal with
  | |- context [composeLookupAnswers h svc ?r (ttl s) (Index intf) true] =>
    destruct (composeLookupAnswers_rest h svc r (ttl s) (Index intf) true)
      as (-> & -> & _)
  end.
  rewrite composeLookupAnswers_Answer. simpl. rewrite !app_nil_r. reflexivity.
Qed.

(** C4, as the code has it: in every message the responder sends
    (replies to a query, probes and announcements, the announcement of
    [SetText]) a PTR, SRV or TXT record has the configured TTL, and an A
    or AAAA record has TTL 120 whenever the configured TTL is above 0;
    the goodbye of [unregister] has TTL 0 on every record; and when the
    entry has addresses of its own, the goodbye holds the records of an
    announcement, on whatever interface, with every TTL set to 0, among
    them one A record for each IPv4 address and one AAAA record for each
    IPv6 address of the entry. *)
Theorem ttl_on_the_wire h s svc query ifIndex from id text :
  service s = Some svc ->
  (forall e,
      In e (handleQuery h s query ifIndex from
            ++ probe h s svc id
            ++ [announceText h s svc; snd (SetText h s svc text)]) ->
      Forall (wire_ttls (ttl s)) (records (message e)))
  /\ Forall (fun rr => Ttl (Header rr) = 0) (records (message (unregister h s svc)))
  /\ (own_addresses svc ->
      (forall intf,
          records (message (unregister h s svc))
          = map (with_Ttl 0) (records (announcement h s svc intf)))
      /\ (forall ip, In ip (AddrIPv4 svc) ->
                     In (A (mkHdr (HostName svc) TypeA unique_class 0) ip)
                        (records (message (unregister h s svc))))
      /\ (forall ip, In ip (AddrIPv6 svc) ->
                     In (AAAA (mkHdr (HostName svc) TypeAAAA unique_class 0) ip)
                        (records (message (unregister h s svc))))).
Proof.
  intros Hsvc.
  split; [|split].
  - intros e Hin.
    eapply Forall_impl; [|intros rr; apply ttls_on_the_wire].
    apply in_app_or in Hin. destruct Hin as [Hin|Hin].
    { unfold handleQuery in Hin. destruct (Ns query); [|destruct Hin].
      apply in_flat_map in Hin. destruct Hin as [q [_ Hin]].
      unfold answerQuestion in Hin.
      pose proof (handleQuestion_ttls h s q query ifIndex) as Hq.
      destruct (Answer (handleQuestion h s q (blank_reply query) query ifIndex)) eqn:EA;
        [destruct Hin|].
      destruct (isUnicastQuestion q); destruct Hin as [<-|[]]; exact Hq. }
    apply in_app_or in Hin. destruct Hin as [Hin|Hin].
    { apply probe_sends in Hin. destruct Hin as [->|[intf ->]].
      - unfold records. simpl. constructor; [reflexivity|].
        constructor; [reflexivity|constructor].
      - apply lookup_ttls; reflexivity. }
    simpl in Hin. destruct Hin as [<-|[<-|[]]].
    + apply (browsing_ttls h s svc (set_Response true zero) 0); reflexivity.
    + apply (browsing_ttls h s (set_Text text svc) (set_Response true zero) 0); reflexivity.
  - pose proof (lookup_ttls h svc blank_response 0 0 true eq_refl eq_refl eq_refl) as H.
    eapply Forall_impl; [exact H|].
    intros rr. destruct rr; simpl; tauto.
  - intros Hown. rewrite goodbye_records.
    rewrite (appendAddrs_of_entry h svc 0 0 true Hown).
    split; [|split].
    + intros intf. rewrite announcement_records.
      rewrite (appendAddrs_of_entry h svc (ttl s) (Index intf) true Hown).
      cbn [app map with_Ttl Name Rrtype Class]. rewrite !map_app, !map_map.
      reflexivity.
    + intros ip Hip. apply in_or_app. right. apply in_or_app. right.
      apply in_or_app. left. apply in_map_iff. exists ip. split; [reflexivity|exact Hip].
    + intros ip Hip. apply in_or_app. right. apply in_or_app. right.
      apply in_or_app. right. apply in_map_iff. exists ip. split; [reflexivity|exact Hip].
Qed.

Lemma ttl_on_the_wire_witness :
  service printer_server = Some printer
  /\ own_addresses printer
  /\ (forall e,
        In e (handleQuery office printer_server browse_query 2 "192.168.1.7:5353"
              ++ probe office printer_server printer 7
              ++ [announceText office printer_server printer;
                  snd (SetText office printer_server printer ["a=b"])]) ->
        Forall (wire_ttls (ttl printer_server)) (records (message e)))
  /\ Forall (fun rr => Ttl (Header rr) = 0)
            (records (message (unregister office printer_server printer)))
  /\ (own_addresses printer ->
      (forall intf,
          records (message (unregister office printer_server printer))
          = map (with_Ttl 0) (records (announcement office printer_server printer intf)))
      /\ (forall ip, In ip (AddrIPv4 printer) ->
                     In (A (mkHdr (HostName printer) TypeA unique_class 0) ip)
                        (records (message (unregister office printer_server printer))))
      /\ (forall ip, In ip (AddrIPv6 printer) ->
                     In (AAAA (mkHdr (HostName printer) TypeAAAA unique_class 0) ip)
                        (records (message (unregister office printer_server printer))))).
Proof.
  split; [reflexivity|]. split; [left; discriminate|].
  apply (ttl_on_the_wire office printer_server printer browse_query 2
                         "192.168.1.7:5353" 7 ["a=b"]).
  reflexivity.
Defined.

(** C4 as it is written fails for a proxy registered without addresses:
    the announcement is composed for the interface it goes out on and
    carries the A record of that interface, while the goodbye is
    composed for the index 0, which is no interface, and carries no
    address record.  The goodbye is not the announcement with every TTL
    set to 0. *)
Lemma goodbye_without_interface_addresses :
  ~ (forall h s svc intf,
       service s = Some svc -> In intf (ifaces s) ->
       records (message (unregister h s svc))
       = map (with_Ttl 0) (records (announcement h s svc intf))).
Proof.
  intros H.
  specialize (H office ConstructionProps.proxy_server ConstructionProps.proxy eth0
                eq_refl (or_introl eq_refl)).
  vm_compute in H. discriminate H.
Qed.

(** *** Known-answer suppression *)

Lemma no_known_no_suppression resp query :
  suppress_known resp (set_Answer [] query) = resp.
Proof.
  unfold suppress_known, isKnownAnswer. simpl. destruct (Answer resp); reflexivity.
Qed.

(** [isKnownAnswer] fires when the first answer is a PTR record and the
    query carries a PTR record with its target and enough TTL left. *)
Lemma isKnownAnswer_hit resp query ah kh (R : string) (rest : list RR) :
  Answer resp = PTR ah R :: rest ->
  Rrtype ah = TypePTR ->
  In (PTR kh R) (Answer query) ->
  Rrtype kh = TypePTR ->
  Ttl ah / 2 <= Ttl kh ->
  isKnownAnswer resp query = true.
Proof.
  intros HA Hah Hin Hkh Httl. unfold isKnownAnswer. rewrite HA.
  destruct (Answer query) as [|k0 ks] eqn:EQ; [destruct Hin|].
  simpl Header. rewrite Hah. simpl negb. cbv iota.
  apply existsb_exists. exists (PTR kh R). split; [exact Hin|].
  simpl. rewrite Hkh. simpl. rewrite String.eqb_refl. simpl.
  apply Z.geb_le. exact Httl.
Qed.

Lemma suppress_hit resp query ah kh (R : string) (rest : list RR) :
  Answer (suppress_known resp (set_Answer [] query)) = PTR ah R :: rest ->
  Rrtype ah = TypePTR ->
  In (PTR kh R) (Answer query) ->
  Rrtype kh = TypePTR ->
  Ttl ah / 2 <= Ttl kh ->
  Answer (suppress_known resp query) = [].
Proof.
  rewrite no_known_no_suppression. intros HA Hah Hin Hkh Httl.
  unfold suppress_known.
  rewrite (isKnownAnswer_hit resp query ah kh R rest HA Hah Hin Hkh Httl).
  reflexivity.
Qed.

Lemma subtypes_without_known h s svc q resp query ifIndex (subs : list string) :
  handleSubtypes h s svc subs q resp (set_Answer [] query) ifIndex
  = match find (fun subtype => String.eqb (Qname q) (subtype +:+ "._sub." +:+ ServiceName svc))
               subs with
    | Some _ => composeBrowsingAnswers h s svc resp ifIndex
    | None => resp
    end.
Proof.
  induction subs as [|x subs IH]; simpl; [reflexivity|].
  destruct (String.eqb _ _); [apply no_known_no_suppression|exact IH].
Qed.

Lemma subtypes_with_known h s svc q resp query ifIndex (subs : list string) :
  handleSubtypes h s svc subs q resp query ifIndex
  = match find (fun subtype => String.eqb (Qname q) (subtype +:+ "._sub." +:+ ServiceName svc))
               subs with
    | Some _ => suppress_known (composeBrowsingAnswers h s svc resp ifIndex) query
    | None => resp
    end.
Proof.
  induction subs as [|x subs IH]; simpl; [reflexivity|].
  destruct (String.eqb _ _); [reflexivity|exact IH].
Qed.

(** C3, as the code has it: when the answer the responder composes for
    a question starts with a PTR record (the questions on the
    service-type name, on the service name and on a subtype name), and
    the Answer section of the query holds a PTR record with the same
    target and a TTL of at least half the TTL of that record (the half
    rounded down), the Answer section of the response is cleared and
    nothing is sent for the question.  The answer composed without
    regard to known answers is the one given to the query stripped of
    its Answer section. *)
Theorem known_answer_suppressed h s q query ifIndex from ah kh
    (R : string) (rest : list RR) :
  Answer (handleQuestion h s q (blank_reply query) (set_Answer [] query) ifIndex)
    = PTR ah R :: rest ->
  In (PTR kh R) (Answer query) ->
  Rrtype kh = TypePTR ->
  Ttl ah / 2 <= Ttl kh ->
  Answer (handleQuestion h s q (blank_reply query) query ifIndex) = []
  /\ answerQuestion h s query ifIndex from q = [].
Proof.
  intros HA Hin Hkh Httl.
  assert (Hclear : Answer (handleQuestion h s q (blank_reply query) query ifIndex) = []).
  { revert HA. unfold handleQuestion.
    destruct (service s) as [svc|]; [|intros HA; discriminate HA].
    destruct (String.eqb (Qname q) (ServiceTypeName svc)).
    { intros HA. eapply suppress_hit; eauto.
      rewrite no_known_no_suppression in HA. simpl in HA.
      injection HA as <- _ _. reflexivity. }
    destruct (String.eqb (Qname q) (ServiceName svc)).
    { intros HA. eapply suppress_hit; eauto.
      rewrite no_known_no_suppression in HA. simpl in HA.
      injection HA as <- _ _. reflexivity. }
    destruct (String.eqb (Qname q) (ServiceInstanceName svc)).
    { rewrite composeLookupAnswers_Answer. simpl. intros HA. discriminate HA. }
    rewrite subtypes_without_known, subtypes_with_known.
    destruct (find _ (Subtypes svc)); [|intros HA; discriminate HA].
    intros HA.
    apply (suppress_hit _ query ah kh R rest);
      [rewrite no_known_no_suppression; exact HA| |assumption..].
    simpl in HA. injection HA as <- _ _. reflexivity. }
  split; [exact Hclear|].
  unfold answerQuestion. rewrite Hclear. reflexivity.
Qed.

Lemma known_answer_suppressed_witness :
  Answer (handleQuestion office printer_server
                         (mkQuestion "_ipp._tcp.local." TypePTR ClassINET)
                         (blank_reply browse_query_known)
                         (set_Answer [] browse_query_known) 2)
    = PTR (mkHdr "_ipp._tcp.local." TypePTR ClassINET 3200) "Printer._ipp._tcp.local."
      :: []
  /\ In known_ptr (Answer browse_query_known)
  /\ Rrtype (Header known_ptr) = TypePTR
  /\ 3200 / 2 <= 2560
  /\ Answer (handleQuestion office printer_server
                            (mkQuestion "_ipp._tcp.local." TypePTR ClassINET)
                            (blank_reply browse_query_known) browse_query_known 2) = []
  /\ answerQuestion office printer_server browse_query_known 2 "192.168.1.7:5353"
                    (mkQuestion "_ipp._tcp.local." TypePTR ClassINET) = [].
Proof.
  split; [reflexivity|]. split; [left; reflexivity|]. split; [reflexivity|].
  split; [vm_compute; discriminate|].
  apply (known_answer_suppressed office printer_server
           (mkQuestion "_ipp._tcp.local." TypePTR ClassINET) browse_query_known 2
           "192.168.1.7:5353"
           (mkHdr "_ipp._tcp.local." TypePTR ClassINET 3200)
           (mkHdr "_ipp._tcp.local." TypePTR ClassINET 2560)
           "Printer._ipp._tcp.local." []).
  - reflexivity.
  - left. reflexivity.
  - reflexivity.
  - vm_compute. discriminate.
Defined.

(** A lookup of the printer that carries the same known PTR record: the
    reply holds that PTR record (third, after SRV and TXT) and is sent
    all the same.  So a known PTR with the target and TTL of an
    outgoing PTR answer does not always clear the Answer section. *)
Lemma lookup_reply_not_suppressed :
  ~ (forall h s q query ifIndex ah kh (R : string),
       In (PTR ah R)
          (Answer (handleQuestion h s q (blank_reply query) (set_Answer [] query) ifIndex)) ->
       In (PTR kh R) (Answer query) ->
       Rrtype kh = TypePTR ->
       Ttl ah / 2 <= Ttl kh ->
       Answer (handleQuestion h s q (blank_reply query) query ifIndex) = []).
Proof.
  intros H.
  specialize (H office printer_server
                (mkQuestion "Printer._ipp._tcp.local." TypeSRV ClassINET)
                (set_Answer [known_ptr]
                   (set_Question [mkQuestion "Printer._ipp._tcp.local." TypeSRV ClassINET]
                                 zero))
                2
                (mkHdr "_ipp._tcp.local." TypePTR ClassINET 3200)
                (mkHdr "_ipp._tcp.local." TypePTR ClassINET 2560)
                "Printer._ipp._tcp.local.").
  assert (Hno : Answer (handleQuestion office printer_server
                (mkQuestion "Printer._ipp._tcp.local." TypeSRV ClassINET)
                (blank_reply (set_Answer [known_ptr]
                   (set_Question [mkQuestion "Printer._ipp._tcp.local." TypeSRV ClassINET]
                                 zero)))
                (set_Answer [known_ptr]
                   (set_Question [mkQuestion "Printer._ipp._tcp.local." TypeSRV ClassINET]
                                 zero)) 2) <> []).
  { vm_compute. discriminate. }
  apply Hno, H.
  - vm_compute. right. right. left. reflexivity.
  - left. reflexivity.
  - reflexivity.
  - vm_compute. discriminate.
Qed.

(** *** Unicast or multicast *)

(** C5: a question of a query without authority section, answered with
    a non-empty Answer section, has its response sent unicast to the
    sender when the top bit (0x8000) of its qclass is set, and
    multicast on the receiving interface when it is not; that send is
    among the sends of [handleQuery]. *)
Theorem unicast_iff_top_bit h s query ifIndex from q :
  Ns query = [] ->
  In q (Questions query) ->
  Answer (handleQuestion h s q (blank_reply query) query ifIndex) <> [] ->
  (Z.land (Qclass q) 0x8000 <> 0 ->
   answerQuestion h s query ifIndex from q
   = [unicastResponse (handleQuestion h s q (blank_reply query) query ifIndex)
                      ifIndex from])
  /\ (Z.land (Qclass q) 0x8000 = 0 ->
      answerQuestion h s query ifIndex from q
      = [multicastResponse (handleQuestion h s q (blank_reply query) query ifIndex)
                           ifIndex])
  /\ incl (answerQuestion h s query ifIndex from q) (handleQuery h s query ifIndex from).
Proof.
  intros HNs Hq Hans. split; [|split].
  - intros Hbit. unfold answerQuestion, isUnicastQuestion.
    destruct (Answer _); [congruence|].
    change qClassCacheFlush with 0x8000.
    destruct (Z.eqb_spec (Z.land (Qclass q) 0x8000) 0); [contradiction|reflexivity].
  - intros Hbit. unfold answerQuestion, isUnicastQuestion.
    destruct (Answer _); [congruence|].
    change qClassCacheFlush with 0x8000. rewrite Hbit. reflexivity.
  - unfold handleQuery. rewrite HNs. intros e He.
    apply in_flat_map. exists q. split; assumption.
Qed.

Example unicast_query_answered :
  handleQuery office printer_server unicast_query 2 "192.168.1.7:5353"
  = [unicastResponse
       (handleQuestion office printer_server (mkQuestion "_ipp._tcp.local." TypePTR 0x8001)
                       (blank_reply unicast_query) unicast_query 2)
       2 "192.168.1.7:5353"].
Proof. reflexivity. Qed.

Example browse_query_answered :
  handleQuery office printer_server browse_query 2 "192.168.1.7:5353"
  = [multicastResponse
       (handleQuestion office printer_server (mkQuestion "_ipp._tcp.local." TypePTR ClassINET)
                       (blank_reply browse_query) browse_query 2)
       2].
Proof. reflexivity. Qed.

Lemma unicast_iff_top_bit_witness :
  Ns unicast_query = []
  /\ In unicast_question (Questions unicast_query)
  /\ Answer (handleQuestion office printer_server unicast_question
                            (blank_reply unicast_query) unicast_query 2) <> []
  /\ (Z.land (Qclass unicast_question) 0x8000 <> 0 ->
      answerQuestion office printer_server unicast_query 2 "192.168.1.7:5353"
                     unicast_question
      = [unicastResponse
           (handleQuestion office printer_server unicast_question
                           (blank_reply unicast_query) unicast_query 2)
           2 "192.168.1.7:5353"])
  /\ (Z.land (Qclass unicast_question) 0x8000 = 0 ->
      answerQuestion office printer_server unicast_query 2 "192.168.1.7:5353"
                     unicast_question
      = [multicastResponse
           (handleQuestion office printer_server unicast_question
                           (blank_reply unicast_query) unicast_query 2)
           2])
  /\ incl (answerQuestion office printer_server unicast_query 2 "192.168.1.7:5353"
                          unicast_question)
          (handleQuery office printer_server unicast_query 2 "192.168.1.7:5353").
Proof.
  split; [reflexivity|]. split; [left; reflexivity|].
  split; [vm_compute; discriminate|].
  apply (unicast_iff_top_bit office printer_server unicast_query 2 "192.168.1.7:5353"
                             unicast_question).
  - reflexivity.
  - left. reflexivity.
  - vm_compute. discriminate.
Defined.

End ResponderFacts.


(* ===================================================================== *)
(** ** The host name of a registered service *)
(* ===================================================================== *)

Module RegisterFacts.
Import Responder ResponderProps RegisterProps ResponderFacts.

Lemma length_append (x y : string) :
  String.length (x +:+ y) = (String.length x + String.length y)%nat.
Proof.
  induction x as [|c x IH]; [reflexivity|].
  rewrite ChunksFacts.append_cons. simpl. rewrite IH. reflexivity.
Qed.

Lemma substring_after (x y : string) :
  String.substring (String.length x) (String.length y) (x +:+ y) = y.
Proof.
  induction x as [|c x IH].
  - apply ChunksFacts.substring_whole.
  - rewrite ChunksFacts.append_cons. simpl. exact IH.
Qed.

(** A string ends with what was appended to it. *)
Lemma HasSuffix_append (x y : string) : GoString.HasSuffix (x +:+ y) y = true.
Proof.
  unfold GoString.HasSuffix. rewrite length_append.
  replace (String.length x + String.length y - String.length y)%nat
    with (String.length x) by lia.
  rewrite substring_after, String.eqb_refl.
  apply andb_true_iff. split; [apply Nat.leb_le; lia|reflexivity].
Qed.

(** The address loop of [Register] leaves the names alone. *)
Lemma address_loop_names (ifaces : list Interface) : forall e : ServiceEntry,
  let e' :=
    fold_left
      (fun e iface =>
         let '(v4, v6) := addrsForInterface iface in
         set_AddrIPv6 (AddrIPv6 e ++ v6) (set_AddrIPv4 (AddrIPv4 e ++ v4) e))
      ifaces e in
  HostName e' = HostName e /\ Domain e' = Domain e.
Proof.
  induction ifaces as [|i ifaces IH]; intros e; simpl; [tauto|].
  destruct (addrsForInterface i) as [v4 v6].
  specialize (IH (set_AddrIPv6 (AddrIPv6 e ++ v6) (set_AddrIPv4 (AddrIPv4 e ++ v4) e))).
  simpl in IH. exact IH.
Qed.

Lemma add_ips_names h (ips : list string) : forall e e' : ServiceEntry,
  add_ips h ips e = Ok e' -> HostName e' = HostName e /\ Domain e' = Domain e.
Proof.
  induction ips as [|ip ips IH]; intros e e'; simpl.
  - intros [= <-]. tauto.
  - destruct (ParseIP h ip) as [a|]; [|discriminate].
    destruct (To4_ok a); intros H; apply IH in H; simpl in H; exact H.
Qed.

Lemma qualify_host_spec (e : ServiceEntry) :
  Domain (qualify_host e) = Domain e
  /\ HostName (qualify_host e) = qualified (HostName e) (Domain e).
Proof.
  unfold qualify_host, qualified.
  destruct (GoString.HasSuffix (trimDot (HostName e)) (Domain e)); simpl; split; reflexivity.
Qed.

Lemma Register_entry h instance stype domain port text ifaces opts (s : Server) :
  Register h instance stype domain port text ifaces opts = Ok s ->
  exists hn svc,
    os_Hostname h = Some hn /\ service s = Some svc
    /\ Domain svc = domain_or "local." domain
    /\ HostName svc = qualified hn (Domain svc).
Proof.
  unfold Register, newServiceEntry.
  destruct (parseSubtypes stype) as [sv subs]. simpl.
  destruct (String.eqb instance ""); [discriminate|].
  destruct (String.eqb sv ""); [discriminate|].
  set (e0 := if String.eqb domain "" then _ else _).
  assert (HD : Domain e0 = domain_or "local." domain).
  { unfold e0, domain_or. destruct (String.eqb domain ""); reflexivity. }
  assert (HP : Port e0 = port).
  { unfold e0. destruct (String.eqb domain ""); reflexivity. }
  assert (HH : HostName e0 = "").
  { unfold e0. destruct (String.eqb domain ""); reflexivity. }
  rewrite HP, HH. destruct (port =? 0); [discriminate|]. simpl.
  destruct (os_Hostname h) as [hn|]; [|discriminate].
  match goal with
  | |- context [fold_left ?f ?l ?e] =>
    destruct (address_loop_names l e) as [Hn Hd]; set (e1 := fold_left f l e) in *
  end.
  destruct (AddrIPv4 e1), (AddrIPv6 e1); try discriminate;
    (destruct (newServer _ _ _) as [s0|]; [|discriminate]);
    intros [= <-]; exists hn, e1; (split; [reflexivity|]); (split; [reflexivity|]);
    rewrite Hn, Hd;
    destruct (qualify_host_spec (set_HostName hn e0)) as [-> ->]; simpl;
    rewrite HD; auto.
Qed.

Lemma RegisterProxy_entry h instance stype domain port host ips text ifaces opts
    (s : Server) :
  RegisterProxy h instance stype domain port host ips text ifaces opts = Ok s ->
  exists svc,
    service s = Some svc
    /\ Domain svc = domain_or "local" domain
    /\ HostName svc = qualified host (Domain svc).
Proof.
  unfold RegisterProxy, newServiceEntry.
  destruct (parseSubtypes stype) as [sv subs]. simpl.
  destruct (String.eqb instance ""); [discriminate|].
  destruct (String.eqb sv ""); [discriminate|].
  destruct (String.eqb host ""); [discriminate|].
  set (e0 := if String.eqb domain "" then _ else _).
  assert (HD : Domain e0 = domain_or "local" domain).
  { unfold e0, domain_or. destruct (String.eqb domain ""); reflexivity. }
  assert (HP : Port e0 = port).
  { unfold e0. destruct (String.eqb domain ""); reflexivity. }
  assert (HH : HostName e0 = host).
  { unfold e0. destruct (String.eqb domain ""); reflexivity. }
  rewrite HP. destruct (port =? 0); [discriminate|].
  destruct (add_ips h ips (qualify_host e0)) as [e1|] eqn:E1; [|discriminate].
  apply add_ips_names in E1. destruct E1 as [Hn Hd].
  destruct (newServer _ _ _) as [s0|]; [|discriminate].
  intros [= <-]. exists e1. split; [reflexivity|].
  rewrite Hn, Hd.
  destruct (qualify_host_spec e0) as [-> ->]. rewrite HD, HH. auto.
Qed.

(** What the code makes of the host name: after a successful [Register]
    (the supplied host being the one [os.Hostname] returns) or
    [RegisterProxy], a host whose dot-trimmed form ends with the domain
    string of the entry, as it stands, is kept as supplied; any other
    host becomes its dot-trimmed form followed by [.<domain>.], the
    domain dot-trimmed. *)
Lemma host_name_qualified h instance stype domain port host ips text ifaces opts
    (s : Server) (supplied : string) :
  (Register h instance stype domain port text ifaces opts = Ok s
   /\ os_Hostname h = Some supplied)
  \/ (RegisterProxy h instance stype domain port host ips text ifaces opts = Ok s
      /\ supplied = host) ->
  exists svc,
    service s = Some svc
    /\ (GoString.HasSuffix (trimDot supplied) (Domain svc) = true ->
        HostName svc = supplied)
    /\ (GoString.HasSuffix (trimDot supplied) (Domain svc) = false ->
        HostName svc = trimDot supplied +:+ "." +:+ trimDot (Domain svc) +:+ "."
        /\ GoString.HasSuffix (HostName svc) ("." +:+ trimDot (Domain svc) +:+ ".") = true).
Proof.
  intros [[HR Hhost]|[HR ->]].
  - apply Register_entry in HR. destruct HR as (hn & svc & Hhn & Hs & _ & HN).
    assert (hn = supplied) by congruence. subst hn.
    exists svc. split; [exact Hs|]. unfold qualified in HN.
    split; intros Hsuf; rewrite Hsuf in HN; [exact HN|].
    split; [exact HN|]. rewrite HN. apply HasSuffix_append.
  - apply RegisterProxy_entry in HR. destruct HR as (svc & Hs & _ & HN).
    exists svc. split; [exact Hs|]. unfold qualified in HN.
    split; intros Hsuf; rewrite Hsuf in HN; [exact HN|].
    split; [exact HN|]. rewrite HN. apply HasSuffix_append.
Qed.

Lemma host_name_qualified_witness :
  ((Register office "Printer" "_ipp._tcp" "local" 631 ["rp=ipp/print"] [] []
    = Ok printer_server
    /\ os_Hostname office = Some "myhost"%string)
   \/ (RegisterProxy office "Printer" "_ipp._tcp" "local" 631 "ignored" []
                     ["rp=ipp/print"] [] []
       = Ok printer_server
       /\ "myhost"%string = "ignored"%string))
  /\ exists svc,
      service printer_server = Some svc
      /\ (GoString.HasSuffix (trimDot "myhost") (Domain svc) = true ->
          HostName svc = "myhost"%string)
      /\ (GoString.HasSuffix (trimDot "myhost") (Domain svc) = false ->
          HostName svc = trimDot "myhost" +:+ "." +:+ trimDot (Domain svc) +:+ "."
          /\ GoString.HasSuffix (HostName svc) ("." +:+ trimDot (Domain svc) +:+ ".") = true).
Proof.
  split; [left; split; reflexivity|].
  apply (host_name_qualified office "Printer" "_ipp._tcp" "local" 631 "ignored" []
                             ["rp=ipp/print"] [] [] printer_server "myhost").
  left. split; reflexivity.
Defined.

(** C8: after a successful [Register] or [RegisterProxy] the host name
    should end with [.<domain>.], the domain being appended exactly when
    the supplied host lacks it.  The code misses that in two ways.  The
    test for the domain looks at the dot-trimmed host, but a host that
    passes it is kept as supplied: a proxy registered for the host
    [myhost.local] in the domain [local] keeps [myhost.local], which has
    no trailing dot.  And the test is made against the domain as given,
    not dot-trimmed: with the domain [local.], which is also the default
    of [Register], the dot-trimmed host never ends with it, and the host
    [myhost.local] becomes [myhost.local.local.], the domain appended to
    a host that carries it. *)
Theorem host_name_not_canonical :
  (exists s svc,
      RegisterProxy office "Printer" "_ipp._tcp" "local" 631 "myhost.local" []
                    ["rp=ipp/print"] [] [] = Ok s
      /\ service s = Some svc
      /\ HostName svc = "myhost.local"%string
      /\ GoString.HasSuffix (HostName svc) ("." +:+ trimDot (Domain svc) +:+ ".") = false)
  /\ (exists s svc,
         RegisterProxy office "Printer" "_ipp._tcp" "local." 631 "myhost.local" []
                       ["rp=ipp/print"] [] [] = Ok s
         /\ service s = Some svc
         /\ GoString.HasSuffix "myhost.local" ("." +:+ trimDot (Domain svc)) = true
         /\ HostName svc = "myhost.local.local."%string)
  /\ (exists s svc,
         Register dotted_office "Printer" "_ipp._tcp" "" 631 ["rp=ipp/print"] [] [] = Ok s
         /\ service s = Some svc
         /\ os_Hostname dotted_office = Some "myhost.local"%string
         /\ GoString.HasSuffix "myhost.local" ("." +:+ trimDot (Domain svc)) = true
         /\ HostName svc = "myhost.local.local."%string).
Proof.
  split; [|split].
  - eexists _, _. split; [vm_compute; reflexivity|].
    split; [reflexivity|]. split; vm_compute; reflexivity.
  - eexists _, _. split; [vm_compute; reflexivity|].
    split; [reflexivity|]. split; vm_compute; reflexivity.
  - eexists _, _. split; [vm_compute; reflexivity|].
    split; [reflexivity|]. split; [reflexivity|]. split; vm_compute; reflexivity.
Qed.

End RegisterFacts.


(* ===================================================================== *)
(** ** What the resolver delivers *)
(* ===================================================================== *)

Module ResolverFacts.
Import Dns Resolver ResolverProps.













Example ptr_only_delivery :
  fst (on_message browser 1000 ptr_only ∅)
  = [mkEntry "Printer" "_ipp._tcp" "local" [] "" 0 [] [] [] (1000 + 120 * Second) false].
Proof. vm_compute. reflexivity. Qed.


End ResolverFacts.


(* ===================================================================== *)
(** ** Read errors in the receive loops *)
(* ===================================================================== *)

Module ReceiveFacts.
Import Dns Responder Resolver ReceiveProps.

Lemma recv4_app h s unpack (reads : list ReadResult) (post : list Turn) :
  recv4 h s unpack true (running reads ++ post)
  = recv4 h s unpack true (running reads) ++ recv4 h s unpack true post.
Proof.
  induction reads as [|r reads IH]; [reflexivity|].
  simpl. destruct r as [packet cm from|err]; simpl in *.
  - rewrite IH. apply app_assoc.
  - exact IH.
Qed.

Lemma recv6_app h s unpack (reads : list ReadResult) (post : list Turn) :
  recv6 h s unpack true (running reads ++ post)
  = recv6 h s unpack true (running reads) ++ recv6 h s unpack true post.
Proof.
  induction reads as [|r reads IH]; [reflexivity|].
  simpl. destruct r as [packet cm from|err]; simpl in *.
  - rewrite IH. apply app_assoc.
  - exact IH.
Qed.

(** Once the client has met a read error, its loop ends without another
    read. *)
Lemma recv_loop_after_error unpack (post : list ClientTurn) (err : string) :
  recv_loop unpack post (Some err) = [].
Proof.
  destruct post as [|t post]; [reflexivity|].
  simpl. rewrite orb_true_r. reflexivity.
Qed.

Lemma recv_loop_cut unpack (pre : list ClientTurn) : forall (fatalErr : option string)
    (c d : bool) (err : string) (post : list ClientTurn),
  recv_loop unpack (pre ++ mkClientTurn c (ReadErr err) d :: post) fatalErr
  = recv_loop unpack pre fatalErr.
Proof.
  induction pre as [|t pre IH]; intros fatalErr c d err post; simpl.
  - destruct (c || bool_decide (is_Some fatalErr)); [reflexivity|].
    apply recv_loop_after_error.
  - destruct (ctx_ended t || bool_decide (is_Some fatalErr)); [reflexivity|].
    destruct (client_read t) as [packet cm from|err'].
    + destruct (unpack packet) as [msg|]; [|apply IH].
      destruct (done_first t); [reflexivity|]. rewrite IH. reflexivity.
    + apply IH.
Qed.

(** C6, as the code has it: in the receive loops of the server, [recv4]
    and [recv6], a read error is passed over: the loop goes on and
    handles the datagrams read after it as it would have without the
    error.  The receive loop of the client, [recv], keeps the error in
    [fatalErr] and ends at its next turn: nothing read after a read
    error is handled. *)
Theorem read_errors_in_the_loops :
  (forall h s unpack reads err post,
      recv4 h s unpack true (running reads ++ mkTurn false (ReadErr err) :: post)
      = recv4 h s unpack true (running reads) ++ recv4 h s unpack true post)
  /\ (forall h s unpack reads err post,
         recv6 h s unpack true (running reads ++ mkTurn false (ReadErr err) :: post)
         = recv6 h s unpack true (running reads) ++ recv6 h s unpack true post)
  /\ (forall unpack l pre c d err post,
         recv unpack l (pre ++ mkClientTurn c (ReadErr err) d :: post)
         = recv unpack l pre).
Proof.
  split; [|split].
  - intros. rewrite recv4_app. reflexivity.
  - intros. rewrite recv6_app. reflexivity.
  - intros unpack l pre c d err post. unfold recv.
    destruct l; try reflexivity; apply recv_loop_cut.
Qed.

(** The client reads an error, then a good datagram: the datagram is
    never sent on [msgCh], while the loop started after the error would
    have sent it.  The loop of the client does not go on after a read
    error. *)
Lemma client_recv_ends_on_read_error :
  ~ (forall unpack l err post,
       recv unpack l (mkClientTurn false (ReadErr err) false :: post)
       = recv unpack l post).
Proof.
  intros H.
  specialize (H any_codec PacketConn4 "read udp4: network is down"
                [mkClientTurn false (ReadOk "datagram" None "192.168.1.7:5353") false]).
  vm_compute in H. discriminate H.
Qed.

End ReceiveFacts.

(* ===================================================================== *)
(** ** More on utils.go *)
(* ===================================================================== *)

Module UtilsFacts.
Import GoString Chunks ChunksProps UtilsProps.

(** *** [trimDot] *)

Lemma trim_left_no_dot (s : string) : starts_with_dot (trim_left_dots s) = false.
Proof.
  induction s as [|c s IH]; [reflexivity|].
  simpl. destruct c as [[] [] [] [] [] [] [] []]; try reflexivity. exact IH.
Qed.

Lemma trim_right_start (s : string) :
  starts_with_dot s = false -> starts_with_dot (trim_right_dots s) = false.
Proof.
  destruct s as [|c s]; [reflexivity|]. simpl. intros Hc.
  destruct (trim_right_dots s); [rewrite Hc|]; simpl; exact Hc.
Qed.

Lemma trim_right_no_dot (s : string) : ends_with_dot (trim_right_dots s) = false.
Proof.
  induction s as [|c s IH]; [reflexivity|].
  simpl. destruct (trim_right_dots s) as [|d r] eqn:E.
  - destruct (Ascii.eqb c ".") eqn:Ec; simpl; [reflexivity|exact Ec].
  - exact IH.
Qed.

Lemma trim_left_id (s : string) : starts_with_dot s = false -> trim_left_dots s = s.
Proof.
  destruct s as [|c s]; [reflexivity|]. simpl. intros Hc.
  destruct c as [[] [] [] [] [] [] [] []]; try reflexivity. discriminate Hc.
Qed.

Lemma trim_right_idem (s : string) :
  trim_right_dots (trim_right_dots s) = trim_right_dots s.
Proof.
  induction s as [|c s IH]; [reflexivity|].
  simpl. destruct (trim_right_dots s) as [|d r] eqn:E.
  - destruct (Ascii.eqb c ".") eqn:Ec; simpl; [reflexivity|rewrite Ec; reflexivity].
  - change (trim_right_dots (String c (String d r)))
      with (match trim_right_dots (String d r) with
            | EmptyString => if Ascii.eqb c "." then EmptyString else String c EmptyString
            | r' => String c r'
            end).
    rewrite IH. reflexivity.
Qed.

(** [trimDot] leaves no dot at either end, and trimming twice changes
    nothing more. *)
Theorem trimDot_trims (s : string) :
  starts_with_dot (trimDot s) = false
  /\ ends_with_dot (trimDot s) = false
  /\ trimDot (trimDot s) = trimDot s.
Proof.
  unfold trimDot, Trim_dot. split; [|split].
  - apply trim_right_start, trim_left_no_dot.
  - apply trim_right_no_dot.
  - rewrite (trim_left_id (trim_right_dots (trim_left_dots s))).
    + apply trim_right_idem.
    + apply trim_right_start, trim_left_no_dot.
Qed.

(** *** [parseSubtypes] *)

Lemma Split_comma_nonempty (s : string) : Split_comma s <> [].
Proof.
  induction s as [|c s IH]; simpl; [discriminate|].
  destruct (Ascii.eqb c ","); [discriminate|].
  destruct (Split_comma s); discriminate.
Qed.

Lemma Join_Split (s : string) : Join_comma (Split_comma s) = s.
Proof.
  induction s as [|c s IH]; [reflexivity|].
  simpl. destruct (Ascii.eqb_spec c ",") as [->|Hc].
  - pose proof (Split_comma_nonempty s) as Hne.
    destruct (Split_comma s) as [|x l]; [contradiction|].
    change (Join_comma (EmptyString :: x :: l)) with ("," +:+ Join_comma (x :: l)).
    rewrite IH. reflexivity.
  - destruct (Split_comma s) as [|x l]; [simpl in IH; subst s; reflexivity|].
    destruct l as [|y l].
    + simpl in *. subst s. reflexivity.
    + change (Join_comma (String c x :: y :: l))
        with (String c (x +:+ "," +:+ Join_comma (y :: l))).
      change (Join_comma (x :: y :: l)) with (x +:+ "," +:+ Join_comma (y :: l)) in IH.
      rewrite IH. reflexivity.
Qed.

Lemma Split_no_comma (s : string) : Forall (fun x => has_comma x = false) (Split_comma s).
Proof.
  induction s as [|c s IH]; simpl; [repeat constructor|].
  destruct (Ascii.eqb c ",") eqn:Ec.
  - constructor; [reflexivity|exact IH].
  - destruct (Split_comma s) as [|x l]; [repeat constructor; simpl; rewrite Ec; reflexivity|].
    apply Forall_cons in IH. destruct IH as [Hx Hl].
    constructor; [simpl; rewrite Ec, Hx; reflexivity|exact Hl].
Qed.

(** [parseSubtypes] loses nothing: the service type and the subtypes,
    joined with commas again, are the argument; neither the service type
    nor a subtype holds a comma. *)
Theorem parseSubtypes_round_trip (service : string) :
  Join_comma (fst (parseSubtypes service) :: snd (parseSubtypes service)) = service
  /\ has_comma (fst (parseSubtypes service)) = false
  /\ Forall (fun x => has_comma x = false) (snd (parseSubtypes service)).
Proof.
  unfold parseSubtypes.
  pose proof (Join_Split service) as HJ.
  pose proof (Split_no_comma service) as HN.
  pose proof (Split_comma_nonempty service) as Hne.
  destruct (Split_comma service) as [|x l]; [contradiction|].
  apply Forall_cons in HN. simpl. tauto.
Qed.

End UtilsFacts.

(* ===================================================================== *)
(** ** More on [chunks] *)
(* ===================================================================== *)

Module ChunkSizes.
Import GoString Chunks ChunksProps UtilsProps.

Lemma climbing_weaken (l : list nat) (hi : nat) : forall lo lo' : nat,
  (lo <= lo')%nat -> climbing lo' l hi -> climbing lo l hi.
Proof. destruct l; simpl; intros; [exact I|]. intuition lia. Qed.

(** A [range] loop visits offsets inside the string, each one after the
    one before. *)
Lemma rune_starts_climbing (rest : string) : forall i skip : nat,
  climbing i (rune_starts_from rest i skip) (i + String.length rest).
Proof.
  induction rest as [|c rest IH]; intros i skip; [exact I|].
  cbn [rune_starts_from String.length].
  replace (i + S (String.length rest))%nat with (S i + String.length rest)%nat by lia.
  destruct skip.
  - split; [lia|]. apply IH.
  - apply climbing_weaken with (lo' := S i); [lia|apply IH].
Qed.

Lemma length_substring_pos (s : string) : forall a n : nat,
  (a < String.length s)%nat -> (1 <= n)%nat ->
  (1 <= String.length (String.substring a n s))%nat.
Proof.
  induction s as [|c s IH]; intros a n Ha Hn; simpl in Ha; [lia|].
  destruct a as [|a].
  - destruct n; [lia|]. simpl. lia.
  - simpl. apply IH; lia.
Qed.

Lemma length_substring_exact (s : string) : forall a n : nat,
  (a + n <= String.length s)%nat -> String.length (String.substring a n s) = n.
Proof.
  induction s as [|c s IH]; intros a n Han; simpl in Han.
  - destruct a, n; simpl; lia.
  - destruct a as [|a].
    + destruct n as [|n]; [reflexivity|]. simpl. rewrite IH; lia.
    + simpl. apply IH. lia.
Qed.

(** Loop invariant: a chunk is cut only after at least one rune was
    counted into it, so a cut never yields an empty chunk. *)
Lemma loop_cuts_nonempty (s : string) (chunkSize : Z) (l : list nat) :
  1 <= chunkSize ->
  forall (lo : nat) (st : loop_state),
    climbing lo l (String.length s) ->
    (currentStart st <= lo)%nat ->
    (1 <= currentLen st -> (currentStart st < lo)%nat) ->
    (currentStart st < String.length s)%nat ->
    Forall (fun c => (1 <= String.length c)%nat) (out st) ->
    let st' := fold_left (loop_body s chunkSize) l st in
    (currentStart st' < String.length s)%nat
    /\ Forall (fun c => (1 <= String.length c)%nat) (out st').
Proof.
  intros Hsize. induction l as [|i l IH]; intros lo st Hl Hle Hlt Hcs Hout.
  - simpl. tauto.
  - destruct Hl as [Hi Hl]. cbn [fold_left].
    apply (IH (S i)); [exact Hl|..];
      unfold loop_body; destruct (Z.eqb_spec (currentLen st) chunkSize) as [E|E];
      simpl; try lia.
    + apply Forall_app. split; [exact Hout|].
      constructor; [|constructor]. unfold slice.
      apply length_substring_pos; lia.
    + exact Hout.
Qed.

Lemma chunks_nonempty_pieces (s : string) (chunkSize : Z) :
  1 <= chunkSize ->
  Forall (fun c => (1 <= String.length c)%nat) (chunks s chunkSize).
Proof.
  intros Hsize. unfold chunks.
  destruct (Z.eqb_spec (len s) 0) as [E|E]; [constructor|].
  assert (Hs : (1 <= String.length s)%nat) by (unfold len in E; lia).
  destruct (chunkSize >=? len s); [constructor; [exact Hs|constructor]|].
  destruct (loop_cuts_nonempty s chunkSize (rune_starts s) Hsize 0 (mkLoop [] 0 0))
    as [Hcs Hout]; simpl; try lia.
  - apply (rune_starts_climbing s 0 0).
  - constructor.
  - apply Forall_app. split; [exact Hout|].
    constructor; [|constructor]. unfold slice_from, slice.
    apply length_substring_pos; lia.
Qed.

(** With a chunk size of at least 1, [chunks] never returns an empty
    string, whatever bytes the value holds. *)
Theorem chunks_no_empty_chunk (s : string) (chunkSize : Z) :
  1 <= chunkSize -> Forall (fun c => c <> EmptyString) (chunks s chunkSize).
Proof.
  intros Hsize. eapply Forall_impl; [apply chunks_nonempty_pieces, Hsize|].
  intros c Hc ->. simpl in Hc. lia.
Qed.

Lemma chunks_no_empty_chunk_witness :
  1 <= 4 /\ Forall (fun c => c <> EmptyString) (chunks "héllo wörld" 4).
Proof. split; [lia|]. apply (chunks_no_empty_chunk "héllo wörld" 4). lia. Defined.

(** Over one-byte runes every cut is made after exactly [chunkSize]
    bytes. *)
Lemma loop_exact_bytes (s : string) (chunkSize : Z) (n : nat) :
  1 <= chunkSize ->
  forall (i : nat) (st : loop_state),
    (i + n <= String.length s)%nat ->
    (currentStart st <= i)%nat ->
    currentLen st = Z.of_nat (i - currentStart st) ->
    currentLen st <= chunkSize ->
    Forall (fun c => len c = chunkSize) (out st) ->
    let st' := fold_left (loop_body s chunkSize) (seq i n) st in
    (currentStart st' <= i + n)%nat
    /\ currentLen st' = Z.of_nat (i + n - currentStart st')
    /\ currentLen st' <= chunkSize
    /\ (1 <= currentLen st \/ (1 <= n)%nat -> 1 <= currentLen st')
    /\ Forall (fun c => len c = chunkSize) (out st').
Proof.
  intros Hsize. induction n as [|n IH]; intros i st Hin Hle Hlen Hmax Hout.
  - simpl. rewrite Nat.add_0_r. intuition lia.
  - cbn [seq fold_left].
    replace (i + S n)%nat with (S i + n)%nat by lia.
    destruct (IH (S i) (loop_body s chunkSize st i)) as (H1 & H2 & H3 & H4 & H5);
      unfold loop_body; destruct (Z.eqb_spec (currentLen st) chunkSize) as [E|E];
      simpl; try lia.
    + apply Forall_app. split; [exact Hout|].
      constructor; [|constructor]. unfold len, slice.
      rewrite length_substring_exact; lia.
    + exact Hout.
    + unfold loop_body in *. destruct (Z.eqb_spec (currentLen st) chunkSize); [|lia].
      simpl in *. repeat split; try assumption. intros _. apply H4. lia.
    + unfold loop_body in *. destruct (Z.eqb_spec (currentLen st) chunkSize); [lia|].
      simpl in *. repeat split; try assumption. intros _. apply H4. lia.
Qed.

(** For a value of one-byte runes that is longer than the chunk size,
    every chunk but the last is exactly [chunkSize] bytes long and the
    last holds between 1 and [chunkSize] bytes. *)
Theorem chunks_ascii_exact (s : string) (chunkSize : Z) :
  1 <= chunkSize -> is_ascii s = true -> chunkSize < len s ->
  exists full last,
    chunks s chunkSize = full ++ [last]
    /\ Forall (fun c => len c = chunkSize) full
    /\ 1 <= len last <= chunkSize.
Proof.
  intros Hsize Hasc Hlong. unfold chunks.
  destruct (Z.eqb_spec (len s) 0) as [E|E]; [lia|].
  destruct (Z.geb_spec chunkSize (len s)); [lia|].
  unfold rune_starts. rewrite (ChunksFacts.rune_starts_ascii s 0 Hasc).
  destruct (loop_exact_bytes s chunkSize (String.length s) Hsize 0 (mkLoop [] 0 0))
    as (Hcs & Hcl & Hmax & Hpos & Hout); simpl; try lia; [constructor|].
  eexists _, _. split; [reflexivity|]. split; [exact Hout|].
  simpl in Hcl, Hpos. unfold len, slice_from, slice.
  rewrite length_substring_exact by lia.
  assert (1 <= currentLen
                 (fold_left (loop_body s chunkSize) (seq 0 (String.length s)) (mkLoop [] 0 0))).
  { apply Hpos. right. unfold len in E. lia. }
  lia.
Qed.

Lemma chunks_ascii_exact_witness :
  1 <= 3 /\ is_ascii "abcdefg" = true /\ 3 < len "abcdefg"
  /\ exists full last,
      chunks "abcdefg" 3 = full ++ [last]
      /\ Forall (fun c => len c = 3) full
      /\ 1 <= len last <= 3.
Proof.
  split; [lia|]. split; [reflexivity|]. split; [reflexivity|].
  apply (chunks_ascii_exact "abcdefg" 3); [lia|reflexivity|reflexivity].
Defined.

Lemma chunks_ascii_bounded_witness :
  1 <= 3 /\ is_ascii "abcdefg" = true
  /\ Forall (fun c => len c <= 3) (chunks "abcdefg" 3).
Proof.
  split; [lia|]. split; [reflexivity|].
  apply (ChunksFacts.chunks_ascii_bounded "abcdefg" 3); [lia|reflexivity].
Defined.

End ChunkSizes.

(* ===================================================================== *)
(** ** Constructing a responder *)
(* ===================================================================== *)

Module ConstructionFacts.
Import Responder ResponderProps ConstructionProps.

(** *** Options *)

Lemma nil_options_skipped (nils : list (option ServerOption)) : forall conf : serverOpts,
  Forall (fun o => o = None) nils ->
  fold_left (fun conf o => match o with Some f => f conf | None => conf end) nils conf
  = conf.
Proof.
  induction nils as [|o nils IH]; intros conf Hn; [reflexivity|].
  apply Forall_cons in Hn. destruct Hn as [-> Hn]. simpl. apply IH, Hn.
Qed.

(** [applyServerOpts]: a [nil] option is skipped; without a TTL option
    the TTL is the default 3200; the last TTL option given is the one
    that counts. *)
Theorem last_TTL_option_wins (nils : list (option ServerOption)) :
  Forall (fun o => o = None) nils ->
  opt_ttl (applyServerOpts nils) = 3200
  /\ forall opts t, opt_ttl (applyServerOpts (opts ++ Some (TTL t) :: nils)) = t.
Proof.
  intros Hn. unfold applyServerOpts. split.
  - rewrite nil_options_skipped by exact Hn. reflexivity.
  - intros opts t. rewrite fold_left_app. simpl.
    rewrite nil_options_skipped by exact Hn. reflexivity.
Qed.

Lemma last_TTL_option_wins_witness :
  Forall (fun o : option ServerOption => o = None) [None]
  /\ opt_ttl (applyServerOpts [None]) = 3200
  /\ forall opts t, opt_ttl (applyServerOpts (opts ++ Some (TTL t) :: [None])) = t.
Proof.
  split; [repeat constructor|].
  apply (last_TTL_option_wins [None]). repeat constructor.
Defined.

(** *** The addresses of an interface *)

Lemma addrsForInterface_filters (iface : Interface) :
  addrsForInterface iface
  = (List.filter usable_v4 (ipnets iface),
     match List.filter usable_global_v6 (ipnets iface) with
     | [] => List.filter usable_local_v6 (ipnets iface)
     | g => g
     end).
Proof.
  unfold addrsForInterface, ipnets.
  assert (H : forall (l : list NetAddr) (v4 v6 v6local : list IP),
             fold_left
               (fun '(v4, v6, v6local) address =>
                  match address with
                  | IPNet ip =>
                    if negb (IsLoopback ip) then
                      if To4_ok ip then (v4 ++ [ip], v6, v6local)
                      else if IsGlobalUnicast ip then (v4, v6 ++ [ip], v6local)
                      else if IsLinkLocalUnicast ip then (v4, v6, v6local ++ [ip])
                      else (v4, v6, v6local)
                    else (v4, v6, v6local)
                  | OtherAddr => (v4, v6, v6local)
                  end) l (v4, v6, v6local)
             = (v4 ++ List.filter usable_v4
                        (flat_map (fun a => match a with IPNet ip => [ip] | OtherAddr => [] end) l),
                v6 ++ List.filter usable_global_v6
                        (flat_map (fun a => match a with IPNet ip => [ip] | OtherAddr => [] end) l),
                v6local ++ List.filter usable_local_v6
                        (flat_map (fun a => match a with IPNet ip => [ip] | OtherAddr => [] end) l))).
  { induction l as [|a l IH]; intros v4 v6 v6local; simpl.
    - rewrite !app_nil_r. reflexivity.
    - destruct a as [ip|]; [|apply IH].
      unfold usable_v4, usable_global_v6, usable_local_v6. simpl.
      destruct (IsLoopback ip); simpl; [apply IH|].
      destruct (To4_ok ip); simpl; [rewrite IH, <- app_assoc; reflexivity|].
      destruct (IsGlobalUnicast ip); simpl; [rewrite IH, <- app_assoc; reflexivity|].
      destruct (IsLinkLocalUnicast ip); simpl; [rewrite IH, <- app_assoc; reflexivity|].
      apply IH. }
  rewrite (H (Addrs iface) [] [] []). simpl.
  destruct (List.filter usable_global_v6 _); reflexivity.
Qed.

(** [addrsForInterface] returns no loopback address; the first list
    holds exactly the IPv4 addresses of the interface, in order; the
    second holds IPv6 addresses only, and link-local ones only when the
    interface has no global unicast IPv6 address. *)
Theorem addrsForInterface_selects (iface : Interface) :
  fst (addrsForInterface iface) = List.filter usable_v4 (ipnets iface)
  /\ Forall (fun ip => IsLoopback ip = false /\ To4_ok ip = true)
            (fst (addrsForInterface iface))
  /\ Forall (fun ip => IsLoopback ip = false /\ To4_ok ip = false
                       /\ (IsGlobalUnicast ip = true \/ IsLinkLocalUnicast ip = true))
            (snd (addrsForInterface iface))
  /\ (List.filter usable_global_v6 (ipnets iface) <> [] ->
      snd (addrsForInterface iface) = List.filter usable_global_v6 (ipnets iface))
  /\ (List.filter usable_global_v6 (ipnets iface) = [] ->
      snd (addrsForInterface iface) = List.filter usable_local_v6 (ipnets iface)).
Proof.
  rewrite addrsForInterface_filters. simpl.
  split; [reflexivity|]. split; [|split; [|split]].
  - apply List.Forall_forall. intros ip Hin. apply filter_In in Hin.
    destruct Hin as [_ Hu]. unfold usable_v4 in Hu.
    apply andb_true_iff in Hu. destruct Hu as [Hl Ht].
    apply negb_true_iff in Hl. tauto.
  - apply List.Forall_forall. intros ip Hin.
    destruct (List.filter usable_global_v6 (ipnets iface)) as [|g gs] eqn:E.
    + apply filter_In in Hin. destruct Hin as [_ Hu]. unfold usable_local_v6 in Hu.
      repeat (apply andb_true_iff in Hu; destruct Hu as [Hu ?]).
      rewrite !negb_true_iff in *. tauto.
    + rewrite <- E in Hin. apply filter_In in Hin. destruct Hin as [_ Hu].
      unfold usable_global_v6 in Hu.
      repeat (apply andb_true_iff in Hu; destruct Hu as [Hu ?]).
      rewrite !negb_true_iff in *. tauto.
  - intros Hne. destruct (List.filter usable_global_v6 (ipnets iface)); [contradiction|].
    reflexivity.
  - intros ->. reflexivity.
Qed.

(** *** [Register] and [RegisterProxy] *)

Lemma address_loop_fields (ifaces : list Interface) : forall e : ServiceEntry,
  let e' :=
    fold_left
      (fun e iface =>
         let '(v4, v6) := addrsForInterface iface in
         set_AddrIPv6 (AddrIPv6 e ++ v6) (set_AddrIPv4 (AddrIPv4 e ++ v4) e))
      ifaces e in
  Instance e' = Instance e /\ Service e' = Service e /\ Subtypes e' = Subtypes e
  /\ Port e' = Port e /\ Text e' = Text e
  /\ AddrIPv4 e' = AddrIPv4 e ++ flat_map (fun i => fst (addrsForInterface i)) ifaces
  /\ AddrIPv6 e' = AddrIPv6 e ++ flat_map (fun i => snd (addrsForInterface i)) ifaces.
Proof.
  induction ifaces as [|i ifaces IH]; intros e; simpl.
  - rewrite !app_nil_r. tauto.
  - destruct (addrsForInterface i) as [v4 v6] eqn:E.
    specialize (IH (set_AddrIPv6 (AddrIPv6 e ++ v6) (set_AddrIPv4 (AddrIPv4 e ++ v4) e))).
    simpl in IH. rewrite <- !app_assoc in IH. exact IH.
Qed.

Lemma qualify_host_fields (e : ServiceEntry) :
  let e' := qualify_host e in
  Instance e' = Instance e /\ Service e' = Service e /\ Subtypes e' = Subtypes e
  /\ Port e' = Port e /\ Text e' = Text e
  /\ AddrIPv4 e' = AddrIPv4 e /\ AddrIPv6 e' = AddrIPv6 e.
Proof.
  unfold qualify_host. destruct (negb _); simpl; tauto.
Qed.

Lemma newServer_ok h (ifs : list Interface) (o : serverOpts) (s : Server) :
  newServer h ifs o = Ok s ->
  service s = None /\ ifaces s = ifs /\ ttl s = opt_ttl o
  /\ ipv4conn s = joinUdp4Multicast h ifs /\ ipv6conn s = joinUdp6Multicast h ifs
  /\ (ipv4conn s = true \/ ipv6conn s = true).
Proof.
  unfold newServer.
  destruct (joinUdp4Multicast h ifs), (joinUdp6Multicast h ifs); simpl;
    try discriminate; intros [= <-]; simpl; tauto.
Qed.

(** A responder that [Register] returns has what it needs to answer: an
    instance name, a service type and a port that are not empty or
    zero, the text given, the addresses of the interfaces it works on
    (at least one), a connection for at least one IP family, and the
    TTL the options give.  The interfaces are the ones passed, or the
    multicast interfaces of the host when none is passed. *)
Theorem Register_postcondition h instance stype domain port text ifaces opts
    (s : Server) :
  Register h instance stype domain port text ifaces opts = Ok s ->
  exists svc,
    service s = Some svc
    /\ Instance svc = instance /\ instance <> EmptyString
    /\ Service svc = fst (parseSubtypes stype) /\ Service svc <> EmptyString
    /\ Subtypes svc = snd (parseSubtypes stype)
    /\ Port svc = port /\ port <> 0
    /\ Text svc = text
    /\ AddrIPv4 svc
       = flat_map (fun i => fst (addrsForInterface i)) (interfaces_used h ifaces)
    /\ AddrIPv6 svc
       = flat_map (fun i => snd (addrsForInterface i)) (interfaces_used h ifaces)
    /\ (AddrIPv4 svc <> [] \/ AddrIPv6 svc <> [])
    /\ Responder.ifaces s = interfaces_used h ifaces
    /\ ttl s = opt_ttl (applyServerOpts opts)
    /\ (ipv4conn s = true \/ ipv6conn s = true).
Proof.
  unfold Register, newServiceEntry.
  destruct (parseSubtypes stype) as [sv subs]. simpl.
  destruct (String.eqb_spec instance ""); [discriminate|].
  destruct (String.eqb_spec sv ""); [discriminate|].
  set (e0 := if String.eqb domain "" then _ else _).
  assert (He0 : Instance e0 = instance /\ Service e0 = sv /\ Subtypes e0 = subs
                /\ Port e0 = port /\ Text e0 = text /\ HostName e0 = EmptyString
                /\ AddrIPv4 e0 = [] /\ AddrIPv6 e0 = []).
  { unfold e0. destruct (String.eqb domain ""); simpl; tauto. }
  destruct He0 as (HI & HS & HSub & HP & HT & HH & H4 & H6).
  rewrite HP, HH. destruct (Z.eqb_spec port 0); [discriminate|]. simpl.
  destruct (os_Hostname h) as [hn|]; [|discriminate].
  fold (interfaces_used h ifaces).
  match goal with
  | |- context [fold_left ?f ?l ?e] =>
    pose proof (address_loop_fields l e) as Hloop; set (e1 := fold_left f l e) in *
  end.
  simpl in Hloop.
  pose proof (qualify_host_fields (set_HostName hn e0)) as Hq. simpl in Hq.
  destruct Hloop as (L1 & L2 & L3 & L4 & L5 & L6 & L7).
  destruct Hq as (Q1 & Q2 & Q3 & Q4 & Q5 & Q6 & Q7).
  rewrite Q6, H4 in L6. rewrite Q7, H6 in L7. simpl in L6, L7.
  assert (Haddr : AddrIPv4 e1 <> [] \/ AddrIPv6 e1 <> [] ->
          forall s0, newServer h (interfaces_used h ifaces) (applyServerOpts opts) = Ok s0 ->
          exists svc,
            service (set_service e1 s0) = Some svc
            /\ Instance svc = instance /\ instance <> EmptyString
            /\ Service svc = sv /\ Service svc <> EmptyString
            /\ Subtypes svc = subs
            /\ Port svc = port /\ port <> 0
            /\ Text svc = text
            /\ AddrIPv4 svc
               = flat_map (fun i => fst (addrsForInterface i)) (interfaces_used h ifaces)
            /\ AddrIPv6 svc
               = flat_map (fun i => snd (addrsForInterface i)) (interfaces_used h ifaces)
            /\ (AddrIPv4 svc <> [] \/ AddrIPv6 svc <> [])
            /\ Responder.ifaces (set_service e1 s0) = interfaces_used h ifaces
            /\ ttl (set_service e1 s0) = opt_ttl (applyServerOpts opts)
            /\ (ipv4conn (set_service e1 s0) = true \/ ipv6conn (set_service e1 s0) = true)).
  { intros Hne s0 Hs0. apply newServer_ok in Hs0.
    destruct Hs0 as (_ & Hif & Httl & _ & _ & Hconn).
    exists e1. simpl.
    rewrite L1, L2, L3, L4, L5, Q1, Q2, Q3, Q4, Q5, HI, HS, HSub, HP, HT.
    repeat split; try assumption; try reflexivity; congruence. }
  destruct (AddrIPv4 e1) as [|a4 l4] eqn:E4, (AddrIPv6 e1) as [|a6 l6] eqn:E6;
    try discriminate;
    (destruct (newServer h (interfaces_used h ifaces) (applyServerOpts opts)) as [s0|] eqn:Es;
     [|discriminate]);
    intros [= <-]; apply Haddr; try reflexivity;
    [right|left|left]; discriminate.
Qed.

Lemma Register_postcondition_witness :
  Register office "Printer" "_ipp._tcp" "local" 631 ["rp=ipp/print"] [] []
  = Ok printer_server
  /\ exists svc,
      service printer_server = Some svc
      /\ Instance svc = "Printer"%string /\ "Printer"%string <> EmptyString
      /\ Service svc = fst (parseSubtypes "_ipp._tcp") /\ Service svc <> EmptyString
      /\ Subtypes svc = snd (parseSubtypes "_ipp._tcp")
      /\ Port svc = 631 /\ 631 <> 0
      /\ Text svc = ["rp=ipp/print"]%string
      /\ AddrIPv4 svc
         = flat_map (fun i => fst (addrsForInterface i)) (interfaces_used office [])
      /\ AddrIPv6 svc
         = flat_map (fun i => snd (addrsForInterface i)) (interfaces_used office [])
      /\ (AddrIPv4 svc <> [] \/ AddrIPv6 svc <> [])
      /\ Responder.ifaces printer_server = interfaces_used office []
      /\ ttl printer_server = opt_ttl (applyServerOpts [])
      /\ (ipv4conn printer_server = true \/ ipv6conn printer_server = true).
Proof.
  split; [reflexivity|].
  apply (Register_postcondition office "Printer" "_ipp._tcp" "local" 631 ["rp=ipp/print"]
                                [] [] printer_server).
  reflexivity.
Defined.

Lemma add_ips_fields h (ips : list string) : forall e e' : ServiceEntry,
  add_ips h ips e = Ok e' ->
  exists parsed : list IP,
    Forall2 (fun ip a => ParseIP h ip = Some a) ips parsed
    /\ AddrIPv4 e' = AddrIPv4 e ++ List.filter To4_ok parsed
    /\ AddrIPv6 e' = AddrIPv6 e ++ List.filter (fun a => negb (To4_ok a)) parsed
    /\ Instance e' = Instance e /\ Service e' = Service e /\ Subtypes e' = Subtypes e
    /\ Port e' = Port e /\ Text e' = Text e.
Proof.
  induction ips as [|ip ips IH]; intros e e'; simpl.
  - intros [= <-]. exists []. rewrite !app_nil_r. repeat split; constructor.
  - destruct (ParseIP h ip) as [a|] eqn:Ea; [|discriminate].
    destruct (To4_ok a) eqn:E4; intros H; apply IH in H;
      destruct H as (parsed & HF & H4 & H6 & Hrest); simpl in *;
      exists (a :: parsed); simpl; rewrite E4; simpl;
      (split; [constructor; assumption|]);
      rewrite H4, H6, <- ?app_assoc; simpl; tauto.
Qed.

(** A responder that [RegisterProxy] returns has a non-empty instance
    name, service type and host, a port that is not 0 and the text
    given; every address given was parsed, the IPv4 ones are in
    [AddrIPv4] and the others in [AddrIPv6], each in the order given.
    No address at all is accepted too. *)
Theorem RegisterProxy_postcondition h instance stype domain port host ips text ifaces opts
    (s : Server) :
  RegisterProxy h instance stype domain port host ips text ifaces opts = Ok s ->
  exists svc parsed,
    service s = Some svc
    /\ Instance svc = instance /\ instance <> EmptyString
    /\ Service svc = fst (parseSubtypes stype) /\ Service svc <> EmptyString
    /\ host <> EmptyString
    /\ Port svc = port /\ port <> 0
    /\ Text svc = text
    /\ Forall2 (fun ip a => ParseIP h ip = Some a) ips parsed
    /\ AddrIPv4 svc = List.filter To4_ok parsed
    /\ AddrIPv6 svc = List.filter (fun a => negb (To4_ok a)) parsed
    /\ Responder.ifaces s = interfaces_used h ifaces
    /\ ttl s = opt_ttl (applyServerOpts opts)
    /\ (ipv4conn s = true \/ ipv6conn s = true).
Proof.
  unfold RegisterProxy, newServiceEntry.
  destruct (parseSubtypes stype) as [sv subs]. simpl.
  destruct (String.eqb_spec instance ""); [discriminate|].
  destruct (String.eqb_spec sv ""); [discriminate|].
  destruct (String.eqb_spec host ""); [discriminate|].
  set (e0 := if String.eqb domain "" then _ else _).
  assert (He0 : Instance e0 = instance /\ Service e0 = sv /\ Subtypes e0 = subs
                /\ Port e0 = port /\ Text e0 = text
                /\ AddrIPv4 e0 = [] /\ AddrIPv6 e0 = []).
  { unfold e0. destruct (String.eqb domain ""); simpl; tauto. }
  destruct He0 as (HI & HS & HSub & HP & HT & H4 & H6).
  rewrite HP. destruct (Z.eqb_spec port 0); [discriminate|].
  destruct (add_ips h ips (qualify_host e0)) as [e1|] eqn:E1; [|discriminate].
  apply add_ips_fields in E1.
  destruct E1 as (parsed & HF & A4 & A6 & F1 & F2 & F3 & F4 & F5).
  pose proof (qualify_host_fields e0) as Hq. simpl in Hq.
  destruct Hq as (Q1 & Q2 & Q3 & Q4 & Q5 & Q6 & Q7).
  rewrite Q6, H4 in A4. rewrite Q7, H6 in A6. simpl in A4, A6.
  fold (interfaces_used h ifaces).
  destruct (newServer h (interfaces_used h ifaces) (applyServerOpts opts)) as [s0|] eqn:Es;
    [|discriminate].
  apply newServer_ok in Es. destruct Es as (_ & Hif & Httl & _ & _ & Hconn).
  intros [= <-]. exists e1, parsed. simpl.
  rewrite F1, F2, F4, F5, Q1, Q2, Q4, Q5, HI, HS, HP, HT.
  repeat split; try assumption; try reflexivity.
Qed.

Lemma RegisterProxy_postcondition_witness :
  RegisterProxy office "Printer" "_ipp._tcp" "local" 631 "myhost" [] ["rp=ipp/print"] [] []
  = Ok proxy_server
  /\ exists svc parsed,
      service proxy_server = Some svc
      /\ Instance svc = "Printer"%string /\ "Printer"%string <> EmptyString
      /\ Service svc = fst (parseSubtypes "_ipp._tcp") /\ Service svc <> EmptyString
      /\ "myhost"%string <> EmptyString
      /\ Port svc = 631 /\ 631 <> 0
      /\ Text svc = ["rp=ipp/print"]%string
      /\ Forall2 (fun ip a => ParseIP office ip = Some a) [] parsed
      /\ AddrIPv4 svc = List.filter To4_ok parsed
      /\ AddrIPv6 svc = List.filter (fun a => negb (To4_ok a)) parsed
      /\ Responder.ifaces proxy_server = interfaces_used office []
      /\ ttl proxy_server = opt_ttl (applyServerOpts [])
      /\ (ipv4conn proxy_server = true \/ ipv6conn proxy_server = true).
Proof.
  split; [reflexivity|].
  apply (RegisterProxy_postcondition office "Printer" "_ipp._tcp" "local" 631 "myhost" []
                                     ["rp=ipp/print"] [] []).
  reflexivity.
Defined.

End ConstructionFacts.

(* ===================================================================== *)
(** ** More on the answers of the responder *)
(* ===================================================================== *)

Module AnswerFacts.
Import Dns Responder ResponderProps ConstructionProps AnswerProps.

(** *** Where the address records come from *)

Lemma appendAddrs_records h svc rrs t ifIndex flushCache :
  appendAddrs h svc rrs t ifIndex flushCache
  = rrs ++
    match AddrIPv4 svc, AddrIPv6 svc with
    | [], [] =>
      match InterfaceByIndex h ifIndex with
      | Some iface =>
        address_records (HostName svc) t flushCache
                        (fst (addrsForInterface iface)) (snd (addrsForInterface iface))
      | None => []
      end
    | v4, v6 => address_records (HostName svc) t flushCache v4 v6
    end.
Proof.
  unfold appendAddrs, address_records, address_class, address_ttl.
  destruct (AddrIPv4 svc) as [|a4 l4], (AddrIPv6 svc) as [|a6 l6];
    try (rewrite !ResponderFacts.fold_append_map, <- app_assoc; reflexivity).
  destruct (InterfaceByIndex h ifIndex) as [iface|].
  - destruct (addrsForInterface iface) as [v4 v6]. simpl.
    rewrite !ResponderFacts.fold_append_map, <- app_assoc. reflexivity.
  - simpl. rewrite app_nil_r. reflexivity.
Qed.

(** When the entry has addresses of its own, [appendAddrs] appends one
    record for each of them, A records first, and neither the host nor
    the interface index matters. *)
Theorem own_addresses_win h svc rrs t ifIndex flushCache :
  AddrIPv4 svc <> [] \/ AddrIPv6 svc <> [] ->
  appendAddrs h svc rrs t ifIndex flushCache
  = rrs ++ address_records (HostName svc) t flushCache (AddrIPv4 svc) (AddrIPv6 svc)
  /\ forall h' ifIndex',
      appendAddrs h' svc rrs t ifIndex' flushCache
      = appendAddrs h svc rrs t ifIndex flushCache.
Proof.
  intros Hown.
  assert (H : forall h0 i0,
             appendAddrs h0 svc rrs t i0 flushCache
             = rrs ++ address_records (HostName svc) t flushCache
                                      (AddrIPv4 svc) (AddrIPv6 svc)).
  { intros h0 i0. rewrite appendAddrs_records.
    destruct (AddrIPv4 svc), (AddrIPv6 svc); try reflexivity.
    destruct Hown; contradiction. }
  split; [apply H|]. intros h' i'. rewrite !H. reflexivity.
Qed.

Lemma own_addresses_win_witness :
  (AddrIPv4 printer <> [] \/ AddrIPv6 printer <> [])
  /\ appendAddrs office printer [] 3200 2 true
     = [] ++ address_records (HostName printer) 3200 true
                            (AddrIPv4 printer) (AddrIPv6 printer)
  /\ forall h' ifIndex',
      appendAddrs h' printer [] 3200 ifIndex' true
      = appendAddrs office printer [] 3200 2 true.
Proof.
  split; [left; discriminate|].
  apply (own_addresses_win office printer [] 3200 2 true). left. discriminate.
Defined.

(** A service without addresses of its own (a proxy registered without
    IPs) takes them from the interface a message is composed for.  The
    goodbye and the announcement of [SetText] are composed for the
    index 0, which is no interface: they carry no A or AAAA record,
    while a reply on a real interface carries the addresses of that
    interface. *)
Theorem no_interface_no_address h s svc text :
  AddrIPv4 svc = [] -> AddrIPv6 svc = [] ->
  Forall (fun rr => is_address rr = false) (records (message (unregister h s svc)))
  /\ Forall (fun rr => is_address rr = false)
            (records (message (snd (SetText h s svc text))))
  /\ forall rrs t ifIndex flushCache iface,
      InterfaceByIndex h ifIndex = Some iface ->
      appendAddrs h svc rrs t ifIndex flushCache
      = rrs ++ address_records (HostName svc) t flushCache
                               (fst (addrsForInterface iface))
                               (snd (addrsForInterface iface)).
Proof.
  intros H4 H6. split; [|split].
  - unfold unregister, message, records.
    destruct (ResponderFacts.composeLookupAnswers_rest h svc
                (set_Extra [] (set_Answer [] (set_Response true zero))) 0 0 true)
      as (-> & -> & _).
    rewrite ResponderFacts.composeLookupAnswers_Answer, appendAddrs_records, H4, H6.
    simpl. rewrite !app_nil_r.
    do 4 (constructor; [reflexivity|]).
    apply ResponderFacts.Forall_map_all. reflexivity.
  - change (message (snd (SetText h s svc text)))
      with (composeBrowsingAnswers h s (set_Text text svc) (set_Response true zero) 0).
    unfold records.
    rewrite ResponderFacts.composeBrowsingAnswers_Answer,
            ResponderFacts.composeBrowsingAnswers_Extra, appendAddrs_records.
    change (AddrIPv4 (set_Text text svc)) with (AddrIPv4 svc).
    change (AddrIPv6 (set_Text text svc)) with (AddrIPv6 svc).
    rewrite H4, H6. simpl. repeat constructor.
  - intros rrs t ifIndex flushCache iface Hif.
    rewrite appendAddrs_records, H4, H6, Hif. reflexivity.
Qed.

Lemma no_interface_no_address_witness :
  AddrIPv4 proxy = [] /\ AddrIPv6 proxy = []
  /\ Forall (fun rr => is_address rr = false)
            (records (message (unregister office proxy_server proxy)))
  /\ Forall (fun rr => is_address rr = false)
            (records (message (snd (SetText office proxy_server proxy ["a=b"]))))
  /\ forall rrs t ifIndex flushCache iface,
      InterfaceByIndex office ifIndex = Some iface ->
      appendAddrs office proxy rrs t ifIndex flushCache
      = rrs ++ address_records (HostName proxy) t flushCache
                               (fst (addrsForInterface iface))
                               (snd (addrsForInterface iface)).
Proof.
  split; [reflexivity|]. split; [reflexivity|].
  apply (no_interface_no_address office proxy_server proxy ["a=b"]); reflexivity.
Defined.

(** *** What a reply looks like *)

Lemma sections_changed_refl (resp : Msg) : sections_changed resp resp.
Proof. exists (Answer resp), (Extra resp). destruct resp. reflexivity. Qed.

Lemma sections_changed_trans (a b c : Msg) :
  sections_changed a b -> sections_changed b c -> sections_changed a c.
Proof.
  intros (x & y & ->) (x' & y' & ->). exists x', y'. destruct a. reflexivity.
Qed.

Lemma set_Answer_changes (l : list RR) (resp : Msg) : sections_changed resp (set_Answer l resp).
Proof. exists l, (Extra resp). destruct resp. reflexivity. Qed.

Lemma set_Extra_changes (l : list RR) (resp : Msg) : sections_changed resp (set_Extra l resp).
Proof. exists (Answer resp), l. destruct resp. reflexivity. Qed.

Lemma lookup_changes_sections h svc resp t ifIndex flushCache :
  sections_changed resp (composeLookupAnswers h svc resp t ifIndex flushCache).
Proof.
  unfold composeLookupAnswers.
  eapply sections_changed_trans; [|apply set_Answer_changes].
  match goal with
  | |- sections_changed _ (fold_left ?f ?l ?r) =>
    assert (H : forall (subs : list string) (m : Msg),
               sections_changed m (fold_left f subs m))
  end.
  { induction subs as [|x subs IH]; intros m; simpl; [apply sections_changed_refl|].
    eapply sections_changed_trans; [|apply IH]. apply set_Answer_changes. }
  eapply sections_changed_trans; [|apply H]. apply set_Answer_changes.
Qed.

Lemma browsing_changes_sections h s svc resp ifIndex :
  sections_changed resp (composeBrowsingAnswers h s svc resp ifIndex).
Proof.
  unfold composeBrowsingAnswers.
  eapply sections_changed_trans; [|apply set_Extra_changes].
  eapply sections_changed_trans; [|apply set_Extra_changes].
  apply set_Answer_changes.
Qed.

Lemma suppress_changes_sections resp resp' query :
  sections_changed resp resp' -> sections_changed resp (suppress_known resp' query).
Proof.
  intros H. unfold suppress_known. destruct (isKnownAnswer resp' query); [|exact H].
  eapply sections_changed_trans; [exact H|apply set_Answer_changes].
Qed.

(** [handleQuestion] writes the Answer and Extra sections and nothing
    else of the response. *)
Lemma handleQuestion_changes_sections h s q resp query ifIndex :
  sections_changed resp (handleQuestion h s q resp query ifIndex).
Proof.
  unfold handleQuestion.
  destruct (service s) as [svc|]; [|apply sections_changed_refl].
  destruct (String.eqb _ _).
  { apply suppress_changes_sections. unfold serviceTypeName. apply set_Answer_changes. }
  destruct (String.eqb _ _).
  { apply suppress_changes_sections, browsing_changes_sections. }
  destruct (String.eqb _ _).
  { apply lookup_changes_sections. }
  induction (Subtypes svc) as [|x subs IH]; simpl; [apply sections_changed_refl|].
  destruct (String.eqb _ _); [|exact IH].
  apply suppress_changes_sections, browsing_changes_sections.
Qed.

Lemma handleQuery_sends h s query ifIndex from (e : Send) :
  In e (handleQuery h s query ifIndex from) ->
  exists q,
    In q (Questions query)
    /\ message e = handleQuestion h s q (blank_reply query) query ifIndex
    /\ Answer (message e) <> []
    /\ sent_on ifIndex from e.
Proof.
  unfold handleQuery. destruct (Ns query); [|intros []].
  intros Hin. apply in_flat_map in Hin. destruct Hin as [q [Hq Hin]].
  exists q. split; [exact Hq|]. unfold answerQuestion in Hin.
  destruct (Answer (handleQuestion h s q (blank_reply query) query ifIndex)) eqn:EA;
    [destruct Hin|].
  destruct (isUnicastQuestion q); destruct Hin as [<-|[]]; simpl;
    rewrite EA; repeat split; discriminate.
Qed.

(** Every response to an inbound question is a well-formed mDNS reply
    to that query: it has the id and the opcode of the query, QR=1,
    AA=1, RD=0, the success code, compression on, no question, no
    authority record and at least one answer; and it is sent on the
    interface the query came in on, a unicast one to the sender. *)
Theorem reply_envelope h s query ifIndex from (e : Send) :
  In e (handleQuery h s query ifIndex from) ->
  Id (message e) = Id query
  /\ Opcode (message e) = Opcode query
  /\ Response (message e) = true
  /\ Authoritative (message e) = true
  /\ RecursionDesired (message e) = false
  /\ Rcode (message e) = RcodeSuccess
  /\ Compress (message e) = true
  /\ Questions (message e) = []
  /\ Ns (message e) = []
  /\ Answer (message e) <> []
  /\ sent_on ifIndex from e.
Proof.
  intros Hin. apply handleQuery_sends in Hin.
  destruct Hin as (q & _ & Hm & Hans & Hon).
  destruct (handleQuestion_changes_sections h s q (blank_reply query) query ifIndex)
    as (answer & extra & Hch).
  rewrite Hm in *. rewrite Hch in *. simpl. simpl in Hans. tauto.
Qed.

Lemma reply_envelope_witness :
  In browse_reply (handleQuery office printer_server browse_query 2 "192.168.1.7:5353")
  /\ Id (message browse_reply) = Id browse_query
  /\ Opcode (message browse_reply) = Opcode browse_query
  /\ Response (message browse_reply) = true
  /\ Authoritative (message browse_reply) = true
  /\ RecursionDesired (message browse_reply) = false
  /\ Rcode (message browse_reply) = RcodeSuccess
  /\ Compress (message browse_reply) = true
  /\ Questions (message browse_reply) = []
  /\ Ns (message browse_reply) = []
  /\ Answer (message browse_reply) <> []
  /\ sent_on 2 "192.168.1.7:5353" browse_reply.
Proof.
  split; [left; reflexivity|].
  apply (reply_envelope office printer_server browse_query 2 "192.168.1.7:5353"
                        browse_reply).
  left. reflexivity.
Defined.

(** *** What the responder does not answer *)

Lemma answerQuestion_short h s query ifIndex from q :
  (List.length (answerQuestion h s query ifIndex from q) <= 1)%nat.
Proof.
  unfold answerQuestion.
  destruct (Answer _); [simpl; lia|].
  destruct (isUnicastQuestion q); simpl; lia.
Qed.

(** [handleQuery] sends at most one response for each question; it
    sends nothing for a query with an authority section, so the probe of
    a responder, its own or another one's, is never answered. *)
Theorem handleQuery_restraint h s query ifIndex from :
  (List.length (handleQuery h s query ifIndex from) <= List.length (Questions query))%nat
  /\ (Ns query <> [] -> handleQuery h s query ifIndex from = [])
  /\ forall s' svc' id, handleQuery h s (probe_query s' svc' id) ifIndex from = [].
Proof.
  split; [|split].
  - unfold handleQuery. destruct (Ns query); [|simpl; lia].
    induction (Questions query) as [|q qs IH]; simpl; [lia|].
    rewrite List.length_app.
    pose proof (answerQuestion_short h s query ifIndex from q). lia.
  - unfold handleQuery. destruct (Ns query); [intros H; contradiction|reflexivity].
  - intros s' svc' id. reflexivity.
Qed.

Lemma subtypes_unmatched h s svc q resp query ifIndex (subs : list string) :
  Forall (fun subtype => Qname q <> subtype +:+ "._sub." +:+ ServiceName svc) subs ->
  handleSubtypes h s svc subs q resp query ifIndex = resp.
Proof.
  induction subs as [|x subs IH]; intros Hs; [reflexivity|].
  apply Forall_cons in Hs. destruct Hs as [Hx Hs]. simpl.
  destruct (String.eqb_spec (Qname q) (x +:+ "._sub." +:+ ServiceName svc));
    [contradiction|apply IH, Hs].
Qed.

(** A question for a name that is not the service-type name, the
    service name, the instance name or a subtype name of the published
    service gets no response. *)
Theorem foreign_question_unanswered h s svc query ifIndex from q :
  service s = Some svc ->
  ~ In (Qname q) (answered_names svc) ->
  answerQuestion h s query ifIndex from q = [].
Proof.
  intros Hsvc Hnot. unfold answered_names in Hnot.
  assert (H1 : Qname q <> ServiceTypeName svc) by (intros E; apply Hnot; rewrite E; simpl; auto).
  assert (H2 : Qname q <> ServiceName svc) by (intros E; apply Hnot; rewrite E; simpl; auto).
  assert (H3 : Qname q <> ServiceInstanceName svc) by (intros E; apply Hnot; rewrite E; simpl; auto).
  assert (H4 : Forall (fun subtype => Qname q <> subtype +:+ "._sub." +:+ ServiceName svc)
                      (Subtypes svc)).
  { apply List.Forall_forall. intros x Hx E. apply Hnot. simpl. do 3 right.
    apply in_map_iff. exists x. split; [symmetry; exact E|exact Hx]. }
  unfold answerQuestion, handleQuestion. rewrite Hsvc.
  destruct (String.eqb_spec (Qname q) (ServiceTypeName svc)); [contradiction|].
  destruct (String.eqb_spec (Qname q) (ServiceName svc)); [contradiction|].
  destruct (String.eqb_spec (Qname q) (ServiceInstanceName svc)); [contradiction|].
  rewrite subtypes_unmatched by exact H4. reflexivity.
Qed.

Lemma foreign_question_unanswered_witness :
  service printer_server = Some printer
  /\ ~ In (Qname (mkQuestion "_http._tcp.local." TypePTR ClassINET)) (answered_names printer)
  /\ answerQuestion office printer_server browse_query 2 "192.168.1.7:5353"
                    (mkQuestion "_http._tcp.local." TypePTR ClassINET) = [].
Proof.
  assert (Hnot : ~ In (Qname (mkQuestion "_http._tcp.local." TypePTR ClassINET))
                      (answered_names printer)).
  { vm_compute. intros [H|[H|[H|[]]]]; discriminate H. }
  split; [reflexivity|]. split; [exact Hnot|].
  apply (foreign_question_unanswered office printer_server printer browse_query 2
           "192.168.1.7:5353" (mkQuestion "_http._tcp.local." TypePTR ClassINET));
    [reflexivity|exact Hnot].
Defined.

(** *** When an answer is held back *)

Lemma isKnownAnswer_inv (resp query : Msg) :
  isKnownAnswer resp query = true ->
  exists ah kh (R : string) (rest : list RR),
    Answer resp = PTR ah R :: rest
    /\ Rrtype ah = TypePTR
    /\ In (PTR kh R) (Answer query)
    /\ Rrtype kh = TypePTR
    /\ Ttl ah / 2 <= Ttl kh.
Proof.
  unfold isKnownAnswer.
  destruct (Answer resp) as [|first rest]; [discriminate|].
  destruct (Answer query) as [|k0 ks] eqn:EQ; [discriminate|].
  destruct (Z.eqb_spec (Rrtype (Header first)) TypePTR) as [Hf|]; [|discriminate].
  simpl negb. cbv iota.
  destruct first as [ah R| | | | |]; try discriminate.
  intros Hex. apply existsb_exists in Hex. destruct Hex as (known & Hin & Hk).
  simpl in Hf.
  destruct (Z.eqb_spec (Rrtype (Header known)) (Rrtype ah)) as [Hty|]; [|discriminate].
  simpl in Hk. destruct known as [kh R'| | | | |]; try discriminate.
  apply andb_true_iff in Hk. destruct Hk as [HR Httl].
  apply String.eqb_eq in HR. subst R'. apply Z.geb_le in Httl. simpl in *.
  exists ah, kh, R, rest. repeat split; try assumption. congruence.
Qed.

(** [isKnownAnswer] holds exactly when the first answer of the response
    is a PTR record and the Answer section of the query has a PTR record
    with the same target and a TTL of at least half the TTL of that
    answer, the half rounded down. *)
Theorem isKnownAnswer_iff (resp query : Msg) :
  isKnownAnswer resp query = true
  <-> exists ah kh (R : string) (rest : list RR),
        Answer resp = PTR ah R :: rest
        /\ Rrtype ah = TypePTR
        /\ In (PTR kh R) (Answer query)
        /\ Rrtype kh = TypePTR
        /\ Ttl ah / 2 <= Ttl kh.
Proof.
  split; [apply isKnownAnswer_inv|].
  intros (ah & kh & R & rest & HA & Hah & Hin & Hkh & Httl).
  eapply ResponderFacts.isKnownAnswer_hit; eassumption.
Qed.

(** The responder drops an answer only for that reason: when the answer
    composed for a question is not empty but nothing is sent once the
    known answers of the query are taken into account, that answer
    starts with a PTR record and the query holds a PTR record with its
    target and at least half its TTL. *)
Theorem suppressed_only_if_known h s q query ifIndex (first : RR) (rest : list RR) :
  Answer (handleQuestion h s q (blank_reply query) (set_Answer [] query) ifIndex)
    = first :: rest ->
  Answer (handleQuestion h s q (blank_reply query) query ifIndex) = [] ->
  exists ah kh (R : string),
    first = PTR ah R
    /\ In (PTR kh R) (Answer query)
    /\ Rrtype kh = TypePTR
    /\ Ttl ah / 2 <= Ttl kh.
Proof.
  assert (Hsup : forall X : Msg,
             Answer X = first :: rest -> Answer (suppress_known X query) = [] ->
             exists ah kh (R : string),
               first = PTR ah R /\ In (PTR kh R) (Answer query)
               /\ Rrtype kh = TypePTR /\ Ttl ah / 2 <= Ttl kh).
  { intros X HX. unfold suppress_known.
    destruct (isKnownAnswer X query) eqn:EK; [|rewrite HX; discriminate].
    intros _. apply isKnownAnswer_inv in EK.
    destruct EK as (ah & kh & R & rest' & HA & _ & Hin & Hkh & Httl).
    rewrite HX in HA. injection HA as -> _. exists ah, kh, R. tauto. }
  unfold handleQuestion.
  destruct (service s) as [svc|]; [|intros H; discriminate H].
  destruct (String.eqb (Qname q) (ServiceTypeName svc)).
  { rewrite ResponderFacts.no_known_no_suppression. apply Hsup. }
  destruct (String.eqb (Qname q) (ServiceName svc)).
  { rewrite ResponderFacts.no_known_no_suppression. apply Hsup. }
  destruct (String.eqb (Qname q) (ServiceInstanceName svc)).
  { intros _. rewrite ResponderFacts.composeLookupAnswers_Answer. simpl.
    intros H. discriminate H. }
  rewrite ResponderFacts.subtypes_without_known, ResponderFacts.subtypes_with_known.
  destruct (find _ (Subtypes svc)); [apply Hsup|].
  intros H. discriminate H.
Qed.

Lemma suppressed_only_if_known_witness :
  Answer (handleQuestion office printer_server
                         (mkQuestion "_ipp._tcp.local." TypePTR ClassINET)
                         (blank_reply browse_query_known)
                         (set_Answer [] browse_query_known) 2)
  = [PTR (mkHdr "_ipp._tcp.local." TypePTR ClassINET 3200) "Printer._ipp._tcp.local."]
  /\ Answer (handleQuestion office printer_server
                            (mkQuestion "_ipp._tcp.local." TypePTR ClassINET)
                            (blank_reply browse_query_known) browse_query_known 2) = []
  /\ exists ah kh (R : string),
      PTR (mkHdr "_ipp._tcp.local." TypePTR ClassINET 3200) "Printer._ipp._tcp.local."
      = PTR ah R
      /\ In (PTR kh R) (Answer browse_query_known)
      /\ Rrtype kh = TypePTR
      /\ Ttl ah / 2 <= Ttl kh.
Proof.
  split; [reflexivity|]. split; [reflexivity|].
  apply (suppressed_only_if_known office printer_server
           (mkQuestion "_ipp._tcp.local." TypePTR ClassINET) browse_query_known 2
           (PTR (mkHdr "_ipp._tcp.local." TypePTR ClassINET 3200) "Printer._ipp._tcp.local.")
           []); reflexivity.
Defined.

(** *** The reply to an instance lookup *)

(** A question on the instance name is always answered, whatever known
    answers the query carries: one response goes out, with SRV, TXT, the
    two PTR records, one PTR record for each subtype and the address
    records, all in the Answer section; the Extra section is empty. *)
Theorem lookup_always_answered h s svc query ifIndex from q :
  service s = Some svc ->
  Qname q <> ServiceTypeName svc ->
  Qname q <> ServiceName svc ->
  Qname q = ServiceInstanceName svc ->
  exists resp,
    answerQuestion h s query ifIndex from q
    = [if isUnicastQuestion q then unicastResponse resp ifIndex from
       else multicastResponse resp ifIndex]
    /\ Extra resp = []
    /\ Answer resp
       = [SRV (mkHdr (ServiceInstanceName svc) TypeSRV 0x8001 (ttl s))
              0 0 (Port svc mod 65536) (HostName svc);
          TXT (mkHdr (ServiceInstanceName svc) TypeTXT 0x8001 (ttl s)) (TxtRecords svc);
          PTR (mkHdr (ServiceName svc) TypePTR ClassINET (ttl s)) (ServiceInstanceName svc);
          PTR (mkHdr (ServiceTypeName svc) TypePTR ClassINET (ttl s)) (ServiceName svc)]
         ++ map (fun subtype =>
                   PTR (mkHdr subtype TypePTR ClassINET (ttl s)) (ServiceInstanceName svc))
                (Subtypes svc)
         ++ appendAddrs h svc [] (ttl s) ifIndex false.
Proof.
  intros Hsvc H1 H2 H3.
  exists (composeLookupAnswers h svc (blank_reply query) (ttl s) ifIndex false).
  assert (Hq : handleQuestion h s q (blank_reply query) query ifIndex
               = composeLookupAnswers h svc (blank_reply query) (ttl s) ifIndex false).
  { unfold handleQuestion. rewrite Hsvc.
    destruct (String.eqb_spec (Qname q) (ServiceTypeName svc)); [contradiction|].
    destruct (String.eqb_spec (Qname q) (ServiceName svc)); [contradiction|].
    destruct (String.eqb_spec (Qname q) (ServiceInstanceName svc)); [reflexivity|].
    contradiction. }
  assert (HA : Answer (composeLookupAnswers h svc (blank_reply query) (ttl s) ifIndex false)
               = [SRV (mkHdr (ServiceInstanceName svc) TypeSRV 0x8001 (ttl s))
                      0 0 (Port svc mod 65536) (HostName svc);
                  TXT (mkHdr (ServiceInstanceName svc) TypeTXT 0x8001 (ttl s))
                      (TxtRecords svc);
                  PTR (mkHdr (ServiceName svc) TypePTR ClassINET (ttl s))
                      (ServiceInstanceName svc);
                  PTR (mkHdr (ServiceTypeName svc) TypePTR ClassINET (ttl s))
                      (ServiceName svc)]
                 ++ map (fun subtype =>
                           PTR (mkHdr subtype TypePTR ClassINET (ttl s))
                               (ServiceInstanceName svc))
                        (Subtypes svc)
                 ++ appendAddrs h svc [] (ttl s) ifIndex false).
  { rewrite ResponderFacts.composeLookupAnswers_Answer. reflexivity. }
  split; [|split].
  - unfold answerQuestion. rewrite Hq, HA. destruct (isUnicastQuestion q); reflexivity.
  - destruct (ResponderFacts.composeLookupAnswers_rest h svc (blank_reply query) (ttl s)
                ifIndex false) as (-> & _). reflexivity.
  - exact HA.
Qed.

Lemma lookup_always_answered_witness :
  service printer_server = Some printer
  /\ Qname lookup_question <> ServiceTypeName printer
  /\ Qname lookup_question <> ServiceName printer
  /\ Qname lookup_question = ServiceInstanceName printer
  /\ exists resp,
      answerQuestion office printer_server lookup_query_known 2 "192.168.1.7:5353"
                     lookup_question
      = [if isUnicastQuestion lookup_question
         then unicastResponse resp 2 "192.168.1.7:5353"
         else multicastResponse resp 2]
      /\ Extra resp = []
      /\ Answer resp
         = [SRV (mkHdr (ServiceInstanceName printer) TypeSRV 0x8001 (ttl printer_server))
                0 0 (Port printer mod 65536) (HostName printer);
            TXT (mkHdr (ServiceInstanceName printer) TypeTXT 0x8001 (ttl printer_server))
                (TxtRecords printer);
            PTR (mkHdr (ServiceName printer) TypePTR ClassINET (ttl printer_server))
                (ServiceInstanceName printer);
            PTR (mkHdr (ServiceTypeName printer) TypePTR ClassINET (ttl printer_server))
                (ServiceName printer)]
           ++ map (fun subtype =>
                     PTR (mkHdr subtype TypePTR ClassINET (ttl printer_server))
                         (ServiceInstanceName printer))
                  (Subtypes printer)
           ++ appendAddrs office printer [] (ttl printer_server) 2 false.
Proof.
  split; [reflexivity|].
  split; [vm_compute; discriminate|]. split; [vm_compute; discriminate|].
  split; [reflexivity|].
  apply (lookup_always_answered office printer_server printer lookup_query_known 2
                                "192.168.1.7:5353" lookup_question).
  - reflexivity.
  - vm_compute. discriminate.
  - vm_compute. discriminate.
  - reflexivity.
Defined.

End AnswerFacts.

(* ===================================================================== *)
(** ** What the resolver submits, and when *)
(* ===================================================================== *)

Module DeliveryFacts.
Import Dns Resolver ResolverProps DeliveryProps.

Lemma submit_cases now (d : list ServiceEntry) (sent : gmap string ServiceEntry)
    (k : string) (e : ServiceEntry) :
  submit now (d, sent) (k, e)
  = if negb (Expiry e >? now) then (d, delete k sent)
    else if held_back sent k e then (d, sent)
    else (d ++ [e], <[k := e]> sent).
Proof. unfold submit, held_back. destruct (sent !! k); reflexivity. Qed.

(** A turn of the loop touches [sentEntries] at its own key only. *)
Lemma submit_other_keys now d (sent : gmap string ServiceEntry) (k k' : string)
    (e : ServiceEntry) :
  k <> k' -> snd (submit now (d, sent) (k, e)) !! k' = sent !! k'.
Proof.
  intros Hne. rewrite submit_cases.
  destruct (negb (Expiry e >? now)); simpl; [apply lookup_delete_ne, Hne|].
  destruct (held_back sent k e); simpl; [reflexivity|apply lookup_insert_ne, Hne].
Qed.

Lemma submit_own_key now d (sent : gmap string ServiceEntry) (k : string)
    (e : ServiceEntry) :
  snd (submit now (d, sent) (k, e)) !! k = remembered now sent k e.
Proof.
  rewrite submit_cases. unfold remembered.
  destruct (negb (Expiry e >? now)); simpl; [apply lookup_delete_eq|].
  destruct (held_back sent k e); simpl; [reflexivity|apply lookup_insert_eq].
Qed.

Lemma submit_delivers now d (sent : gmap string ServiceEntry) (k : string)
    (e : ServiceEntry) :
  fst (submit now (d, sent) (k, e))
  = d ++ (if deliverable now sent (k, e) then [e] else []).
Proof.
  rewrite submit_cases. unfold deliverable. simpl.
  destruct (Expiry e >? now); simpl; [|symmetry; apply app_nil_r].
  destruct (held_back sent k e); simpl; [symmetry; apply app_nil_r|reflexivity].
Qed.

Lemma held_back_same_lookup (sent sent' : gmap string ServiceEntry) (k : string)
    (e : ServiceEntry) :
  sent' !! k = sent !! k -> held_back sent' k e = held_back sent k e.
Proof. unfold held_back. intros ->. reflexivity. Qed.

(** The walk over entries with distinct keys: what is submitted is
    decided for each entry against the [sentEntries] the walk started
    with. *)
Lemma walk_delivers now (l : list (string * ServiceEntry)) :
  forall (d : list ServiceEntry) (sent : gmap string ServiceEntry),
    NoDup (l.*1) ->
    fst (fold_left (submit now) l (d, sent))
    = d ++ map snd (List.filter (deliverable now sent) l).
Proof.
  induction l as [|[k e] l IH]; intros d sent Hnd.
  - simpl. symmetry. apply app_nil_r.
  - rewrite fmap_cons in Hnd. apply NoDup_cons in Hnd. destruct Hnd as [Hk Hnd].
    cbn [fold_left List.filter fst] in *.
    destruct (submit now (d, sent) (k, e)) as [d1 sent1] eqn:E1.
    rewrite (IH d1 sent1 Hnd).
    pose proof (submit_delivers now d sent k e) as Hd. rewrite E1 in Hd. simpl in Hd.
    assert (Hsame : List.filter (deliverable now sent1) l
                    = List.filter (deliverable now sent) l).
    { apply filter_ext_in. intros [k' e'] Hin. unfold deliverable. simpl.
      f_equal. f_equal. apply held_back_same_lookup.
      pose proof (submit_other_keys now d sent k k' e) as Ho. rewrite E1 in Ho.
      apply Ho. intros ->. apply Hk.
      apply list_elem_of_In in Hin. apply (list_elem_of_fmap_2 fst) in Hin. exact Hin. }
    rewrite Hsame, Hd.
    destruct (deliverable now sent (k, e)); simpl; rewrite <- app_assoc; reflexivity.
Qed.

Lemma walk_remembers now (l : list (string * ServiceEntry)) :
  forall (d : list ServiceEntry) (sent : gmap string ServiceEntry) (k : string),
    NoDup (l.*1) ->
    snd (fold_left (submit now) l (d, sent)) !! k
    = match (list_to_map l : gmap string ServiceEntry) !! k with
      | Some e => remembered now sent k e
      | None => sent !! k
      end.
Proof.
  induction l as [|[k0 e0] l IH]; intros d sent k Hnd.
  - simpl. rewrite lookup_empty. reflexivity.
  - rewrite fmap_cons in Hnd. apply NoDup_cons in Hnd. destruct Hnd as [Hk Hnd].
    cbn [fold_left fst] in *. rewrite list_to_map_cons.
    destruct (submit now (d, sent) (k0, e0)) as [d1 sent1] eqn:E1.
    rewrite (IH d1 sent1 k Hnd).
    destruct (decide (k0 = k)) as [->|Hne].
    + rewrite lookup_insert_eq.
      rewrite (not_elem_of_list_to_map_1 l k Hk).
      pose proof (submit_own_key now d sent k e0) as Ho. rewrite E1 in Ho. exact Ho.
    + rewrite lookup_insert_ne by exact Hne.
      pose proof (submit_other_keys now d sent k0 k e0 Hne) as Ho. rewrite E1 in Ho.
      simpl in Ho.
      destruct (list_to_map l !! k) as [e|]; [|exact Ho].
      unfold remembered. rewrite (held_back_same_lookup sent sent1 k e) by exact Ho.
      rewrite Ho. reflexivity.
Qed.

(** The delivery rule of [mainloop] for one datagram.  The entries
    submitted are the entries fused from the datagram that have not
    expired and are not held back, each judged against the entries sent
    before the datagram; an entry is held back only when it was sent
    before, has no cache flush and expires at least a minute earlier
    than the one sent.  Afterwards [sentEntries] holds, for a key of
    the datagram, nothing if its entry had expired, the entry if it was
    submitted, and what it held otherwise; other keys are untouched. *)
Theorem delivery_rule params now (msg : Msg) (sentEntries : gmap string ServiceEntry) :
  fst (on_message params now msg sentEntries)
  = map snd (List.filter (deliverable now sentEntries)
                         (map_to_list (fuse params now msg)))
  /\ forall k,
      snd (on_message params now msg sentEntries) !! k
      = match fuse params now msg !! k with
        | Some e => remembered now sentEntries k e
        | None => sentEntries !! k
        end.
Proof.
  unfold on_message. split.
  - rewrite walk_delivers by apply NoDup_fst_map_to_list. reflexivity.
  - intros k. rewrite walk_remembers by apply NoDup_fst_map_to_list.
    rewrite list_to_map_to_list. reflexivity.
Qed.

(** No entry is submitted at or after its expiry: the loop drops an
    entry whose [Expiry] is not after the time the datagram was taken
    from the channel. *)
Theorem expired_never_delivered params now (msg : Msg)
    (sentEntries : gmap string ServiceEntry) :
  Forall (fun e => now < Expiry e) (fst (on_message params now msg sentEntries)).
Proof.
  unfold on_message. rewrite walk_delivers by apply NoDup_fst_map_to_list.
  cbn [app]. apply List.Forall_forall. intros e Hin. apply in_map_iff in Hin.
  destruct Hin as ([k e'] & <- & Hin). apply filter_In in Hin. destruct Hin as [_ Hd].
  unfold deliverable in Hd. apply andb_true_iff in Hd. destruct Hd as [Hd _].
  simpl in *. apply Z.gtb_lt in Hd. exact Hd.
Qed.

End DeliveryFacts.

(* ===================================================================== *)
(** ** From the responder to the subscriber *)
(* ===================================================================== *)

Module RoundTrip.
Import Dns Responder ResponderProps AnswerProps Resolver ResolverSetup ResolverProps
       DeliveryProps.

Lemma appendAddrs_from_source h svc rrs t ifIndex flushCache :
  appendAddrs h svc rrs t ifIndex flushCache
  = rrs ++ address_records (HostName svc) t flushCache
                           (fst (address_source h svc ifIndex))
                           (snd (address_source h svc ifIndex)).
Proof.
  rewrite AnswerFacts.appendAddrs_records. unfold address_source.
  destruct (AddrIPv4 svc), (AddrIPv6 svc); try reflexivity.
  destruct (InterfaceByIndex h ifIndex); reflexivity.
Qed.

(** The name of an instance ends with the name of its service. *)
Lemma instance_name_suffix (svc : ServiceEntry) :
  Instance svc <> EmptyString ->
  ServiceInstanceName svc = (trimDot (Instance svc) +:+ ".") +:+ ServiceName svc
  /\ GoString.HasSuffix (ServiceInstanceName svc) (ServiceName svc) = true.
Proof.
  intros Hi. unfold ServiceInstanceName, ServiceInstanceName_of.
  destruct (String.eqb_spec (Instance svc) ""); [contradiction|].
  fold (ServiceName svc).
  rewrite <- ChunksFacts.append_assoc3.
  split; [reflexivity|apply RegisterFacts.HasSuffix_append].
Qed.

Lemma ensure_present (k instance : string) params (m : gmap string ServiceEntry)
    (e : ServiceEntry) :
  m !! k = Some e -> ensure k instance params m = m.
Proof. unfold ensure. intros ->. reflexivity. Qed.

Lemma stamp_singleton now hdr (k : string) (e : ServiceEntry) :
  stamp now hdr k {[k := e]}
  = {[k := set_CacheFlush (Class hdr >? 32768) (set_Expiry (now + Ttl hdr * Second) e)]}.
Proof. unfold stamp. rewrite !alter_singleton_eq. reflexivity. Qed.

(** The first round leaves address records aside. *)
Lemma first_round_skips_addresses params now (name : string) t flushCache
    (v4 v6 : list IP) (m : gmap string ServiceEntry) :
  fold_left (fuse_record params now) (address_records name t flushCache v4 v6) m = m.
Proof.
  unfold address_records. rewrite fold_left_app.
  assert (H4 : forall (l : list IP) hd (m0 : gmap string ServiceEntry),
             fold_left (fuse_record params now) (map (A hd) l) m0 = m0).
  { induction l as [|a l IH]; intros hd m0; simpl; [reflexivity|apply IH]. }
  assert (H6 : forall (l : list IP) hd (m0 : gmap string ServiceEntry),
             fold_left (fuse_record params now) (map (AAAA hd) l) m0 = m0).
  { induction l as [|a l IH]; intros hd m0; simpl; [reflexivity|apply IH]. }
  rewrite H4, H6. reflexivity.
Qed.

(** The second round hands every address of the host to its entry. *)
Lemma second_round_addresses (k name : string) t flushCache (v4 v6 : list IP) :
  forall e : ServiceEntry,
    HostName e = name ->
    fold_left fuse_address (address_records name t flushCache v4 v6) {[k := e]}
    = {[k := set_AddrIPv6 (AddrIPv6 e ++ v6) (set_AddrIPv4 (AddrIPv4 e ++ v4) e)]}.
Proof.
  unfold address_records. intros e He. rewrite fold_left_app.
  assert (H4 : forall (l : list IP) hd (e0 : ServiceEntry),
             HostName e0 = Name hd ->
             fold_left fuse_address (map (A hd) l) {[k := e0]}
             = ({[k := set_AddrIPv4 (AddrIPv4 e0 ++ l) e0]} : gmap string ServiceEntry)).
  { induction l as [|a l IH]; intros hd e0 H0; simpl.
    - rewrite app_nil_r. destruct e0; reflexivity.
    - rewrite map_fmap_singleton, H0, String.eqb_refl.
      rewrite IH by exact H0. simpl. rewrite <- app_assoc. destruct e0; reflexivity. }
  assert (H6 : forall (l : list IP) hd (e0 : ServiceEntry),
             HostName e0 = Name hd ->
             fold_left fuse_address (map (AAAA hd) l) {[k := e0]}
             = ({[k := set_AddrIPv6 (AddrIPv6 e0 ++ l) e0]} : gmap string ServiceEntry)).
  { induction l as [|a l IH]; intros hd e0 H0; simpl.
    - rewrite app_nil_r. destruct e0; reflexivity.
    - rewrite map_fmap_singleton, H0, String.eqb_refl.
      rewrite IH by exact H0. simpl. rewrite <- app_assoc. destruct e0; reflexivity. }
  rewrite H4 by exact He. rewrite H6 by exact He. reflexivity.
Qed.

Lemma ptr_on_empty params now hdr (ptr : string) :
  Name hdr = params_ServiceName params ->
  params_ServiceInstanceName params = EmptyString ->
  fuse_record params now ∅ (PTR hdr ptr)
  = {[ptr := set_CacheFlush (Class hdr >? 32768)
               (set_Expiry (now + Ttl hdr * Second)
                  (newServiceEntry
                     (trimDot (GoString.Replace_with_empty ptr (Name hdr) None))
                     (params_Service params) (params_Domain params)))]}.
Proof.
  intros Hname Hinst. simpl. rewrite Hname, String.eqb_refl, Hinst. simpl.
  unfold ensure. rewrite lookup_empty, insert_empty. apply stamp_singleton.
Qed.

Lemma srv_on_entry params now hdr (pr w port : Z) (target : string) (e : ServiceEntry) :
  params_ServiceInstanceName params = EmptyString ->
  GoString.HasSuffix (Name hdr) (params_ServiceName params) = true ->
  fuse_record params now {[Name hdr := e]} (SRV hdr pr w port target)
  = {[Name hdr := set_CacheFlush (Class hdr >? 32768)
                    (set_Expiry (now + Ttl hdr * Second)
                       (set_Port port (set_HostName target e)))]}.
Proof.
  intros Hinst Hsuf. simpl. rewrite Hinst, Hsuf. simpl.
  rewrite (ensure_present _ _ _ _ e) by apply lookup_singleton_eq.
  rewrite !alter_singleton_eq. apply stamp_singleton.
Qed.

Lemma txt_on_entry params now hdr (txt : list string) (e : ServiceEntry) :
  params_ServiceInstanceName params = EmptyString ->
  GoString.HasSuffix (Name hdr) (params_ServiceName params) = true ->
  fuse_record params now {[Name hdr := e]} (TXT hdr txt)
  = {[Name hdr := set_CacheFlush (Class hdr >? 32768)
                    (set_Expiry (now + Ttl hdr * Second) (set_Text txt e))]}.
Proof.
  intros Hinst Hsuf. simpl. rewrite Hinst, Hsuf. simpl.
  rewrite (ensure_present _ _ _ _ e) by apply lookup_singleton_eq.
  rewrite !alter_singleton_eq. apply stamp_singleton.
Qed.

(** What a browser fuses from a browsing answer: one entry, under the
    name of the instance. *)
Lemma fuse_browsing_answer params now (resp : Msg) (sn sin host : string) (t port : Z)
    (txt : list string) (v4 v6 : list IP) :
  sections resp
  = PTR (mkHdr sn TypePTR ClassINET t) sin
    :: SRV (mkHdr sin TypeSRV ClassINET t) 0 0 port host
    :: TXT (mkHdr sin TypeTXT ClassINET t) txt
    :: address_records host t false v4 v6 ->
  sn = params_ServiceName params ->
  params_ServiceInstanceName params = EmptyString ->
  GoString.HasSuffix sin sn = true ->
  fuse params now resp
  = {[sin := fused_entry params now t (trimDot (GoString.Replace_with_empty sin sn None))
                         host port txt v4 v6]}.
Proof.
  intros Hsec Hsn Hinst Hsuf. unfold fuse. rewrite Hsec. cbn [fold_left].
  rewrite (ptr_on_empty params now (mkHdr sn TypePTR ClassINET t) sin Hsn Hinst).
  rewrite (srv_on_entry params now (mkHdr sin TypeSRV ClassINET t) 0 0 port host)
    by (simpl; congruence).
  rewrite (txt_on_entry params now (mkHdr sin TypeTXT ClassINET t) txt)
    by (simpl; congruence).
  rewrite first_round_skips_addresses.
  cbn [fuse_address].
  rewrite second_round_addresses by reflexivity.
  unfold fused_entry, newServiceEntry.
  destruct (parseSubtypes (params_Service params)). reflexivity.
Qed.

Lemma no_known_answers resp query :
  Answer query = [] -> suppress_known resp query = resp.
Proof.
  intros Hq. unfold suppress_known, isKnownAnswer. rewrite Hq.
  destruct (Answer resp); reflexivity.
Qed.

Lemma browse_query_form params id :
  params_Instance params = EmptyString ->
  params_Subtypes params = [] ->
  query params id
  = set_RecursionDesired false (SetQuestion id (params_ServiceName params) TypePTR zero).
Proof. intros Hi Hs. unfold query. rewrite Hi, Hs. reflexivity. Qed.

Lemma browsing_answer_sections h s svc resp ifIndex :
  Answer resp = [] -> Ns resp = [] -> Extra resp = [] ->
  sections (composeBrowsingAnswers h s svc resp ifIndex)
  = PTR (mkHdr (ServiceName svc) TypePTR ClassINET (ttl s)) (ServiceInstanceName svc)
    :: SRV (mkHdr (ServiceInstanceName svc) TypeSRV ClassINET (ttl s))
           0 0 (Port svc mod 65536) (HostName svc)
    :: TXT (mkHdr (ServiceInstanceName svc) TypeTXT ClassINET (ttl s)) (TxtRecords svc)
    :: address_records (HostName svc) (ttl s) false
                       (fst (address_source h svc ifIndex))
                       (snd (address_source h svc ifIndex)).
Proof.
  intros HA HN HE. unfold sections.
  rewrite ResponderFacts.composeBrowsingAnswers_Answer,
          ResponderFacts.composeBrowsingAnswers_Extra, HA, HE.
  change (Ns (composeBrowsingAnswers h s svc resp ifIndex)) with (Ns resp).
  rewrite HN, appendAddrs_from_source. reflexivity.
Qed.

(** Browsing, end to end.  A responder that publishes an instance of the
    service a browser asks for answers the browser's query with one
    multicast response, and from that response alone the browser
    submits one entry: it has the host name, the port (as 16 bits), the
    TXT strings and the addresses the responder put in the response, the
    service type and domain of the browser, and expires one responder
    TTL after it was received. *)
Theorem browse_round_trip h s svc params id ifIndex from now
    (sentEntries : gmap string ServiceEntry) :
  service s = Some svc ->
  Instance svc <> EmptyString ->
  params_Instance params = EmptyString ->
  params_Subtypes params = [] ->
  params_ServiceName params = ServiceName svc ->
  ServiceName svc <> ServiceTypeName svc ->
  0 < ttl s ->
  sentEntries !! ServiceInstanceName svc = None ->
  exists resp,
    handleQuery h s (query params id) ifIndex from = [multicastResponse resp ifIndex]
    /\ fst (on_message params now resp sentEntries)
       = [fused_entry params now (ttl s)
            (trimDot (GoString.Replace_with_empty (ServiceInstanceName svc)
                                                  (ServiceName svc) None))
            (HostName svc) (Port svc mod 65536) (TxtRecords svc)
            (fst (address_source h svc ifIndex)) (snd (address_source h svc ifIndex))].
Proof.
  intros Hsvc Hinst HpI HpS Hname Hnot Httl Hsent.
  rewrite (browse_query_form params id HpI HpS), Hname.
  set (q := set_RecursionDesired false (SetQuestion id (ServiceName svc) TypePTR zero)).
  exists (composeBrowsingAnswers h s svc (blank_reply q) ifIndex).
  split.
  - unfold handleQuery. cbn [q Ns set_RecursionDesired SetQuestion zero Questions flat_map].
    rewrite app_nil_r. unfold answerQuestion, handleQuestion. rewrite Hsvc.
    cbn [Qname].
    destruct (String.eqb_spec (ServiceName svc) (ServiceTypeName svc)); [contradiction|].
    rewrite String.eqb_refl.
    rewrite no_known_answers by reflexivity.
    rewrite ResponderFacts.composeBrowsingAnswers_Answer. reflexivity.
  - destruct (instance_name_suffix svc Hinst) as [_ Hsuf].
    assert (Hpi : params_ServiceInstanceName params = EmptyString).
    { unfold params_ServiceInstanceName, ServiceInstanceName_of. rewrite HpI. reflexivity. }
    unfold on_message.
    rewrite (fuse_browsing_answer params now _ (ServiceName svc) (ServiceInstanceName svc)
               (HostName svc) (ttl s) (Port svc mod 65536) (TxtRecords svc)
               (fst (address_source h svc ifIndex)) (snd (address_source h svc ifIndex)));
      [|apply browsing_answer_sections; reflexivity|symmetry; exact Hname|exact Hpi
       |exact Hsuf].
    rewrite map_to_list_singleton. cbn [fold_left].
    rewrite DeliveryFacts.submit_cases. unfold held_back. rewrite Hsent.
    assert (Hlater : (Expiry (fused_entry params now (ttl s)
                        (trimDot (GoString.Replace_with_empty (ServiceInstanceName svc)
                                                              (ServiceName svc) None))
                        (HostName svc) (Port svc mod 65536) (TxtRecords svc)
                        (fst (address_source h svc ifIndex))
                        (snd (address_source h svc ifIndex))) >? now) = true).
    { apply Z.gtb_lt. simpl. unfold Second. lia. }
    rewrite Hlater. reflexivity.
Qed.

Lemma browse_round_trip_witness :
  service printer_server = Some printer
  /\ Instance printer <> EmptyString
  /\ params_Instance browser = EmptyString
  /\ params_Subtypes browser = []
  /\ params_ServiceName browser = ServiceName printer
  /\ ServiceName printer <> ServiceTypeName printer
  /\ 0 < ttl printer_server
  /\ (∅ : gmap string ServiceEntry) !! ServiceInstanceName printer = None
  /\ exists resp,
      handleQuery office printer_server (query browser 7) 2 "192.168.1.7:5353"
      = [multicastResponse resp 2]
      /\ fst (on_message browser 1000 resp ∅)
         = [fused_entry browser 1000 (ttl printer_server)
              (trimDot (GoString.Replace_with_empty (ServiceInstanceName printer)
                                                    (ServiceName printer) None))
              (HostName printer) (Port printer mod 65536) (TxtRecords printer)
              (fst (address_source office printer 2))
              (snd (address_source office printer 2))].
Proof.
  split; [reflexivity|]. split; [discriminate|]. split; [reflexivity|].
  split; [reflexivity|]. split; [reflexivity|]. split; [vm_compute; discriminate|].
  split; [simpl; lia|]. split; [apply lookup_empty|].
  apply (browse_round_trip office printer_server printer browser 7 2 "192.168.1.7:5353"
                           1000 ∅).
  - reflexivity.
  - discriminate.
  - reflexivity.
  - reflexivity.
  - reflexivity.
  - vm_compute. discriminate.
  - simpl. lia.
  - apply lookup_empty.
Defined.

Example browse_round_trip_run :
  fused_entry browser 1000 (ttl printer_server)
    (trimDot (GoString.Replace_with_empty (ServiceInstanceName printer)
                                          (ServiceName printer) None))
    (HostName printer) (Port printer mod 65536) (TxtRecords printer)
    (fst (address_source office printer 2)) (snd (address_source office printer 2))
  = mkEntry "Printer" "_ipp._tcp" "local" [] "myhost.local." 631 ["rp=ipp/print"]
            [lan_ip] [] (1000 + 3200 * Second) false.
Proof. reflexivity. Qed.

(** *** Announcements and the goodbye *)

Lemma srv_on_empty params now hdr (pr w port : Z) (target : string) :
  params_ServiceInstanceName params = EmptyString ->
  GoString.HasSuffix (Name hdr) (params_ServiceName params) = true ->
  fuse_record params now ∅ (SRV hdr pr w port target)
  = {[Name hdr := set_CacheFlush (Class hdr >? 32768)
                    (set_Expiry (now + Ttl hdr * Second)
                       (set_Port port
                          (set_HostName target
                             (newServiceEntry
                                (trimDot (GoString.Replace_with_empty
                                            (Name hdr) (params_ServiceName params)
                                            (Some 1%nat)))
                                (params_Service params) (params_Domain params)))))]}.
Proof.
  intros Hinst Hsuf. simpl. rewrite Hinst, Hsuf. simpl.
  unfold ensure. rewrite lookup_empty, insert_empty.
  rewrite !alter_singleton_eq. apply stamp_singleton.
Qed.

Lemma ptr_on_entry params now hdr (ptr : string) (e : ServiceEntry) :
  Name hdr = params_ServiceName params ->
  params_ServiceInstanceName params = EmptyString ->
  fuse_record params now {[ptr := e]} (PTR hdr ptr)
  = {[ptr := set_CacheFlush (Class hdr >? 32768)
               (set_Expiry (now + Ttl hdr * Second) e)]}.
Proof.
  intros Hname Hinst. simpl. rewrite Hname, String.eqb_refl, Hinst. simpl.
  rewrite (ensure_present _ _ _ _ e) by apply lookup_singleton_eq.
  apply stamp_singleton.
Qed.

Lemma foreign_ptr_skipped params now hdr (ptr : string) (m : gmap string ServiceEntry) :
  Name hdr <> params_ServiceName params ->
  fuse_record params now m (PTR hdr ptr) = m.
Proof.
  intros Hne. simpl.
  destruct (String.eqb_spec (params_ServiceName params) (Name hdr)); [|reflexivity].
  congruence.
Qed.

Lemma subtype_ptrs_skipped params now (t : Z) (sin : string) (subs : list string) :
  forall m : gmap string ServiceEntry,
    Forall (fun subtype => subtype <> params_ServiceName params) subs ->
    fold_left (fuse_record params now)
              (map (fun subtype => PTR (mkHdr subtype TypePTR ClassINET t) sin) subs) m
    = m
    /\ fold_left fuse_address
                 (map (fun subtype => PTR (mkHdr subtype TypePTR ClassINET t) sin) subs) m
       = m.
Proof.
  induction subs as [|x subs IH]; intros m Hs; [split; reflexivity|].
  apply Forall_cons in Hs. destruct Hs as [Hx Hs].
  cbn [map fold_left]. rewrite foreign_ptr_skipped by exact Hx.
  cbn [fuse_address]. apply IH, Hs.
Qed.

(** What a browser fuses from the answer [composeLookupAnswers] makes
    (an announcement, the goodbye): one entry, under the name of the
    instance.  The SRV record comes first and creates it; the PTR
    record comes after SRV and TXT, so the cache-flush flag of the entry
    is the one of the PTR record: off. *)
Lemma fuse_lookup_answer params now (resp : Msg) (sn sin stn host : string) (t port : Z)
    (txt subs : list string) (flushCache : bool) (v4 v6 : list IP) :
  sections resp
  = SRV (mkHdr sin TypeSRV 0x8001 t) 0 0 port host
    :: TXT (mkHdr sin TypeTXT 0x8001 t) txt
    :: PTR (mkHdr sn TypePTR ClassINET t) sin
    :: PTR (mkHdr stn TypePTR ClassINET t) sn
    :: map (fun subtype => PTR (mkHdr subtype TypePTR ClassINET t) sin) subs
    ++ address_records host t flushCache v4 v6 ->
  sn = params_ServiceName params ->
  stn <> sn ->
  Forall (fun subtype => subtype <> sn) subs ->
  params_ServiceInstanceName params = EmptyString ->
  GoString.HasSuffix sin sn = true ->
  fuse params now resp
  = {[sin := fused_entry params now t
               (trimDot (GoString.Replace_with_empty sin sn (Some 1%nat)))
               host port txt v4 v6]}.
Proof.
  intros Hsec Hsn Hstn Hsubs Hinst Hsuf. subst sn. unfold fuse. rewrite Hsec.
  cbn [fold_left].
  rewrite (srv_on_empty params now (mkHdr sin TypeSRV 0x8001 t) 0 0 port host Hinst Hsuf).
  rewrite (txt_on_entry params now (mkHdr sin TypeTXT 0x8001 t) txt _ Hinst Hsuf).
  cbn [Name].
  rewrite (ptr_on_entry params now (mkHdr (params_ServiceName params) TypePTR ClassINET t)
             sin _ eq_refl Hinst).
  rewrite foreign_ptr_skipped by exact Hstn.
  rewrite !fold_left_app.
  match goal with
  | |- context [fold_left (fuse_record params now) (map _ subs) ?m] =>
    destruct (subtype_ptrs_skipped params now t sin subs m Hsubs) as [H1 H2]
  end.
  rewrite H1, first_round_skips_addresses.
  cbn [fuse_address]. rewrite H2.
  rewrite second_round_addresses by reflexivity.
  unfold fused_entry, newServiceEntry.
  destruct (parseSubtypes (params_Service params)). reflexivity.
Qed.

Lemma lookup_answer_sections h svc resp t ifIndex flushCache :
  Answer resp = [] -> Ns resp = [] -> Extra resp = [] ->
  sections (composeLookupAnswers h svc resp t ifIndex flushCache)
  = SRV (mkHdr (ServiceInstanceName svc) TypeSRV 0x8001 t)
        0 0 (Port svc mod 65536) (HostName svc)
    :: TXT (mkHdr (ServiceInstanceName svc) TypeTXT 0x8001 t) (TxtRecords svc)
    :: PTR (mkHdr (ServiceName svc) TypePTR ClassINET t) (ServiceInstanceName svc)
    :: PTR (mkHdr (ServiceTypeName svc) TypePTR ClassINET t) (ServiceName svc)
    :: map (fun subtype => PTR (mkHdr subtype TypePTR ClassINET t) (ServiceInstanceName svc))
           (Subtypes svc)
    ++ address_records (HostName svc) t flushCache
                       (fst (address_source h svc ifIndex))
                       (snd (address_source h svc ifIndex)).
Proof.
  intros HA HN HE. unfold sections.
  destruct (ResponderFacts.composeLookupAnswers_rest h svc resp t ifIndex flushCache)
    as (-> & -> & _).
  rewrite ResponderFacts.composeLookupAnswers_Answer, HA, HN, HE,
          (appendAddrs_from_source h svc []).
  rewrite !app_nil_r. reflexivity.
Qed.

(** A browser that receives an announcement of the service it browses
    for submits the announced instance: one entry with the host name,
    port, TXT strings and addresses announced.  The SRV and TXT records
    of the announcement carry the cache-flush bit, yet the entry is
    submitted with [CacheFlush] off, since the PTR record, which has no
    such bit, is read after them. *)
Theorem announcement_delivered h s svc params (intf : Interface) now
    (sentEntries : gmap string ServiceEntry) :
  Instance svc <> EmptyString ->
  params_Instance params = EmptyString ->
  params_ServiceName params = ServiceName svc ->
  ServiceTypeName svc <> ServiceName svc ->
  Forall (fun subtype => subtype <> ServiceName svc) (Subtypes svc) ->
  0 < ttl s ->
  sentEntries !! ServiceInstanceName svc = None ->
  exists e,
    on_message params now (announcement h s svc intf) sentEntries
    = ([e], <[ServiceInstanceName svc := e]> sentEntries)
    /\ e = fused_entry params now (ttl s)
             (trimDot (GoString.Replace_with_empty (ServiceInstanceName svc)
                                                   (ServiceName svc) (Some 1%nat)))
             (HostName svc) (Port svc mod 65536) (TxtRecords svc)
             (fst (address_source h svc (Index intf)))
             (snd (address_source h svc (Index intf)))
    /\ CacheFlush e = false.
Proof.
  intros Hinst HpI Hname Hstn Hsubs Httl Hsent.
  destruct (instance_name_suffix svc Hinst) as [_ Hsuf].
  assert (Hpi : params_ServiceInstanceName params = EmptyString).
  { unfold params_ServiceInstanceName, ServiceInstanceName_of. rewrite HpI. reflexivity. }
  eexists. split; [|split; [reflexivity|reflexivity]].
  unfold on_message, announcement.
  rewrite (fuse_lookup_answer params now _ (ServiceName svc) (ServiceInstanceName svc)
             (ServiceTypeName svc) (HostName svc) (ttl s) (Port svc mod 65536)
             (TxtRecords svc) (Subtypes svc) true
             (fst (address_source h svc (Index intf)))
             (snd (address_source h svc (Index intf))));
    [|apply lookup_answer_sections; reflexivity|symmetry; exact Hname|exact Hstn
     |exact Hsubs|exact Hpi|exact Hsuf].
  rewrite map_to_list_singleton. cbn [fold_left].
  rewrite DeliveryFacts.submit_cases. unfold held_back. rewrite Hsent.
  match goal with
  | |- context [negb (?x >? now)] =>
    assert (Hlater : (x >? now) = true) by (apply Z.gtb_lt; simpl; unfold Second; lia)
  end.
  rewrite Hlater. reflexivity.
Qed.

Lemma announcement_delivered_witness :
  Instance printer <> EmptyString
  /\ params_Instance browser = EmptyString
  /\ params_ServiceName browser = ServiceName printer
  /\ ServiceTypeName printer <> ServiceName printer
  /\ Forall (fun subtype => subtype <> ServiceName printer) (Subtypes printer)
  /\ 0 < ttl printer_server
  /\ (∅ : gmap string ServiceEntry) !! ServiceInstanceName printer = None
  /\ exists e,
      on_message browser 1000 (announcement office printer_server printer eth0) ∅
      = ([e], <[ServiceInstanceName printer := e]> ∅)
      /\ e = fused_entry browser 1000 (ttl printer_server)
               (trimDot (GoString.Replace_with_empty (ServiceInstanceName printer)
                                                     (ServiceName printer) (Some 1%nat)))
               (HostName printer) (Port printer mod 65536) (TxtRecords printer)
               (fst (address_source office printer (Index eth0)))
               (snd (address_source office printer (Index eth0)))
      /\ CacheFlush e = false.
Proof.
  split; [discriminate|]. split; [reflexivity|]. split; [reflexivity|].
  split; [vm_compute; discriminate|]. split; [constructor|]. split; [simpl; lia|].
  split; [apply lookup_empty|].
  apply (announcement_delivered office printer_server printer browser eth0 1000 ∅).
  - discriminate.
  - reflexivity.
  - reflexivity.
  - vm_compute. discriminate.
  - constructor.
  - simpl. lia.
  - apply lookup_empty.
Defined.

(** A browser that receives the goodbye of an instance submits nothing
    and forgets the instance: its name is no longer among the entries
    sent, so a later announcement of it is submitted as new. *)
Theorem goodbye_forgets h s svc params now (sentEntries : gmap string ServiceEntry) :
  Instance svc <> EmptyString ->
  params_Instance params = EmptyString ->
  params_ServiceName params = ServiceName svc ->
  ServiceTypeName svc <> ServiceName svc ->
  Forall (fun subtype => subtype <> ServiceName svc) (Subtypes svc) ->
  on_message params now (message (unregister h s svc)) sentEntries
  = ([], delete (ServiceInstanceName svc) sentEntries).
Proof.
  intros Hinst HpI Hname Hstn Hsubs.
  destruct (instance_name_suffix svc Hinst) as [_ Hsuf].
  assert (Hpi : params_ServiceInstanceName params = EmptyString).
  { unfold params_ServiceInstanceName, ServiceInstanceName_of. rewrite HpI. reflexivity. }
  unfold on_message, unregister, message.
  rewrite (fuse_lookup_answer params now _ (ServiceName svc) (ServiceInstanceName svc)
             (ServiceTypeName svc) (HostName svc) 0 (Port svc mod 65536)
             (TxtRecords svc) (Subtypes svc) true
             (fst (address_source h svc 0)) (snd (address_source h svc 0)));
    [|apply lookup_answer_sections; reflexivity|symmetry; exact Hname|exact Hstn
     |exact Hsubs|exact Hpi|exact Hsuf].
  rewrite map_to_list_singleton. cbn [fold_left].
  rewrite DeliveryFacts.submit_cases.
  match goal with
  | |- context [negb (?x >? now)] =>
    assert (Hnow : (x >? now) = false)
      by (rewrite Z.gtb_ltb; apply Z.ltb_ge; simpl; lia)
  end.
  rewrite Hnow. reflexivity.
Qed.

Lemma goodbye_forgets_witness :
  Instance printer <> EmptyString
  /\ params_Instance browser = EmptyString
  /\ params_ServiceName browser = ServiceName printer
  /\ ServiceTypeName printer <> ServiceName printer
  /\ Forall (fun subtype => subtype <> ServiceName printer) (Subtypes printer)
  /\ on_message browser 1000 (message (unregister office printer_server printer))
                {["Printer._ipp._tcp.local."%string := printer]}
     = ([], delete (ServiceInstanceName printer)
                   {["Printer._ipp._tcp.local."%string := printer]}).
Proof.
  split; [discriminate|]. split; [reflexivity|]. split; [reflexivity|].
  split; [vm_compute; discriminate|]. split; [constructor|].
  apply (goodbye_forgets office printer_server printer browser 1000
                         {["Printer._ipp._tcp.local."%string := printer]}).
  - discriminate.
  - reflexivity.
  - reflexivity.
  - vm_compute. discriminate.
  - constructor.
Defined.

Lemma announcement_on_message h s svc params (intf : Interface) now
    (sentEntries : gmap string ServiceEntry) :
  Instance svc <> EmptyString ->
  params_Instance params = EmptyString ->
  params_ServiceName params = ServiceName svc ->
  ServiceTypeName svc <> ServiceName svc ->
  Forall (fun subtype => subtype <> ServiceName svc) (Subtypes svc) ->
  0 < ttl s ->
  let e := fused_entry params now (ttl s)
             (trimDot (GoString.Replace_with_empty (ServiceInstanceName svc)
                                                   (ServiceName svc) (Some 1%nat)))
             (HostName svc) (Port svc mod 65536) (TxtRecords svc)
             (fst (address_source h svc (Index intf)))
             (snd (address_source h svc (Index intf))) in
  on_message params now (announcement h s svc intf) sentEntries
  = if held_back sentEntries (ServiceInstanceName svc) e then ([], sentEntries)
    else ([e], <[ServiceInstanceName svc := e]> sentEntries).
Proof.
  intros Hinst HpI Hname Hstn Hsubs Httl e.
  destruct (instance_name_suffix svc Hinst) as [_ Hsuf].
  assert (Hpi : params_ServiceInstanceName params = EmptyString).
  { unfold params_ServiceInstanceName, ServiceInstanceName_of. rewrite HpI. reflexivity. }
  unfold on_message, announcement.
  rewrite (fuse_lookup_answer params now _ (ServiceName svc) (ServiceInstanceName svc)
             (ServiceTypeName svc) (HostName svc) (ttl s) (Port svc mod 65536)
             (TxtRecords svc) (Subtypes svc) true
             (fst (address_source h svc (Index intf)))
             (snd (address_source h svc (Index intf))));
    [|apply lookup_answer_sections; reflexivity|symmetry; exact Hname|exact Hstn
     |exact Hsubs|exact Hpi|exact Hsuf].
  rewrite map_to_list_singleton. cbn [fold_left].
  rewrite DeliveryFacts.submit_cases. fold e.
  assert (Hlater : (Expiry e >? now) = true).
  { apply Z.gtb_lt. simpl. unfold Second. lia. }
  rewrite Hlater. simpl negb. cbv iota.
  destruct (held_back sentEntries (ServiceInstanceName svc) e); reflexivity.
Qed.

(** An announcement that comes again is submitted again.  The entry of
    the repetition expires later than the one sent, and an entry is
    held back only when it expires a minute or more earlier: a
    subscriber sees one entry for every announcement of an instance,
    two for the two rounds the responder sends on an interface. *)
Theorem repeated_announcement_redelivered h s svc params (intf : Interface) now1 now2
    (sentEntries : gmap string ServiceEntry) :
  Instance svc <> EmptyString ->
  params_Instance params = EmptyString ->
  params_ServiceName params = ServiceName svc ->
  ServiceTypeName svc <> ServiceName svc ->
  Forall (fun subtype => subtype <> ServiceName svc) (Subtypes svc) ->
  0 < ttl s ->
  sentEntries !! ServiceInstanceName svc = None ->
  now1 <= now2 ->
  exists e1 e2 sent1,
    on_message params now1 (announcement h s svc intf) sentEntries = ([e1], sent1)
    /\ on_message params now2 (announcement h s svc intf) sent1
       = ([e2], <[ServiceInstanceName svc := e2]> sent1)
    /\ Expiry e1 = now1 + ttl s * Second
    /\ Expiry e2 = now2 + ttl s * Second.
Proof.
  intros Hinst HpI Hname Hstn Hsubs Httl Hsent Hle.
  pose proof (announcement_on_message h s svc params intf now1 sentEntries
                Hinst HpI Hname Hstn Hsubs Httl) as H1.
  cbv zeta in H1. unfold held_back in H1. rewrite Hsent in H1.
  eexists _, _, _. split; [exact H1|].
  pose proof (announcement_on_message h s svc params intf now2
                (<[ServiceInstanceName svc :=
                     fused_entry params now1 (ttl s)
                       (trimDot (GoString.Replace_with_empty (ServiceInstanceName svc)
                                                             (ServiceName svc) (Some 1%nat)))
                       (HostName svc) (Port svc mod 65536) (TxtRecords svc)
                       (fst (address_source h svc (Index intf)))
                       (snd (address_source h svc (Index intf)))]> sentEntries)
                Hinst HpI Hname Hstn Hsubs Httl) as H2.
  cbv zeta in H2. unfold held_back in H2. rewrite lookup_insert_eq in H2.
  assert (Hnew : (now2 + ttl s * Second >? now1 + ttl s * Second - Minute) = true).
  { apply Z.gtb_lt. unfold Minute, Second. lia. }
  simpl in H2. rewrite Hnew in H2. simpl in H2.
  split; [exact H2|]. split; reflexivity.
Qed.

Lemma repeated_announcement_redelivered_witness :
  Instance printer <> EmptyString
  /\ params_Instance browser = EmptyString
  /\ params_ServiceName browser = ServiceName printer
  /\ ServiceTypeName printer <> ServiceName printer
  /\ Forall (fun subtype => subtype <> ServiceName printer) (Subtypes printer)
  /\ 0 < ttl printer_server
  /\ (∅ : gmap string ServiceEntry) !! ServiceInstanceName printer = None
  /\ 1000 <= 2000
  /\ exists e1 e2 sent1,
      on_message browser 1000 (announcement office printer_server printer eth0) ∅
      = ([e1], sent1)
      /\ on_message browser 2000 (announcement office printer_server printer eth0) sent1
         = ([e2], <[ServiceInstanceName printer := e2]> sent1)
      /\ Expiry e1 = 1000 + ttl printer_server * Second
      /\ Expiry e2 = 2000 + ttl printer_server * Second.
Proof.
  split; [discriminate|]. split; [reflexivity|]. split; [reflexivity|].
  split; [vm_compute; discriminate|]. split; [constructor|]. split; [simpl; lia|].
  split; [apply lookup_empty|]. split; [lia|].
  apply (repeated_announcement_redelivered office printer_server printer browser eth0
                                           1000 2000 ∅).
  - discriminate.
  - reflexivity.
  - reflexivity.
  - vm_compute. discriminate.
  - constructor.
  - simpl. lia.
  - apply lookup_empty.
  - lia.
Defined.

(** *** Records of others *)

Lemma foreign_record_skipped params now (m : gmap string ServiceEntry) (rr : RR) :
  foreign params rr -> fuse_record params now m rr = m.
Proof.
  destruct rr as [hd p|hd ? ? ? ?|hd txt|hd a|hd a|hd]; simpl; try reflexivity.
  - intros [Hn|[H1 H2]].
    + destruct (String.eqb_spec (params_ServiceName params) (Name hd)); [congruence|].
      reflexivity.
    + destruct (negb _); [reflexivity|].
      destruct (String.eqb_spec (params_ServiceInstanceName params) "");
        [contradiction|].
      destruct (String.eqb_spec (params_ServiceInstanceName params) p);
        [contradiction|reflexivity].
  - intros [Hs|[H1 H2]].
    + rewrite Hs. simpl. destruct (_ && _); reflexivity.
    + destruct (String.eqb_spec (params_ServiceInstanceName params) "");
        [contradiction|].
      destruct (String.eqb_spec (params_ServiceInstanceName params) (Name hd));
        [contradiction|reflexivity].
  - intros [Hs|[H1 H2]].
    + rewrite Hs. simpl. destruct (_ && _); reflexivity.
    + destruct (String.eqb_spec (params_ServiceInstanceName params) "");
        [contradiction|].
      destruct (String.eqb_spec (params_ServiceInstanceName params) (Name hd));
        [contradiction|reflexivity].
Qed.

Lemma no_entry_no_address (l : list RR) :
  fold_left fuse_address l (∅ : gmap string ServiceEntry) = ∅.
Proof.
  induction l as [|rr l IH]; [reflexivity|].
  simpl. destruct rr; simpl; rewrite ?fmap_empty; exact IH.
Qed.

(** A datagram that holds only records of other services (or, for a
    lookup, of other instances) and address records changes nothing: no
    entry is submitted and the entries sent stay as they are. *)
Theorem foreign_datagram_ignored params now (msg : Msg)
    (sentEntries : gmap string ServiceEntry) :
  Forall (foreign params) (sections msg) ->
  on_message params now msg sentEntries = ([], sentEntries).
Proof.
  intros Hf. unfold on_message, fuse.
  assert (H1 : forall (l : list RR) (m : gmap string ServiceEntry),
             Forall (foreign params) l -> fold_left (fuse_record params now) l m = m).
  { induction l as [|rr l IH]; intros m Hl; [reflexivity|].
    apply Forall_cons in Hl. destruct Hl as [Hrr Hl]. simpl.
    rewrite foreign_record_skipped by exact Hrr. apply IH, Hl. }
  rewrite H1 by exact Hf. rewrite no_entry_no_address, map_to_list_empty. reflexivity.
Qed.

Lemma foreign_datagram_ignored_witness :
  Forall (foreign browser) (sections http_datagram)
  /\ on_message browser 1000 http_datagram {["Printer._ipp._tcp.local."%string := printer]}
     = ([], {["Printer._ipp._tcp.local."%string := printer]}).
Proof.
  assert (Hf : Forall (foreign browser) (sections http_datagram)).
  { let l := eval vm_compute in (sections http_datagram) in
    change (Forall (foreign browser) l).
    apply List.Forall_cons; [left; vm_compute; discriminate|].
    apply List.Forall_cons; [left; vm_compute; reflexivity|].
    apply List.Forall_cons; [exact I|]. apply List.Forall_nil. }
  split; [exact Hf|].
  apply (foreign_datagram_ignored browser 1000 http_datagram
           {["Printer._ipp._tcp.local."%string := printer]}).
  exact Hf.
Defined.

(** *** The lookup of an instance *)

Lemma srv_on_empty_sought params now hdr (pr w port : Z) (target : string) :
  params_ServiceInstanceName params = Name hdr ->
  GoString.HasSuffix (Name hdr) (params_ServiceName params) = true ->
  fuse_record params now ∅ (SRV hdr pr w port target)
  = {[Name hdr := set_CacheFlush (Class hdr >? 32768)
                    (set_Expiry (now + Ttl hdr * Second)
                       (set_Port port
                          (set_HostName target
                             (newServiceEntry
                                (trimDot (GoString.Replace_with_empty
                                            (Name hdr) (params_ServiceName params)
                                            (Some 1%nat)))
                                (params_Service params) (params_Domain params)))))]}.
Proof.
  intros Hinst Hsuf. simpl. rewrite Hinst, String.eqb_refl, andb_false_r, Hsuf. simpl.
  unfold ensure. rewrite lookup_empty, insert_empty.
  rewrite !alter_singleton_eq. apply stamp_singleton.
Qed.

Lemma txt_on_entry_sought params now hdr (txt : list string) (e : ServiceEntry) :
  params_ServiceInstanceName params = Name hdr ->
  GoString.HasSuffix (Name hdr) (params_ServiceName params) = true ->
  fuse_record params now {[Name hdr := e]} (TXT hdr txt)
  = {[Name hdr := set_CacheFlush (Class hdr >? 32768)
                    (set_Expiry (now + Ttl hdr * Second) (set_Text txt e))]}.
Proof.
  intros Hinst Hsuf. simpl. rewrite Hinst, String.eqb_refl, andb_false_r, Hsuf. simpl.
  rewrite (ensure_present _ _ _ _ e) by apply lookup_singleton_eq.
  rewrite !alter_singleton_eq. apply stamp_singleton.
Qed.

Lemma ptr_on_entry_sought params now hdr (ptr : string) (e : ServiceEntry) :
  Name hdr = params_ServiceName params ->
  params_ServiceInstanceName params = ptr ->
  fuse_record params now {[ptr := e]} (PTR hdr ptr)
  = {[ptr := set_CacheFlush (Class hdr >? 32768)
               (set_Expiry (now + Ttl hdr * Second) e)]}.
Proof.
  intros Hname Hinst. simpl.
  rewrite Hname, !String.eqb_refl, Hinst, String.eqb_refl, andb_false_r. simpl.
  rewrite (ensure_present _ _ _ _ e) by apply lookup_singleton_eq.
  apply stamp_singleton.
Qed.

(** What the lookup of the instance named [sin] fuses from the answer
    [composeLookupAnswers] makes for it. *)
Lemma fuse_lookup_reply params now (resp : Msg) (sn sin stn host : string) (t port : Z)
    (txt subs : list string) (flushCache : bool) (v4 v6 : list IP) :
  sections resp
  = SRV (mkHdr sin TypeSRV 0x8001 t) 0 0 port host
    :: TXT (mkHdr sin TypeTXT 0x8001 t) txt
    :: PTR (mkHdr sn TypePTR ClassINET t) sin
    :: PTR (mkHdr stn TypePTR ClassINET t) sn
    :: map (fun subtype => PTR (mkHdr subtype TypePTR ClassINET t) sin) subs
    ++ address_records host t flushCache v4 v6 ->
  sn = params_ServiceName params ->
  stn <> sn ->
  Forall (fun subtype => subtype <> sn) subs ->
  params_ServiceInstanceName params = sin ->
  GoString.HasSuffix sin sn = true ->
  fuse params now resp
  = {[sin := fused_entry params now t
               (trimDot (GoString.Replace_with_empty sin sn (Some 1%nat)))
               host port txt v4 v6]}.
Proof.
  intros Hsec Hsn Hstn Hsubs Hinst Hsuf. subst sn. unfold fuse. rewrite Hsec.
  cbn [fold_left].
  rewrite (srv_on_empty_sought params now (mkHdr sin TypeSRV 0x8001 t) 0 0 port host
             Hinst Hsuf).
  rewrite (txt_on_entry_sought params now (mkHdr sin TypeTXT 0x8001 t) txt _ Hinst Hsuf).
  cbn [Name].
  rewrite (ptr_on_entry_sought params now
             (mkHdr (params_ServiceName params) TypePTR ClassINET t) sin _ eq_refl Hinst).
  rewrite foreign_ptr_skipped by exact Hstn.
  rewrite !fold_left_app.
  match goal with
  | |- context [fold_left (fuse_record params now) (map _ subs) ?m] =>
    destruct (subtype_ptrs_skipped params now t sin subs m Hsubs) as [H1 H2]
  end.
  rewrite H1, first_round_skips_addresses.
  cbn [fuse_address]. rewrite H2.
  rewrite second_round_addresses by reflexivity.
  unfold fused_entry, newServiceEntry.
  destruct (parseSubtypes (params_Service params)). reflexivity.
Qed.

Lemma instance_question_answered h s svc query ifIndex from (q : Question) :
  service s = Some svc ->
  Qname q = ServiceInstanceName svc ->
  ServiceInstanceName svc <> ServiceTypeName svc ->
  ServiceInstanceName svc <> ServiceName svc ->
  isUnicastQuestion q = false ->
  answerQuestion h s query ifIndex from q
  = [multicastResponse
       (composeLookupAnswers h svc (blank_reply query) (ttl s) ifIndex false) ifIndex].
Proof.
  intros Hsvc Hq H1 H2 Hu. unfold answerQuestion, handleQuestion. rewrite Hsvc, Hq, Hu.
  destruct (String.eqb_spec (ServiceInstanceName svc) (ServiceTypeName svc));
    [contradiction|].
  destruct (String.eqb_spec (ServiceInstanceName svc) (ServiceName svc)); [contradiction|].
  rewrite String.eqb_refl, ResponderFacts.composeLookupAnswers_Answer. reflexivity.
Qed.

Lemma instance_name_longer (svc : ServiceEntry) :
  Instance svc <> EmptyString -> ServiceInstanceName svc <> ServiceName svc.
Proof.
  intros Hi Heq. destruct (instance_name_suffix svc Hi) as [Hn _].
  apply (f_equal String.length) in Heq. rewrite Hn in Heq.
  rewrite !RegisterFacts.length_append in Heq. simpl in Heq. lia.
Qed.

(** The lookup of an instance, end to end.  The query of a lookup asks
    three questions on the instance name (SRV, TXT and ANY), and the
    responder that publishes the instance answers each of them with the
    same full multicast response: three equal responses go out for one
    query.  From each of them, whenever it arrives and as long as the
    entry sent before for the instance, if any, expires less than a
    minute after the new one, the resolver submits the entry of the
    instance anew: host name, port (as 16 bits), TXT strings and
    addresses as in the response, expiring one responder TTL after the
    arrival. *)
Theorem lookup_round_trip h s svc params id ifIndex from now
    (sentEntries : gmap string ServiceEntry) :
  service s = Some svc ->
  params_Instance params <> EmptyString ->
  params_Instance params = Instance svc ->
  trimDot (Instance svc) = Instance svc ->
  params_ServiceName params = ServiceName svc ->
  ServiceInstanceName svc <> ServiceTypeName svc ->
  ServiceTypeName svc <> ServiceName svc ->
  Forall (fun subtype => subtype <> ServiceName svc) (Subtypes svc) ->
  0 < ttl s ->
  (forall sent, sentEntries !! ServiceInstanceName svc = Some sent ->
                Expiry sent - Minute < now + ttl s * Second) ->
  exists resp e,
    handleQuery h s (query params id) ifIndex from
    = [multicastResponse resp ifIndex; multicastResponse resp ifIndex;
       multicastResponse resp ifIndex]
    /\ on_message params now resp sentEntries
       = ([e], <[ServiceInstanceName svc := e]> sentEntries)
    /\ e = fused_entry params now (ttl s)
             (trimDot (GoString.Replace_with_empty (ServiceInstanceName svc)
                                                   (ServiceName svc) (Some 1%nat)))
             (HostName svc) (Port svc mod 65536) (TxtRecords svc)
             (fst (address_source h svc ifIndex)) (snd (address_source h svc ifIndex)).
Proof.
  intros Hsvc HpI Hsame Htrim Hname Hstn Hstn' Hsubs Httl Hsent.
  assert (Hinst : Instance svc <> EmptyString) by congruence.
  destruct (instance_name_suffix svc Hinst) as [Hsin Hsuf].
  pose proof (instance_name_longer svc Hinst) as Hlong.
  assert (Hasked : params_Instance params +:+ "." +:+ params_ServiceName params
                   = ServiceInstanceName svc).
  { rewrite Hsin, Hname, Hsame, Htrim, ChunksFacts.append_assoc3. reflexivity. }
  assert (Hpi : params_ServiceInstanceName params = ServiceInstanceName svc).
  { unfold params_ServiceInstanceName, ServiceInstanceName_of.
    destruct (String.eqb_spec (params_Instance params) ""); [contradiction|].
    fold (params_ServiceName params). rewrite Hsame, Htrim, <- Hasked, Hsame.
    reflexivity. }
  set (q := query params id).
  exists (composeLookupAnswers h svc (blank_reply q) (ttl s) ifIndex false).
  eexists. split; [|split; [|reflexivity]].
  - unfold handleQuery, q, query.
    destruct (String.eqb_spec (params_Instance params) ""); [contradiction|].
    cbn [negb Ns set_RecursionDesired set_Question zero Questions flat_map].
    fold (ServiceName_of (params_Service params) (params_Domain params)).
    fold (params_ServiceName params). rewrite Hasked.
    assert (Hq : forall qtype,
               answerQuestion h s q ifIndex from
                              (mkQuestion (ServiceInstanceName svc) qtype ClassINET)
               = [multicastResponse
                    (composeLookupAnswers h svc (blank_reply q) (ttl s) ifIndex false)
                    ifIndex]).
    { intros qtype. apply instance_question_answered; [exact Hsvc|reflexivity|exact Hstn
                                                      |exact Hlong|reflexivity]. }
    unfold q, query in Hq.
    destruct (String.eqb_spec (params_Instance params) "") in Hq; [contradiction|].
    cbn [negb] in Hq.
    fold (ServiceName_of (params_Service params) (params_Domain params)) in Hq.
    fold (params_ServiceName params) in Hq. rewrite Hasked in Hq.
    rewrite !Hq. reflexivity.
  - unfold on_message.
    rewrite (fuse_lookup_reply params now _ (ServiceName svc) (ServiceInstanceName svc)
               (ServiceTypeName svc) (HostName svc) (ttl s) (Port svc mod 65536)
               (TxtRecords svc) (Subtypes svc) false
               (fst (address_source h svc ifIndex))
               (snd (address_source h svc ifIndex)));
      [|apply lookup_answer_sections; reflexivity|symmetry; exact Hname|exact Hstn'
       |exact Hsubs|exact Hpi|exact Hsuf].
    rewrite map_to_list_singleton. cbn [fold_left].
    rewrite DeliveryFacts.submit_cases.
    match goal with
    | |- context [negb (?x >? now)] =>
      assert (Hlater : (x >? now) = true) by (apply Z.gtb_lt; simpl; unfold Second; lia)
    end.
    rewrite Hlater. cbn [negb].
    assert (Hheld : held_back sentEntries (ServiceInstanceName svc)
                      (fused_entry params now (ttl s)
                         (trimDot (GoString.Replace_with_empty (ServiceInstanceName svc)
                                                               (ServiceName svc)
                                                               (Some 1%nat)))
                         (HostName svc) (Port svc mod 65536) (TxtRecords svc)
                         (fst (address_source h svc ifIndex))
                         (snd (address_source h svc ifIndex))) = false).
    { unfold held_back. destruct (sentEntries !! ServiceInstanceName svc) as [old|] eqn:E;
        [|reflexivity].
      specialize (Hsent old eq_refl).
      assert (Hgt : (now + ttl s * Second >? Expiry old - Minute) = true)
        by (apply Z.gtb_lt; lia).
      cbn [fused_entry Expiry]. rewrite Hgt. reflexivity. }
    rewrite Hheld. reflexivity.
Qed.

Lemma lookup_round_trip_witness :
  service printer_server = Some printer
  /\ params_Instance seeker <> EmptyString
  /\ params_Instance seeker = Instance printer
  /\ trimDot (Instance printer) = Instance printer
  /\ params_ServiceName seeker = ServiceName printer
  /\ ServiceInstanceName printer <> ServiceTypeName printer
  /\ ServiceTypeName printer <> ServiceName printer
  /\ Forall (fun subtype => subtype <> ServiceName printer) (Subtypes printer)
  /\ 0 < ttl printer_server
  /\ exists resp e,
      handleQuery office printer_server (query seeker 0) 2 "192.168.1.7:5353"
      = [multicastResponse resp 2; multicastResponse resp 2; multicastResponse resp 2]
      /\ on_message seeker 1000 resp ∅
         = ([e], <[ServiceInstanceName printer := e]> ∅)
      /\ e = fused_entry seeker 1000 (ttl printer_server)
               (trimDot (GoString.Replace_with_empty (ServiceInstanceName printer)
                                                     (ServiceName printer) (Some 1%nat)))
               (HostName printer) (Port printer mod 65536) (TxtRecords printer)
               (fst (address_source office printer 2))
               (snd (address_source office printer 2)).
Proof.
  split; [reflexivity|]. split; [discriminate|]. split; [reflexivity|].
  split; [reflexivity|]. split; [reflexivity|]. split; [vm_compute; discriminate|].
  split; [vm_compute; discriminate|]. split; [constructor|]. split; [simpl; lia|].
  apply (lookup_round_trip office printer_server printer seeker 0 2 "192.168.1.7:5353"
                           1000 ∅).
  - reflexivity.
  - discriminate.
  - reflexivity.
  - reflexivity.
  - reflexivity.
  - vm_compute. discriminate.
  - vm_compute. discriminate.
  - constructor.
  - simpl. lia.
  - intros sent Hs. rewrite lookup_empty in Hs. discriminate Hs.
Defined.

End RoundTrip.

(* ===================================================================== *)
(** ** The loops and the construction of the client *)
(* ===================================================================== *)

Module LoopFacts.
Import Dns Responder Resolver ResolverSetup ReceiveProps LoopProps.






Lemma recv4_skips h s unpack (c : bool) (pre : list Turn) packet cm from
    (post : list Turn) :
  unpack packet = None ->
  recv4 h s unpack c (pre ++ mkTurn false (ReadOk packet cm from) :: post)
  = recv4 h s unpack c (pre ++ post).
Proof.
  intros Hu. destruct c; [|destruct pre; destruct post; reflexivity].
  induction pre as [|t pre IH].
  - cbn [app recv4 negb shutdown_closed read]. unfold parsePacket. rewrite Hu.
    reflexivity.
  - rewrite <- !app_comm_cons. cbn [recv4 negb].
    destruct (shutdown_closed t); [reflexivity|].
    destruct (read t); rewrite IH; reflexivity.
Qed.

Lemma recv6_skips h s unpack (c : bool) (pre : list Turn) packet cm from
    (post : list Turn) :
  unpack packet = None ->
  recv6 h s unpack c (pre ++ mkTurn false (ReadOk packet cm from) :: post)
  = recv6 h s unpack c (pre ++ post).
Proof.
  intros Hu. destruct c; [|destruct pre; destruct post; reflexivity].
  induction pre as [|t pre IH].
  - cbn [app recv6 negb shutdown_closed read]. unfold parsePacket. rewrite Hu.
    reflexivity.
  - rewrite <- !app_comm_cons. cbn [recv6 negb].
    destruct (shutdown_closed t); [reflexivity|].
    destruct (read t); rewrite IH; reflexivity.
Qed.

Lemma recv_loop_skips unpack (pre : list ClientTurn) packet cm from (d : bool)
    (post : list ClientTurn) :
  unpack packet = None ->
  forall fatalErr : option string,
    recv_loop unpack (pre ++ mkClientTurn false (ReadOk packet cm from) d :: post) fatalErr
    = recv_loop unpack (pre ++ post) fatalErr.
Proof.
  intros Hu. induction pre as [|t pre IH]; intros fatalErr.
  - cbn [app recv_loop ctx_ended client_read]. rewrite Hu.
    destruct fatalErr as [err|]; [|reflexivity].
    rewrite ReceiveFacts.recv_loop_after_error. reflexivity.
  - rewrite <- !app_comm_cons. cbn [recv_loop].
    destruct (ctx_ended t || bool_decide (is_Some fatalErr)); [reflexivity|].
    destruct (client_read t) as [packet' cm' from'|err]; [|apply IH].
    destruct (unpack packet'); [|apply IH].
    destruct (done_first t); [reflexivity|]. rewrite IH. reflexivity.
Qed.

(** A datagram that does not unpack is dropped without a trace: the
    receive loops of the server and the receive loop of the client go on
    as if it had never been read.  Nothing is sent for it, nothing is
    forwarded, and, unlike a read error in the client, it does not end
    the loop. *)
Theorem undecodable_datagram_dropped (unpack : Codec) (packet : Packet) :
  unpack packet = None ->
  (forall h s c pre cm from post,
      recv4 h s unpack c (pre ++ mkTurn false (ReadOk packet cm from) :: post)
      = recv4 h s unpack c (pre ++ post)
      /\ recv6 h s unpack c (pre ++ mkTurn false (ReadOk packet cm from) :: post)
         = recv6 h s unpack c (pre ++ post))
  /\ (forall l pre cm from d post,
         recv unpack l (pre ++ mkClientTurn false (ReadOk packet cm from) d :: post)
         = recv unpack l (pre ++ post)).
Proof.
  intros Hu. split.
  - intros. split; [apply recv4_skips|apply recv6_skips]; exact Hu.
  - intros l pre cm from d post. unfold recv.
    destruct l; try reflexivity; apply recv_loop_skips; exact Hu.
Qed.

Lemma undecodable_datagram_dropped_witness :
  no_codec "garbage" = None
  /\ recv any_codec PacketConn4
          [mkClientTurn false (ReadOk "datagram" None "192.168.1.7:5353") false]
     = [zero]
  /\ (forall l pre cm from d post,
         recv no_codec l (pre ++ mkClientTurn false (ReadOk "garbage" cm from) d :: post)
         = recv no_codec l (pre ++ post)).
Proof.
  split; [reflexivity|]. split; [reflexivity|].
  apply (undecodable_datagram_dropped no_codec "garbage"). reflexivity.
Defined.

(** *** The families of the client *)

Lemma interface_options_keep_traffic (selections : list (list Interface)) :
  forall o : clientOpts,
    listenOn (fold_left (fun conf o => match o with Some f => f conf | None => conf end)
                        (interface_options selections) o)
    = listenOn o.
Proof.
  induction selections as [|l selections IH]; intros o; [reflexivity|].
  cbn [interface_options map fold_left]. fold (interface_options selections).
  rewrite IH. reflexivity.
Qed.

Lemma traffic_option_last (options : list (option ClientOption)) (t : Z) :
  listenOn (applyOpts (options ++ [Some (SelectIPTraffic t)])) = t.
Proof. unfold applyOpts. rewrite fold_left_app. reflexivity. Qed.

(** A host without IPv6 multicast.  The server is constructed all the
    same, on IPv4 alone.  The client is not, as long as the options
    leave the traffic selection at its default, which is both families:
    [Browse] and [Lookup] fail there.  With [SelectIPTraffic(IPv4)] as
    the last traffic option the client is constructed, on IPv4 alone. *)
Theorem ipv4_only_host (h : Host) :
  (forall l, joinUdp4Multicast h l = true) ->
  (forall l, joinUdp6Multicast h l = false) ->
  (forall ifaces opts,
      exists s, newServer h ifaces opts = Ok s
                /\ ipv4conn s = true /\ ipv6conn s = false)
  /\ (forall selections,
         exists err, newClient h (applyOpts (interface_options selections)) = Error err)
  /\ (forall options,
         exists c, newClient h (applyOpts (options ++ [Some (SelectIPTraffic IPv4)])) = Ok c
                   /\ client_ipv4conn c = true /\ client_ipv6conn c = false).
Proof.
  intros H4 H6. split; [|split].
  - intros ifaces opts. unfold newServer. rewrite H4, H6. eexists.
    split; [reflexivity|split; reflexivity].
  - intros selections. unfold newClient.
    assert (Hl : listenOn (applyOpts (interface_options selections)) = IPv4AndIPv6)
      by (unfold applyOpts; apply interface_options_keep_traffic).
    rewrite Hl, H4, H6. eexists. reflexivity.
  - intros options. unfold newClient. rewrite traffic_option_last, H4. eexists.
    split; [reflexivity|split; reflexivity].
Qed.

Lemma ipv4_only_host_witness :
  (forall l, joinUdp4Multicast v4_host l = true)
  /\ (forall l, joinUdp6Multicast v4_host l = false)
  /\ (exists err, newClient v4_host (applyOpts [Some (SelectIfaces [])]) = Error err)
  /\ (exists c, newClient v4_host (applyOpts [Some (SelectIPTraffic IPv4)]) = Ok c
                /\ client_ipv4conn c = true /\ client_ipv6conn c = false).
Proof.
  split; [reflexivity|]. split; [reflexivity|].
  destruct (ipv4_only_host v4_host (fun _ => eq_refl) (fun _ => eq_refl))
    as (_ & Hdefault & Hv4).
  split; [exact (Hdefault [[]])|exact (Hv4 [])].
Defined.

(** *** The query of the client *)

Lemma query_questions params id (q : Question) :
  In q (Questions (query params id)) -> Qclass q = ClassINET.
Proof.
  unfold query. destruct (negb (params_Instance params =? "")%string).
  - simpl. intros [<-|[<-|[<-|[]]]]; reflexivity.
  - destruct (params_Subtypes params); simpl; intros [<-|[]]; reflexivity.
Qed.

Lemma query_Ns params id : Ns (query params id) = [].
Proof.
  unfold query. destruct (negb (params_Instance params =? "")%string); [reflexivity|].
  destruct (params_Subtypes params); reflexivity.
Qed.

(** The queries of the client are multicast queries through and
    through: recursion is not desired, no question asks for a unicast
    response, and whatever a responder sends for such a query it sends
    by multicast, on the interface the query came in on, never to the
    sender alone. *)
Theorem client_query_answered_by_multicast h s params id ifIndex from :
  RecursionDesired (query params id) = false
  /\ Response (query params id) = false
  /\ Forall (fun q => isUnicastQuestion q = false) (Questions (query params id))
  /\ Forall (fun e => exists resp, e = multicastResponse resp ifIndex)
            (handleQuery h s (query params id) ifIndex from).
Proof.
  assert (Hq : forall q, In q (Questions (query params id)) -> isUnicastQuestion q = false).
  { intros q Hin. unfold isUnicastQuestion. rewrite (query_questions params id q Hin).
    reflexivity. }
  split; [reflexivity|]. split.
  { unfold query. destruct (negb (params_Instance params =? "")%string); [reflexivity|].
    destruct (params_Subtypes params); reflexivity. }
  split; [apply List.Forall_forall; exact Hq|].
  apply List.Forall_forall. intros e Hin. unfold handleQuery in Hin.
  rewrite query_Ns in Hin. apply in_flat_map in Hin. destruct Hin as [q [Hin He]].
  unfold answerQuestion in He. rewrite (Hq q Hin) in He.
  destruct (Answer _); [destruct He|]. destruct He as [<-|[]]. eexists. reflexivity.
Qed.

End LoopFacts.
